(** * ConfigManager (mycongif.py): a shallow embedding and its properties

    [mycongif.py] wraps Python's [configparser.ConfigParser] (default
    settings) in a class [ConfigManager] with load, save and CRUD methods.
    The class has no logic of its own beyond calling the parser, so the
    behaviour that the properties below are about is the parser's.  The
    embedding therefore has two layers:

    - [configparser]: the methods of CPython 3.11's [Lib/configparser.py] that
      [mycongif.py] calls, with the default constructor arguments
      (delimiters [=] and [:], comment prefixes [#] and [;], no inline
      comments, [strict=True], [empty_lines_in_values=True],
      [allow_no_value=False], [default_section='DEFAULT'],
      [BasicInterpolation], [optionxform = str.lower]);
    - [ConfigManager]: the methods of [mycongif.py], one definition
      per method, under the method's own name.

    Conventions.
    - A Python [str] is a Rocq [string]; a character is a code point in
      0..255, and [isspace] and [lower] are Python's on that range.
    - A Python [dict] is an association list in insertion order without
      duplicate keys ([Dict]): assignment to an existing key keeps its
      position, assignment to a new key appends.
    - A call that may raise returns a [result]; a method that mutates
      [self] returns the new object next to its [result].
    - The file system is a finite map from paths to file contents plus the
      set of paths at which creating or opening for writing fails ([os]).
    - [print] calls are not modelled: they have no effect on the state or
      on the value returned. *)

From Stdlib Require Import String Ascii List Bool Arith ZArith Lia DecimalString.
Import ListNotations.
Open Scope string_scope.

(** ** Python values, exceptions, strings *)

Module py.

Inductive pyvalue : Type :=
| PNone
| PBool (b : bool)
| PInt (z : Z)
| PStr (s : string).

(** [str(value)] *)
Definition str (v : pyvalue) : string :=
  match v with
  | PNone => "None"
  | PBool true => "True"
  | PBool false => "False"
  | PInt z => NilZero.string_of_int (Z.to_int z)
  | PStr s => s
  end.

(** The exception classes that the modelled code can raise. *)
Inductive exn : Type :=
| ValueError
| OSError
| NoSectionError
| NoOptionError
| DuplicateSectionError
| DuplicateOptionError
| InterpolationSyntaxError
| InterpolationMissingOptionError
| InterpolationDepthError
| ParsingError
| MissingSectionHeaderError.

Inductive result (A : Type) : Type :=
| Ret (a : A)
| Raise (e : exn).
Arguments Ret {A} a.
Arguments Raise {A} e.

Definition LF : ascii := "010"%char.
Definition CR : ascii := "013"%char.
Definition TAB : ascii := "009"%char.

(** [c.isspace()], which is also the class [\s] of [re] *)
Definition isspace (c : ascii) : bool :=
  let n := nat_of_ascii c in
  (((9 <=? n) && (n <=? 13)) || ((28 <=? n) && (n <=? 32))
   || (n =? 133) || (n =? 160))%nat.

Definition lower_char (c : ascii) : ascii :=
  let n := nat_of_ascii c in
  if (((65 <=? n) && (n <=? 90))
      || ((192 <=? n) && (n <=? 222) && negb (n =? 215)))%nat
  then ascii_of_nat (n + 32) else c.

(** [s.lower()] *)
Fixpoint lower (s : string) : string :=
  match s with
  | "" => ""
  | String c r => String (lower_char c) (lower r)
  end.

(** [c in s] for a one-character [c] *)
Fixpoint contains (c : ascii) (s : string) : bool :=
  match s with
  | "" => false
  | String c' r => Ascii.eqb c' c || contains c r
  end.

(** [s.find(c)] for a one-character [c]; [None] is Python's [-1] *)
Fixpoint find (c : ascii) (s : string) : option nat :=
  match s with
  | "" => None
  | String c' r =>
      if Ascii.eqb c' c then Some 0
      else match find c r with Some i => Some (S i) | None => None end
  end.

(** [s.rfind(c)] *)
Fixpoint rfind (c : ascii) (s : string) : option nat :=
  match s with
  | "" => None
  | String c' r =>
      match rfind c r with
      | Some i => Some (S i)
      | None => if Ascii.eqb c' c then Some 0 else None
      end
  end.

(** [s[:n]] and [s[n:]] *)
Fixpoint take (n : nat) (s : string) : string :=
  match n, s with
  | S n', String c r => String c (take n' r)
  | _, _ => ""
  end.

Fixpoint drop (n : nat) (s : string) : string :=
  match n, s with
  | S n', String _ r => drop n' r
  | _, _ => s
  end.

(** [s.startswith(p)] *)
Definition startswith (p s : string) : bool := String.prefix p s.

Fixpoint lstrip (s : string) : string :=
  match s with
  | "" => ""
  | String c r => if isspace c then lstrip r else s
  end.

Fixpoint rstrip (s : string) : string :=
  match s with
  | "" => ""
  | String c r =>
      match rstrip r with
      | "" => if isspace c then "" else String c ""
      | r' => String c r'
      end
  end.

(** [s.strip()] *)
Definition strip (s : string) : string := rstrip (lstrip s).

(** [s.replace(old, new)] for a non-empty [old]: the occurrences of
    [old] are found left to right and do not overlap.  [skip] counts the
    characters of an occurrence already replaced that are still to be
    passed over. *)
Fixpoint replace_from (old new : string) (skip : nat) (s : string) : string :=
  match s with
  | "" => ""
  | String c r =>
      match skip with
      | S k => replace_from old new k r
      | 0 =>
          if String.prefix old s
          then new ++ replace_from old new (String.length old - 1) r
          else String c (replace_from old new 0 r)
      end
  end.

Definition replace (old new s : string) : string := replace_from old new 0 s.

(** [sep.join(l)] *)
Fixpoint join (sep : string) (l : list string) : string :=
  match l with
  | [] => ""
  | [x] => x
  | x :: l' => x ++ sep ++ join sep l'
  end.

End py.
Import py.

(** ** Python dictionaries (insertion ordered) *)

Module Dict.
Section Dict.
Context {V : Type}.

Definition t : Type := list (string * V).

(** [d[k]], with [None] for [KeyError] *)
Fixpoint get (k : string) (d : t) : option V :=
  match d with
  | [] => None
  | (k', v) :: d' => if String.eqb k k' then Some v else get k d'
  end.

(** [k in d] *)
Definition mem (k : string) (d : t) : bool :=
  match get k d with Some _ => true | None => false end.

(** [d[k] = v] *)
Fixpoint set (k : string) (v : V) (d : t) : t :=
  match d with
  | [] => [(k, v)]
  | (k', v') :: d' =>
      if String.eqb k k' then (k', v) :: d' else (k', v') :: set k v d'
  end.

(** [del d[k]] *)
Fixpoint del (k : string) (d : t) : t :=
  match d with
  | [] => []
  | (k', v') :: d' =>
      if String.eqb k k' then d' else (k', v') :: del k d'
  end.

(** [list(d.keys())] *)
Definition keys (d : t) : list string := map fst d.

(** [d.update(other)] *)
Definition update (d other : t) : t :=
  fold_left (fun acc kv => set (fst kv) (snd kv) acc) other d.
End Dict.
Arguments t : clear implicits.
End Dict.

(** ** Files *)

Module os.

(** The part of the file system that the program sees: the text files
    by path, and the paths at which [os.makedirs] or [open(path, 'w')]
    raises [OSError] (no permission, invalid path, ...).  A write that
    has opened its file completes. *)
Record FileSystem : Type := mkFileSystem {
  files : Dict.t string;
  denied : list string
}.

(** Text mode with [newline=None]: on input, CR LF and a lone CR
    become LF. *)
Fixpoint universal_newlines (s : string) : string :=
  match s with
  | "" => ""
  | String c r =>
      if Ascii.eqb c CR then
        String LF (match r with
                   | String c' r' =>
                       if Ascii.eqb c' LF then universal_newlines r'
                       else universal_newlines r
                   | "" => ""
                   end)
      else String c (universal_newlines r)
  end.

(** The lines of a text as iteration over the open file yields them,
    each with its line feed (the last one may have none).  [cur] is the
    line read so far. *)
Fixpoint readlines_from (cur : string) (s : string) : list string :=
  match s with
  | "" => match cur with "" => [] | _ => [cur] end
  | String c r =>
      if Ascii.eqb c LF then (cur ++ String LF "") :: readlines_from "" r
      else readlines_from (cur ++ String c "") r
  end.

(** [open(path)] and iteration over it; a missing file raises
    [OSError] ([FileNotFoundError]). *)
Definition open_r (fs : FileSystem) (path : string) : result (list string) :=
  match Dict.get path (files fs) with
  | Some text => Ret (readlines_from "" (universal_newlines text))
  | None => Raise OSError
  end.

(** [os.makedirs(os.path.dirname(path) or '.', exist_ok=True)], then
    [open(path, 'w')], the writes that produce [text] and the close. *)
Definition open_w_write (fs : FileSystem) (path text : string)
    : result FileSystem :=
  if existsb (String.eqb path) (denied fs) then Raise OSError
  else Ret (mkFileSystem (Dict.set path text (files fs)) (denied fs)).

End os.

(** ** [configparser.ConfigParser] with its default settings *)

Module configparser.

(** The state of a parser object: [self._sections] and [self._defaults].
    Option values are strings ([allow_no_value] is off). *)
Record ConfigParser : Type := mkConfigParser {
  _sections : Dict.t (Dict.t string);
  _defaults : Dict.t string
}.

(** [configparser.ConfigParser()] *)
Definition new : ConfigParser := mkConfigParser [] [].

Definition default_section : string := "DEFAULT".
Definition MAX_INTERPOLATION_DEPTH : nat := 10.

(** [optionxform] *)
Definition optionxform (optionstr : string) : string := lower optionstr.

(** *** BasicInterpolation *)

(** The longest prefix of [s] without the character [c], and the rest:
    what [[^c]*] matches at the start of [s]. *)
Fixpoint span_not (c : ascii) (s : string) : string * string :=
  match s with
  | "" => ("", "")
  | String c' r =>
      if Ascii.eqb c' c then ("", s)
      else let (a, b) := span_not c r in (String c' a, b)
  end.

(** [_KEYCRE.match(s)] for [_KEYCRE = %\(([^)]+)\)s]: group 1 and
    [m.end()]. *)
Definition KEYCRE_match (s : string) : option (string * nat) :=
  match s with
  | String "%" (String "(" r) =>
      match span_not ")" r with
      | (String c n, String ")" (String "s" _)) =>
          Some (String c n, String.length (String c n) + 4)
      | _ => None
      end
  | _ => None
  end.

(** [_KEYCRE.sub('', s)] *)
Fixpoint KEYCRE_sub_from (skip : nat) (s : string) : string :=
  match s with
  | "" => ""
  | String c r =>
      match skip with
      | S k => KEYCRE_sub_from k r
      | 0 =>
          match KEYCRE_match s with
          | Some (_, e) => KEYCRE_sub_from (e - 1) r
          | None => String c (KEYCRE_sub_from 0 r)
          end
      end
  end.

Definition KEYCRE_sub (s : string) : string := KEYCRE_sub_from 0 s.

Definition before_set (value : string) : result string :=
  let tmp_value := replace "%%" "" value in
  let tmp_value := KEYCRE_sub tmp_value in
  if contains "%" tmp_value then Raise ValueError else Ret value.

(** The [while rest:] loop of [_interpolate_some].  [accum] is the list
    [accum] joined; [recur accum v] is the recursive call at [depth + 1];
    [fuel] bounds the number of iterations and is the length of [rest]
    at the start, which the loop cannot exhaust since every iteration
    shortens [rest]. *)
Fixpoint interpolate_loop (recur : string -> string -> result string)
    (map : string -> option string) (fuel : nat) (accum rest : string)
    : result string :=
  match rest, fuel with
  | "", _ => Ret accum
  | _, 0 => Ret accum
  | _, S fuel' =>
      match find "%" rest with
      | None => Ret (accum ++ rest)
      | Some p =>
          let accum := accum ++ take p rest in
          let rest := drop p rest in
          let c := take 1 (drop 1 rest) in
          if String.eqb c "%" then
            interpolate_loop recur map fuel' (accum ++ "%") (drop 2 rest)
          else if String.eqb c "(" then
            match KEYCRE_match rest with
            | None => Raise InterpolationSyntaxError
            | Some (name, e) =>
                let var := optionxform name in
                let rest := drop e rest in
                match map var with
                | None => Raise InterpolationMissingOptionError
                | Some v =>
                    if contains "%" v then
                      match recur accum v with
                      | Raise x => Raise x
                      | Ret accum => interpolate_loop recur map fuel' accum rest
                      end
                    else interpolate_loop recur map fuel' (accum ++ v) rest
                end
            end
          else Raise InterpolationSyntaxError
      end
  end.

(** [_interpolate_some]; [budget] is
    [MAX_INTERPOLATION_DEPTH + 1 - depth], so that [depth >
    MAX_INTERPOLATION_DEPTH] reads [budget = 0]. *)
Fixpoint _interpolate_some (budget : nat) (map : string -> option string)
    (accum rest : string) : result string :=
  match budget with
  | 0 => Raise InterpolationDepthError
  | S budget' =>
      interpolate_loop (_interpolate_some budget' map) map
                       (String.length rest) accum rest
  end.

(** [before_get]: [_interpolate_some] at [depth = 1], results joined *)
Definition before_get (value : string) (defaults : string -> option string)
    : result string :=
  _interpolate_some MAX_INTERPOLATION_DEPTH defaults "" value.

(** *** Sections and options *)

Definition has_section (self : ConfigParser) (section : string) : bool :=
  Dict.mem section (_sections self).

(** Raises before it changes anything. *)
Definition add_section (self : ConfigParser) (section : string)
    : result ConfigParser :=
  if String.eqb section default_section then Raise ValueError
  else if Dict.mem section (_sections self) then Raise DuplicateSectionError
  else Ret (mkConfigParser (Dict.set section [] (_sections self))
                           (_defaults self)).

(** [_ChainMap(vardict, sectiondict, self._defaults)] with an empty
    [vardict], as a lookup function *)
Definition ChainMap (sectiondict defaults : Dict.t string) (k : string)
    : option string :=
  match Dict.get k sectiondict with
  | Some v => Some v
  | None => Dict.get k defaults
  end.

Definition _unify_values (self : ConfigParser) (section : string)
    : result (string -> option string) :=
  match Dict.get section (_sections self) with
  | Some sectiondict => Ret (ChainMap sectiondict (_defaults self))
  | None =>
      if negb (String.eqb section default_section) then Raise NoSectionError
      else Ret (ChainMap [] (_defaults self))
  end.

(** [get(section, option)] with [raw=False], no [vars], no [fallback] *)
Definition get (self : ConfigParser) (section option : string)
    : result string :=
  match _unify_values self section with
  | Raise x => Raise x
  | Ret d =>
      let option := optionxform option in
      match d option with
      | None => Raise NoOptionError
      | Some value => before_get value d
      end
  end.

(** The list comprehension of [items]: the first call that raises ends
    it. *)
Fixpoint items_of (d : Dict.t string) (orig_keys : list string)
    : result (list (string * string)) :=
  match orig_keys with
  | [] => Ret []
  | option :: ks =>
      match Dict.get option d with
      | None => Raise NoOptionError
      | Some raw =>
          match before_get raw (fun k => Dict.get k d) with
          | Raise x => Raise x
          | Ret v =>
              match items_of d ks with
              | Raise x => Raise x
              | Ret l => Ret ((option, v) :: l)
              end
          end
      end
  end.

(** [items(section)] with [raw=False], no [vars] *)
Definition items (self : ConfigParser) (section : string)
    : result (list (string * string)) :=
  let d := _defaults self in
  match Dict.get section (_sections self) with
  | Some sectiondict =>
      let d := Dict.update d sectiondict in
      items_of d (Dict.keys d)
  | None =>
      if negb (String.eqb section default_section) then Raise NoSectionError
      else items_of d (Dict.keys d)
  end.

Definition has_option (self : ConfigParser) (section option : string)
    : bool :=
  if String.eqb section "" || String.eqb section default_section then
    Dict.mem (optionxform option) (_defaults self)
  else if negb (Dict.mem section (_sections self)) then false
  else
    let option := optionxform option in
    match Dict.get section (_sections self) with
    | Some sectiondict =>
        Dict.mem option sectiondict || Dict.mem option (_defaults self)
    | None => false
    end.

(** [ConfigParser.set]: the value is a [str] already, so
    [_validate_value_types] passes.  Raises before it changes
    anything. *)
Definition set (self : ConfigParser) (section option value : string)
    : result ConfigParser :=
  match (if String.eqb value "" then Ret value else before_set value) with
  | Raise x => Raise x
  | Ret value =>
      if String.eqb section "" || String.eqb section default_section then
        Ret (mkConfigParser (_sections self)
               (Dict.set (optionxform option) value (_defaults self)))
      else
        match Dict.get section (_sections self) with
        | None => Raise NoSectionError
        | Some sectdict =>
            Ret (mkConfigParser
                   (Dict.set section
                      (Dict.set (optionxform option) value sectdict)
                      (_sections self))
                   (_defaults self))
        end
  end.

(** Raises before it changes anything. *)
Definition remove_option (self : ConfigParser) (section option : string)
    : result (bool * ConfigParser) :=
  if String.eqb section "" || String.eqb section default_section then
    let option := optionxform option in
    let existed := Dict.mem option (_defaults self) in
    Ret (existed,
         if existed
         then mkConfigParser (_sections self) (Dict.del option (_defaults self))
         else self)
  else
    match Dict.get section (_sections self) with
    | None => Raise NoSectionError
    | Some sectdict =>
        let option := optionxform option in
        let existed := Dict.mem option sectdict in
        Ret (existed,
             if existed
             then mkConfigParser
                    (Dict.set section (Dict.del option sectdict)
                              (_sections self))
                    (_defaults self)
             else self)
    end.

Definition remove_section (self : ConfigParser) (section : string)
    : bool * ConfigParser :=
  let existed := Dict.mem section (_sections self) in
  (existed,
   if existed
   then mkConfigParser (Dict.del section (_sections self)) (_defaults self)
   else self).

(** *** Writing *)

Definition nl : string := String LF "".

Definition _write_section (section_name : string)
    (section_items : Dict.t string) (delimiter : string) : string :=
  "[" ++ section_name ++ "]" ++ nl
  ++ String.concat ""
       (map (fun kv =>
               fst kv ++ delimiter
               ++ replace nl (String LF (String TAB "")) (snd kv) ++ nl)
            section_items)
  ++ nl.

(** [write(fp)]: the text written to [fp].  [before_write] is the
    identity ([BasicInterpolation] does not override it). *)
Definition write (self : ConfigParser) : string :=
  let d := " = " in
  (match _defaults self with
   | [] => ""
   | _ :: _ => _write_section default_section (_defaults self) d
   end)
  ++ String.concat ""
       (map (fun sec => _write_section (fst sec) (snd sec) d)
            (_sections self)).

(** *** Reading *)

(** [SECTCRE.match(value)] for [SECTCRE = \[(?P<header>.+)\]]: the
    header.  [value] is a stripped line, so it holds no line feed and
    [.] matches each of its characters; the greedy [.+] ends at the
    last closing bracket. *)
Definition SECTCRE_match (value : string) : option string :=
  match value with
  | String "[" r =>
      match rfind "]" r with
      | Some (S i) => Some (take (S i) r)
      | _ => None
      end
  | _ => None
  end.

(** The part of [_OPT_TMPL] after the group [option], at the start of
    [s]: white space, the delimiter [vi] ([=] or [:]), white space, and
    the group [value] which takes the rest.  The result is [vi] and
    [value]. *)
Definition OPTCRE_tail (s : string) : option (ascii * string) :=
  match lstrip s with
  | String c r =>
      if Ascii.eqb c "=" || Ascii.eqb c ":" then Some (c, lstrip r)
      else None
  | "" => None
  end.

(** [_optcre.match(value)] for [_OPT_TMPL] with the delimiters [=] and
    [:]: the groups [option], [vi], [value].  The group [option] is
    lazy: it takes the shortest prefix after which the rest of the
    pattern matches. *)
Fixpoint OPTCRE_match (s : string) : option (string * ascii * string) :=
  match OPTCRE_tail s with
  | Some (vi, v) => Some ("", vi, v)
  | None =>
      match s with
      | "" => None
      | String c r =>
          match OPTCRE_match r with
          | Some (o, vi, v) => Some (String c o, vi, v)
          | None => None
          end
      end
  end.

(** [NONSPACECRE.search(line)]: the index of the first character that
    is not white space *)
Fixpoint NONSPACECRE_search (line : string) : option nat :=
  match line with
  | "" => None
  | String c r =>
      if isspace c then
        match NONSPACECRE_search r with Some i => Some (S i) | None => None end
      else Some 0
  end.

(** [cursect] is a reference to [self._defaults] or to one of the
    dictionaries of [self._sections]. *)
Inductive cursor : Type :=
| CurDefaults
| CurSection (name : string).

(** The members of [elements_added]: a section name or a pair
    [(sectname, optname)]. *)
Inductive element : Type :=
| ElemSection (sectname : string)
| ElemOption (sectname : option string) (optname : string).

Definition element_eqb (a b : element) : bool :=
  match a, b with
  | ElemSection x, ElemSection y => String.eqb x y
  | ElemOption (Some s) o, ElemOption (Some s') o' =>
      String.eqb s s' && String.eqb o o'
  | ElemOption None o, ElemOption None o' => String.eqb o o'
  | _, _ => false
  end.

(** The parser and the local variables of [_read] between two lines.
    While [_read] runs an option value is the list of its lines. *)
Record reader : Type := mkReader {
  r_sections : Dict.t (Dict.t (list string));
  r_defaults : Dict.t (list string);
  elements_added : list element;
  cursect : option cursor;
  sectname : option string;
  optname : option string;
  indent_level : nat;
  e : bool                      (* a [ParsingError] is pending *)
}.

Definition cursect_dict (rs : reader) (c : cursor) : Dict.t (list string) :=
  match c with
  | CurDefaults => r_defaults rs
  | CurSection name =>
      match Dict.get name (r_sections rs) with
      | Some d => d
      | None => []
      end
  end.

Definition with_cursect_dict (rs : reader) (c : cursor)
    (d : Dict.t (list string)) : reader :=
  match c with
  | CurDefaults =>
      mkReader (r_sections rs) d (elements_added rs) (cursect rs)
               (sectname rs) (optname rs) (indent_level rs) (e rs)
  | CurSection name =>
      mkReader (Dict.set name d (r_sections rs)) (r_defaults rs)
               (elements_added rs) (cursect rs) (sectname rs) (optname rs)
               (indent_level rs) (e rs)
  end.

(** [cursect[optname].append(value)]; the option is in [cursect] since
    [optname] is reset at every section header. *)
Definition cursect_append (rs : reader) (c : cursor) (o value : string)
    : reader :=
  let d := cursect_dict rs c in
  match Dict.get o d with
  | Some l => with_cursect_dict rs c (Dict.set o (l ++ [value])%list d)
  | None => rs
  end.

(** Python's truth value of [optname] *)
Definition truthy (o : option string) : option string :=
  match o with
  | Some "" => None
  | _ => o
  end.

(** The [else] branch of the continuation test in [_read]: [value] is a
    section header or an option line.  [indent_level] is the new value
    of that variable. *)
Definition read_entry (rs : reader) (value : string) (indent_level : nat)
    : result reader :=
  match SECTCRE_match value with
  | Some name =>
      if Dict.mem name (r_sections rs) then
        if existsb (element_eqb (ElemSection name)) (elements_added rs)
        then Raise DuplicateSectionError
        else
          Ret (mkReader (r_sections rs) (r_defaults rs)
                 (ElemSection name :: elements_added rs)
                 (Some (CurSection name)) (Some name) None
                 indent_level (e rs))
      else if String.eqb name default_section then
        Ret (mkReader (r_sections rs) (r_defaults rs)
               (elements_added rs)
               (Some CurDefaults) (Some name) None
               indent_level (e rs))
      else
        Ret (mkReader (Dict.set name [] (r_sections rs))
               (r_defaults rs)
               (ElemSection name :: elements_added rs)
               (Some (CurSection name)) (Some name) None
               indent_level (e rs))
  | None =>
      match cursect rs with
      | None => Raise MissingSectionHeaderError
      | Some c =>
          match OPTCRE_match value with
          | Some (o, vi, optval) =>
              let e' := if String.eqb o "" then true else e rs in
              let o := optionxform (rstrip o) in
              if existsb (element_eqb (ElemOption (sectname rs) o))
                         (elements_added rs)
              then Raise DuplicateOptionError
              else
                Ret (with_cursect_dict
                       (mkReader (r_sections rs) (r_defaults rs)
                          (ElemOption (sectname rs) o
                             :: elements_added rs)
                          (cursect rs) (sectname rs) (Some o)
                          indent_level e')
                       c
                       (Dict.set o [strip optval]
                                 (cursect_dict rs c)))
          | None =>
              Ret (mkReader (r_sections rs) (r_defaults rs)
                     (elements_added rs) (cursect rs) (sectname rs)
                     (optname rs) indent_level true)
          end
      end
  end.

(** One iteration of the [for lineno, line in enumerate(fp)] loop of
    [_read]. *)
Definition read_line (rs : reader) (line : string) : result reader :=
  if startswith "#" (strip line) || startswith ";" (strip line) then
    (* comment_start = 0: value is empty and nothing is appended *)
    Ret rs
  else
    let value := strip line in
    if String.eqb value "" then
      match cursect rs, truthy (optname rs) with
      | Some c, Some o => Ret (cursect_append rs c o "")
      | _, _ => Ret rs
      end
    else
      let cur_indent_level :=
        match NONSPACECRE_search line with Some i => i | None => 0 end in
      match cursect rs, truthy (optname rs),
            (indent_level rs <? cur_indent_level)%nat with
      | Some c, Some o, true => Ret (cursect_append rs c o value)
      | _, _, _ => read_entry rs value cur_indent_level
      end.

Fixpoint read_lines (rs : reader) (fp : list string) : result reader :=
  match fp with
  | [] => Ret rs
  | line :: fp' =>
      match read_line rs line with
      | Raise x => Raise x
      | Ret rs' => read_lines rs' fp'
      end
  end.

(** [_join_multiline_values] on one dictionary; [before_read] is the
    identity. *)
Definition join_values (options : Dict.t (list string)) : Dict.t string :=
  map (fun nv => (fst nv, rstrip (join nl (snd nv)))) options.

(** [_read(fp, fpname)] on the new parser of [__init__]: the parser
    when [_read] returns, or the exception it raises. *)
Definition _read (fp : list string) : result ConfigParser :=
  match read_lines (mkReader [] [] [] None None None 0 false) fp with
  | Raise x => Raise x
  | Ret rs =>
      if e rs then Raise ParsingError
      else Ret (mkConfigParser
                  (map (fun so => (fst so, join_values (snd so)))
                       (r_sections rs))
                  (join_values (r_defaults rs)))
  end.

(** [read(filename)] on the new parser of [__init__], for one file
    name: a file that cannot be opened is passed over. *)
Definition read (fs : os.FileSystem) (filename : string)
    : result ConfigParser :=
  match os.open_r fs filename with
  | Raise _ => Ret new
  | Ret fp => _read fp
  end.

End configparser.

(** ** [class ConfigManager] *)

Module ConfigManager.

(** The attributes of an instance. *)
Record self : Type := mkSelf {
  config_file_path : string;
  config : configparser.ConfigParser
}.

(** [_load_config], called once by [__init__] on the new parser: the
    value of [self.config] when it returns. *)
Definition _load_config (fs : os.FileSystem) (config_file_path : string)
    : configparser.ConfigParser :=
  match configparser.read fs config_file_path with
  | Ret cfg => cfg
  | Raise _ => configparser.new
  end.

Definition default_config_file_path : string := "config.ini".

(** [ConfigManager(config_file_path)] *)
Definition __init__ (fs : os.FileSystem) (config_file_path : string) : self :=
  mkSelf config_file_path (_load_config fs config_file_path).

(** [save_config]: the value returned, the object and the file system
    afterwards. *)
Definition save_config (fs : os.FileSystem) (s : self)
    : pyvalue * self * os.FileSystem :=
  match os.open_w_write fs (config_file_path s)
                        (configparser.write (config s)) with
  | Ret fs' => (PNone, s, fs')
  | Raise _ => (PNone, s, fs)
  end.

(** [add_key]: the outcome of the call and the object afterwards. *)
Definition add_key (s : self) (section key : string) (value : pyvalue)
    : result unit * self :=
  let created :=
    if negb (configparser.has_section (config s) section)
    then configparser.add_section (config s) section
    else Ret (config s) in
  match created with
  | Raise x => (Raise x, s)
  | Ret cfg =>
      match configparser.set cfg section key (str value) with
      | Raise x => (Raise x, mkSelf (config_file_path s) cfg)
      | Ret cfg' => (Ret tt, mkSelf (config_file_path s) cfg')
      end
  end.

Definition get_key (s : self) (section key : string) (default : pyvalue)
    : pyvalue :=
  match configparser.get (config s) section key with
  | Ret v => PStr v
  | Raise NoSectionError => default
  | Raise NoOptionError => default
  | Raise _ => default
  end.

(** [dict(pairs)] *)
Definition dict (pairs : list (string * string)) : Dict.t string :=
  Dict.update [] pairs.

Definition get_section (s : self) (section : string)
    : result (Dict.t string) :=
  if configparser.has_section (config s) section then
    match configparser.items (config s) section with
    | Ret l => Ret (dict l)
    | Raise x => Raise x
    end
  else Ret [].

Definition remove_key (s : self) (section key : string)
    : result bool * self :=
  if configparser.has_option (config s) section key then
    match configparser.remove_option (config s) section key with
    | Ret (_, cfg) => (Ret true, mkSelf (config_file_path s) cfg)
    | Raise x => (Raise x, s)
    end
  else (Ret false, s).

Definition remove_section (s : self) (section : string) : bool * self :=
  if configparser.has_section (config s) section then
    (true, mkSelf (config_file_path s)
                  (snd (configparser.remove_section (config s) section)))
  else (false, s).

End ConfigManager.

(** * Vocabulary of the properties

    The predicates and functions in which the properties are stated, and
    those that their proofs use. *)

Import ConfigManager.

(** ** In memory *)

(** The test that [set] makes on the value: an empty value is not
    looked at, another value must pass [before_set]. *)
Definition accepted (value : string) : bool :=
  String.eqb value ""
  || negb (contains "%" (configparser.KEYCRE_sub (replace "%%" "" value))).

(** No key is stored under a section named [''] itself: [set] files the
    keys given for that name among the defaults.  Every store that the
    class produces is of this kind ([empty_name_ok_init],
    [empty_name_ok_add_key], [empty_name_ok_remove_key],
    [empty_name_ok_remove_section]). *)
Definition empty_name_ok (cfg : configparser.ConfigParser) : bool :=
  forallb (fun sec : string * Dict.t string =>
             negb (String.eqb (fst sec) "")
             || match snd sec with [] => true | _ :: _ => false end)
          (configparser._sections cfg).

(** Two dictionaries with the same keys in the same order and related
    values. *)
Definition dsim {V : Type} (R : V -> V -> Prop) (d1 d2 : Dict.t V) : Prop :=
  Forall2 (fun a b => fst a = fst b /\ R (snd a) (snd b)) d1 d2.

(** Two calls end the same way: both return, or both raise the same
    exception. *)
Definition same_outcome {A B : Type} (r1 : result A) (r2 : result B) : Prop :=
  match r1, r2 with
  | Ret _, Ret _ => True
  | Raise x, Raise y => x = y
  | _, _ => False
  end.

(** Two values are interchangeable for the control flow of the
    interpolation: they are equal, or neither holds a [%]. *)
Definition vrel (a b : string) : Prop :=
  a = b \/ (contains "%" a = false /\ contains "%" b = false).

(** Two lookup functions with the same keys and interchangeable
    values. *)
Definition mrel (m1 m2 : string -> option string) : Prop :=
  forall x,
    match m1 x, m2 x with
    | Some a, Some b => vrel a b
    | None, None => True
    | _, _ => False
    end.

(** [f] on the value that a call returns. *)
Definition result_map {A B : Type} (f : A -> B) (r : result A) : result B :=
  match r with
  | Ret a => Ret (f a)
  | Raise x => Raise x
  end.

(** ** On file *)

(** [all p s]: every character of [s] satisfies [p]. *)
Fixpoint all (p : ascii -> bool) (s : string) : bool :=
  match s with
  | "" => true
  | String c r => p c && all p r
  end.

(** A section name that [write] and [_read] carry over: not empty, not
    [DEFAULT], without line feed or carriage return. *)
Definition safe_section (name : string) : bool :=
  negb (String.eqb name "") && negb (String.eqb name "DEFAULT")
  && negb (contains LF name) && negb (contains CR name).

(** A character that a key may hold. *)
Definition key_char (c : ascii) : bool :=
  negb (isspace c) && negb (Ascii.eqb c "=") && negb (Ascii.eqb c ":").

(** A key that [write] and [_read] carry over: not empty, without white
    space, [=] or [:], and not starting with [#], [;] or the opening
    bracket. *)
Definition safe_key (key : string) : bool :=
  match key with
  | "" => false
  | String c _ =>
      negb (Ascii.eqb c "#") && negb (Ascii.eqb c ";")
      && negb (Ascii.eqb c "[") && all key_char key
  end.

(** A value that [write] and [_read] carry over: without line feed or
    carriage return, and without white space at either end. *)
Definition safe_value (v : string) : bool :=
  negb (contains LF v) && negb (contains CR v)
  && String.eqb (lstrip v) v && String.eqb (rstrip v) v.

(** The arguments [(section, key, value)] of an [add_key] call that the
    file carries over. *)
Definition safe_op (op : string * string * pyvalue) : bool :=
  safe_section (fst (fst op)) && safe_key (snd (fst op))
  && safe_value (str (snd op)).

(** A sequence of [add_key(section, key, value)] calls, in order. *)
Definition add_keys (s : self) (ops : list (string * string * pyvalue)) : self :=
  fold_left
    (fun s op => snd (add_key s (fst (fst op)) (snd (fst op)) (snd op)))
    ops s.

(** The line that [write] produces for a section header. *)
Definition header_line (name : string) : string :=
  "[" ++ name ++ "]" ++ configparser.nl.

(** The line that [write] produces for an option without line feed in
    its value. *)
Definition option_line (k v : string) : string :=
  k ++ " = " ++ v ++ configparser.nl.

(** What is left of [" " ++ v] once the line is stripped. *)
Definition sep_value (v : string) : string :=
  match v with
  | "" => ""
  | String _ _ => String " " v
  end.

(** The dictionary of a section while its lines are being read: every
    value is the list of its one line. *)
Definition enc (items : Dict.t string) : Dict.t (list string) :=
  map (fun kv => (fst kv, [snd kv])) items.

(** The blank line that ends a section is appended to the value of its
    last option. *)
Fixpoint mark_last (d : Dict.t (list string)) : Dict.t (list string) :=
  match d with
  | [] => []
  | [(k, l)] => [(k, (l ++ [""])%list)]
  | x :: d' => x :: mark_last d'
  end.

(** A section once the blank line after it has been read. *)
Definition enc_done (sec : string * Dict.t string)
    : string * Dict.t (list string) :=
  (fst sec, mark_last (enc (snd sec))).

(** The elements added for one section, oldest first. *)
Definition chron1 (sec : string * Dict.t string) : list configparser.element :=
  configparser.ElemSection (fst sec)
  :: map (fun kv => configparser.ElemOption (Some (fst sec)) (fst kv)) (snd sec).

(** The elements added for the sections [done], oldest first. *)
Definition chron (done : Dict.t (Dict.t string)) : list configparser.element :=
  flat_map chron1 done.

(** The last element of a list, if any. *)
Fixpoint lastopt {A : Type} (l : list A) : option A :=
  match l with
  | [] => None
  | [x] => Some x
  | _ :: l' => lastopt l'
  end.

(** The key of the last option, if any: [optname] at the end of a
    section. *)
Definition last_key (items : Dict.t string) : option string :=
  option_map fst (lastopt items).

(** After the header of section [name] and the lines of its options
    [pre], the sections [done] having been read before. *)
Definition state_in (done : Dict.t (Dict.t string)) (name : string)
    (pre : Dict.t string) : configparser.reader :=
  configparser.mkReader
    (map enc_done done ++ [(name, enc pre)])%list []
    (rev (chron done ++ chron1 (name, pre))%list)
    (Some (configparser.CurSection name)) (Some name) (last_key pre) 0 false.

(** After the blank line that ends the last section of [done]. *)
Definition state_after (done : Dict.t (Dict.t string)) : configparser.reader :=
  configparser.mkReader
    (map enc_done done) [] (rev (chron done))
    (option_map (fun sec => configparser.CurSection (fst sec)) (lastopt done))
    (option_map fst (lastopt done))
    (match lastopt done with
     | Some sec => last_key (snd sec)
     | None => None
     end)
    0 false.

(** An option as [add_key] stores it from safe arguments: the key is
    safe and in lower case, the value is safe. *)
Definition wf_item (kv : string * string) : Prop :=
  safe_key (fst kv) = true /\ lower (fst kv) = fst kv
  /\ safe_value (snd kv) = true.

(** The dictionary of a section: a key occurs once. *)
Definition wf_items (items : Dict.t string) : Prop :=
  NoDup (Dict.keys items) /\ Forall wf_item items.

(** A section with a safe name. *)
Definition wf_section (sec : string * Dict.t string) : Prop :=
  safe_section (fst sec) = true /\ wf_items (snd sec).

(** The dictionary of the sections: a name occurs once. *)
Definition wf_sections (secs : Dict.t (Dict.t string)) : Prop :=
  NoDup (Dict.keys secs) /\ Forall wf_section secs.

(** A store that [write] and [_read] carry over: no defaults, and
    sections as above. *)
Definition wf_store (cfg : configparser.ConfigParser) : Prop :=
  configparser._defaults cfg = [] /\ wf_sections (configparser._sections cfg).

(** The lines that [write] produces for one section. *)
Definition block (sec : string * Dict.t string) : list string :=
  header_line (fst sec)
  :: (map (fun kv => option_line (fst kv) (snd kv)) (snd sec)
      ++ [configparser.nl])%list.

(** A line of text that ends in its line feed and holds no other line
    feed and no carriage return. *)
Definition plain_line (l : string) : Prop :=
  exists body, l = body ++ configparser.nl
               /\ contains LF body = false /\ contains CR body = false.

(** While [_read] runs, no section is named [''] and [cursect] does not
    refer to such a section: a header has at least one character
    between its brackets. *)
Definition named (rs : configparser.reader) : Prop :=
  forallb (fun sec : string * Dict.t (list string) =>
             negb (String.eqb (fst sec) ""))
          (configparser.r_sections rs) = true
  /\ configparser.cursect rs <> Some (configparser.CurSection "").

(** ** The stores that the class can produce *)

(** A call of one of the three methods that change the store. *)
Inductive call : Type :=
| AddKey (section key : string) (value : pyvalue)
| RemoveKey (section key : string)
| RemoveSection (section : string).

(** The object after a call; an exception of [add_key] is caught by the
    caller and the object is as the call left it. *)
Definition run (s : self) (c : call) : self :=
  match c with
  | AddKey section key value => snd (add_key s section key value)
  | RemoveKey section key => snd (remove_key s section key)
  | RemoveSection section => snd (remove_section s section)
  end.

(** A sequence of calls, in order. *)
Definition run_all (s : self) (cs : list call) : self := fold_left run cs s.

(** The arguments of an [add_key] call must be carried over by the file;
    those of a removal are free. *)
Definition safe_call (c : call) : bool :=
  match c with
  | AddKey section key value => safe_op (section, key, value)
  | RemoveKey _ _ => true
  | RemoveSection _ => true
  end.

(** The objects obtained from the constructor by calls of the methods.
    ([save_config], [get_key] and [get_section] do not change the
    object.) *)
Inductive reachable : self -> Prop :=
| reach_init (fs : os.FileSystem) (path : string) :
    reachable (__init__ fs path)
| reach_call (s : self) (c : call) :
    reachable s -> reachable (run s c).

(** A dictionary of options as Python holds it and as the parser fills
    it: a key occurs once, and it is in lower case. *)
Definition dict_ok {V : Type} (d : Dict.t V) : Prop :=
  NoDup (Dict.keys d) /\ Forall (fun k => lower k = k) (Dict.keys d).

(** The dictionary of the sections: a name occurs once, no section is
    named [DEFAULT], and every section is a dictionary of options. *)
Definition secs_ok {V : Type} (secs : Dict.t (Dict.t V)) : Prop :=
  NoDup (Dict.keys secs) /\ ~ In "DEFAULT" (Dict.keys secs)
  /\ Forall (fun sec => dict_ok (snd sec)) secs.

Definition store_ok (cfg : configparser.ConfigParser) : Prop :=
  secs_ok (configparser._sections cfg) /\ dict_ok (configparser._defaults cfg).

(** The same while [_read] runs; [cursect] does not refer to a section
    named [DEFAULT]. *)
Definition reader_ok (rs : configparser.reader) : Prop :=
  secs_ok (configparser.r_sections rs) /\ dict_ok (configparser.r_defaults rs)
  /\ configparser.cursect rs <> Some (configparser.CurSection "DEFAULT").

(** [line] is a full-line comment. *)
Definition is_comment (line : string) : bool :=
  startswith "#" (strip line) || startswith ";" (strip line).

(** ** Files and sessions *)

(** The lines of a text file as [read] iterates over them. *)
Definition lines_of (text : string) : list string :=
  os.readlines_from "" (os.universal_newlines text).

(** A text after which a new line starts: it is empty or ends in a line
    feed. *)
Definition ends_line (text : string) : Prop :=
  text = "" \/ exists b, text = b ++ configparser.nl.

(** A session of a program that uses the class: construct the object
    from [path], make the calls, save.  The file system afterwards. *)
Definition session (path : string) (fs : os.FileSystem) (cs : list call)
    : os.FileSystem :=
  snd (save_config fs (run_all (__init__ fs path) cs)).

(** Sessions one after the other. *)
Definition sessions (path : string) (fs : os.FileSystem)
    (css : list (list call)) : os.FileSystem :=
  fold_left (session path) css fs.

(** The file at [path] can be written, and it is absent or holds what
    [write] produced for a store that the file carries over. *)
Definition file_ok (path : string) (fs : os.FileSystem) : Prop :=
  existsb (String.eqb path) (os.denied fs) = false
  /\ (Dict.get path (os.files fs) = None
      \/ exists cfg, wf_store cfg
                     /\ Dict.get path (os.files fs)
                        = Some (configparser.write cfg)).

(** While [_read] runs: the header of section [name] has been read. *)
Definition section_seen (name : string) (rs : configparser.reader) : Prop :=
  Dict.mem name (configparser.r_sections rs) = true
  /\ existsb (configparser.element_eqb (configparser.ElemSection name))
             (configparser.elements_added rs) = true.

(** * Properties *)

(** ** Strings without a percent sign *)

Section NoPercent.

Lemma contains_false_find (c : ascii) (s : string) :
  contains c s = false -> find c s = None.
Proof.
  induction s as [|c' r IH]; simpl; [reflexivity|].
  intros H. apply orb_false_iff in H as [Hc Hr].
  rewrite Hc, (IH Hr). reflexivity.
Qed.

Lemma prefix_head_neq (c c' : ascii) (p r : string) :
  Ascii.eqb c' c = false -> String.prefix (String c p) (String c' r) = false.
Proof.
  intros H. simpl. destruct (ascii_dec c c') as [->|]; [|reflexivity].
  rewrite Ascii.eqb_refl in H. discriminate.
Qed.

Lemma replace_absent (c : ascii) (p new s : string) :
  contains c s = false -> replace (String c p) new s = s.
Proof.
  unfold replace. induction s as [|c' r IH]; [reflexivity|].
  intros H. simpl in H. apply orb_false_iff in H as [Hc Hr].
  cbn [replace_from]. rewrite (prefix_head_neq _ _ _ _ Hc), (IH Hr).
  reflexivity.
Qed.

Lemma KEYCRE_match_head (c : ascii) (r : string) :
  Ascii.eqb c "%" = false -> configparser.KEYCRE_match (String c r) = None.
Proof.
  destruct c as [[] [] [] [] [] [] [] []]; intros H;
    try reflexivity; discriminate H.
Qed.

Lemma KEYCRE_sub_absent (s : string) :
  contains "%" s = false -> configparser.KEYCRE_sub s = s.
Proof.
  unfold configparser.KEYCRE_sub. induction s as [|c r IH]; [reflexivity|].
  intros H. simpl in H. apply orb_false_iff in H as [Hc Hr].
  cbn [configparser.KEYCRE_sub_from].
  rewrite (KEYCRE_match_head _ _ Hc), (IH Hr). reflexivity.
Qed.

(** A value without [%] passes [before_set]. *)
Lemma before_set_plain (v : string) :
  contains "%" v = false -> configparser.before_set v = Ret v.
Proof.
  intros H. unfold configparser.before_set.
  rewrite (replace_absent _ _ _ _ H), (KEYCRE_sub_absent _ H), H.
  reflexivity.
Qed.

(** A value without [%] is its own interpolation. *)
Lemma before_get_plain (v : string) (m : string -> option string) :
  contains "%" v = false -> configparser.before_get v m = Ret v.
Proof.
  intros H. unfold configparser.before_get. simpl.
  destruct v as [|c r]; [reflexivity|].
  cbn [String.length configparser.interpolate_loop].
  rewrite (contains_false_find _ _ H). reflexivity.
Qed.

End NoPercent.

(** ** Dictionaries *)

Section DictFacts.
Context {V : Type}.
Implicit Types (d : Dict.t V) (k : string) (v : V).

Lemma get_set_same k v d : Dict.get k (Dict.set k v d) = Some v.
Proof.
  induction d as [|[k' v'] d IH]; simpl.
  - rewrite String.eqb_refl. reflexivity.
  - destruct (String.eqb k k') eqn:E; simpl; rewrite E; [reflexivity|exact IH].
Qed.

Lemma get_set_other k k' v d :
  k' <> k -> Dict.get k' (Dict.set k v d) = Dict.get k' d.
Proof.
  intros Hne. induction d as [|[k0 v0] d IH]; simpl.
  - destruct (String.eqb_spec k' k); [contradiction|reflexivity].
  - destruct (String.eqb_spec k k0) as [->|]; simpl.
    + destruct (String.eqb_spec k' k0); [contradiction|reflexivity].
    + rewrite IH. reflexivity.
Qed.

Lemma mem_set_same k v d : Dict.mem k (Dict.set k v d) = true.
Proof. unfold Dict.mem. rewrite get_set_same. reflexivity. Qed.

Lemma mem_false_get k d : Dict.mem k d = false -> Dict.get k d = None.
Proof. unfold Dict.mem. destruct (Dict.get k d); [discriminate|reflexivity]. Qed.

Lemma mem_true_get k d : Dict.mem k d = true -> exists v, Dict.get k d = Some v.
Proof. unfold Dict.mem. destruct (Dict.get k d) as [v|]; [eauto|discriminate]. Qed.

End DictFacts.

(** ** What [add_key] does to the parser *)

Section AddKey.

Lemma has_section_add_section cfg section cfg' :
  configparser.add_section cfg section = Ret cfg' ->
  configparser._sections cfg' = Dict.set section [] (configparser._sections cfg)
  /\ configparser._defaults cfg' = configparser._defaults cfg.
Proof.
  unfold configparser.add_section.
  destruct (String.eqb section configparser.default_section); [discriminate|].
  destruct (Dict.mem section (configparser._sections cfg)); [discriminate|].
  intros [= <-]. split; reflexivity.
Qed.

Lemma accepted_plain (v : string) : contains "%" v = false -> accepted v = true.
Proof.
  intros H. unfold accepted.
  rewrite (replace_absent _ _ _ _ H), (KEYCRE_sub_absent _ H), H.
  apply orb_true_r.
Qed.

(** On a section other than [DEFAULT] and the empty name, [add_key]
    first makes sure that the section exists; then it stores the value
    under the lower-cased key in the section's own dictionary, or raises
    [ValueError] when [set] does not accept the value. *)
Lemma add_key_cases (s : self) (section key : string) (value : pyvalue) :
  section <> "DEFAULT" -> section <> "" ->
  exists sectdict sections,
    add_key s section key value
    = (if accepted (str value)
       then (Ret tt,
             mkSelf (config_file_path s)
               (configparser.mkConfigParser
                  (Dict.set section
                     (Dict.set (lower key) (str value) sectdict) sections)
                  (configparser._defaults (config s))))
       else (Raise ValueError,
             mkSelf (config_file_path s)
               (configparser.mkConfigParser sections
                  (configparser._defaults (config s)))))
    /\ Dict.get section sections = Some sectdict
    /\ (Dict.get section (configparser._sections (config s)) = Some sectdict
        /\ sections = configparser._sections (config s)
        \/ configparser.has_section (config s) section = false
           /\ sectdict = []
           /\ sections = Dict.set section [] (configparser._sections (config s))).
Proof.
  intros Hd He. unfold add_key, configparser.has_section.
  assert (Hset : forall cfg sd,
             Dict.get section (configparser._sections cfg) = Some sd ->
             configparser.set cfg section key (str value)
             = if accepted (str value)
               then Ret (configparser.mkConfigParser
                           (Dict.set section
                              (Dict.set (lower key) (str value) sd)
                              (configparser._sections cfg))
                           (configparser._defaults cfg))
               else Raise ValueError).
  { intros cfg sd Hsd. unfold configparser.set, accepted,
      configparser.before_set.
    destruct (String.eqb (str value) ""); cbn [orb];
      [|destruct (contains "%" _); cbn [negb]; [reflexivity|]];
      (destruct (String.eqb_spec section ""); [contradiction|];
       unfold configparser.default_section;
       destruct (String.eqb_spec section "DEFAULT"); [contradiction|];
       simpl; rewrite Hsd; reflexivity). }
  destruct (Dict.mem section (configparser._sections (config s))) eqn:Hm.
  - destruct (mem_true_get _ _ Hm) as [sd Hsd]. simpl.
    rewrite (Hset _ _ Hsd). exists sd, (configparser._sections (config s)).
    split; [|split; [exact Hsd|left; split; [exact Hsd|reflexivity]]].
    destruct (accepted (str value)); destruct s as [p [secs defs]]; reflexivity.
  - simpl. unfold configparser.add_section, configparser.default_section.
    destruct (String.eqb_spec section "DEFAULT"); [contradiction|].
    rewrite Hm.
    rewrite (Hset (configparser.mkConfigParser
                     (Dict.set section [] (configparser._sections (config s)))
                     (configparser._defaults (config s)))
                  [] (get_set_same _ _ _)). simpl.
    exists [], (Dict.set section [] (configparser._sections (config s))).
    split; [|split; [apply get_set_same|right; repeat split; reflexivity]].
    destruct (accepted (str value)); reflexivity.
Qed.

(** With a value without [%], [add_key] returns. *)
Lemma add_key_plain (s : self) (section key : string) (value : pyvalue) :
  section <> "DEFAULT" -> section <> "" ->
  contains "%" (str value) = false ->
  exists sectdict sections,
    add_key s section key value
    = (Ret tt,
       mkSelf (config_file_path s)
         (configparser.mkConfigParser
            (Dict.set section (Dict.set (lower key) (str value) sectdict)
                      sections)
            (configparser._defaults (config s))))
    /\ Dict.get section sections = Some sectdict
    /\ (Dict.get section (configparser._sections (config s)) = Some sectdict
        /\ sections = configparser._sections (config s)
        \/ configparser.has_section (config s) section = false
           /\ sectdict = []
           /\ sections = Dict.set section [] (configparser._sections (config s))).
Proof.
  intros Hd He Hv.
  destruct (add_key_cases s section key value Hd He) as (sd & secs & E & H).
  rewrite (accepted_plain _ Hv) in E. exists sd, secs. split; assumption.
Qed.

Lemma get_key_after_add_key (s : self) (section key : string)
    (value default : pyvalue) :
  section <> "DEFAULT" -> section <> "" ->
  contains "%" (str value) = false ->
  get_key (snd (add_key s section key value)) section key default
  = PStr (str value).
Proof.
  intros Hd He Hv.
  destruct (add_key_plain s section key value Hd He Hv)
    as (sd & secs & -> & Hsd & _).
  unfold get_key, configparser.get, configparser._unify_values. simpl.
  rewrite get_set_same. unfold configparser.ChainMap at 1.
  unfold configparser.optionxform. rewrite get_set_same.
  rewrite (before_get_plain _ _ Hv). reflexivity.
Qed.

End AddKey.

(** ** C10: the reserved section name *)

(** C10.  On a store without an ordinary section named [DEFAULT],
    [has_section('DEFAULT')] is false, [add_section('DEFAULT')] raises
    [ValueError], and so [add_key('DEFAULT', key, value)] raises
    [ValueError] and leaves the store as it was: the section is not
    created. *)
Theorem add_key_DEFAULT_raises (s : self) (key : string) (value : pyvalue) :
  configparser.has_section (config s) "DEFAULT" = false ->
  configparser.add_section (config s) "DEFAULT" = Raise ValueError
  /\ add_key s "DEFAULT" key value = (Raise ValueError, s)
  /\ configparser.has_section
       (config (snd (add_key s "DEFAULT" key value))) "DEFAULT" = false.
Proof.
  intros H. unfold add_key. rewrite H. simpl.
  repeat split; try reflexivity. exact H.
Qed.

(** C10 on the empty store. *)
Lemma add_key_DEFAULT_raises_witness :
  add_key (__init__ (os.mkFileSystem [] []) "config.ini") "DEFAULT" "host"
          (PStr "localhost")
  = (Raise ValueError, __init__ (os.mkFileSystem [] []) "config.ini").
Proof.
  apply (add_key_DEFAULT_raises
           (__init__ (os.mkFileSystem [] []) "config.ini") "host"
           (PStr "localhost")).
  reflexivity.
Defined.

(** ** C5: reading back what was just set *)


Lemma forallb_set {V : Type} (p : string * V -> bool) k v (d : Dict.t V) :
  forallb p d = true -> p (k, v) = true -> forallb p (Dict.set k v d) = true.
Proof.
  intros Hd Hkv. induction d as [|[k0 v0] d IH]; simpl in *.
  - rewrite Hkv. reflexivity.
  - apply andb_true_iff in Hd as [H0 Hd].
    destruct (String.eqb_spec k k0) as [->|]; simpl.
    + rewrite Hkv, Hd. reflexivity.
    + rewrite H0, (IH Hd). reflexivity.
Qed.

Lemma forallb_del {V : Type} (p : string * V -> bool) k (d : Dict.t V) :
  forallb p d = true -> forallb p (Dict.del k d) = true.
Proof.
  induction d as [|[k0 v0] d IH]; simpl; [trivial|].
  intros H. apply andb_true_iff in H as [H0 Hd].
  destruct (String.eqb k k0); simpl; [exact Hd|].
  rewrite H0, (IH Hd). reflexivity.
Qed.

Lemma forallb_get {V : Type} (p : string * V -> bool) k v (d : Dict.t V) :
  forallb p d = true -> Dict.get k d = Some v -> p (k, v) = true.
Proof.
  induction d as [|[k0 v0] d IH]; simpl; [discriminate|].
  intros H. apply andb_true_iff in H as [H0 Hd].
  destruct (String.eqb_spec k k0) as [->|]; [|apply IH, Hd].
  intros [= <-]. exact H0.
Qed.

Lemma empty_name_ok_add_section cfg section cfg' :
  empty_name_ok cfg = true ->
  configparser.add_section cfg section = Ret cfg' ->
  empty_name_ok cfg' = true.
Proof.
  unfold configparser.add_section, empty_name_ok. intros H.
  destruct (String.eqb section configparser.default_section); [discriminate|].
  destruct (Dict.mem section (configparser._sections cfg)); [discriminate|].
  intros [= <-]. simpl. apply forallb_set; [exact H|apply orb_true_r].
Qed.

Lemma empty_name_ok_set cfg section option value cfg' :
  empty_name_ok cfg = true ->
  configparser.set cfg section option value = Ret cfg' ->
  empty_name_ok cfg' = true.
Proof.
  unfold configparser.set, empty_name_ok. intros H.
  destruct (if String.eqb value "" then Ret value
            else configparser.before_set value); [|discriminate].
  destruct (String.eqb_spec section "") as [->|Hne]; simpl.
  - intros [= <-]. exact H.
  - destruct (String.eqb section configparser.default_section).
    + intros [= <-]. exact H.
    + destruct (Dict.get section (configparser._sections cfg));
        [|discriminate].
      intros [= <-]. simpl. apply forallb_set; [exact H|].
      simpl. destruct (String.eqb_spec section ""); [contradiction|reflexivity].
Qed.

Lemma empty_name_ok_add_key (s : self) section key value :
  empty_name_ok (config s) = true ->
  empty_name_ok (config (snd (add_key s section key value))) = true.
Proof.
  intros H. unfold add_key.
  destruct (if negb (configparser.has_section (config s) section)
            then configparser.add_section (config s) section
            else Ret (config s)) as [cfg|x] eqn:E; [|exact H].
  assert (Hcfg : empty_name_ok cfg = true).
  { destruct (negb (configparser.has_section (config s) section)).
    - apply (empty_name_ok_add_section _ _ _ H E).
    - injection E as <-. exact H. }
  destruct (configparser.set cfg section key (str value)) as [cfg'|x] eqn:E';
    [|exact Hcfg].
  apply (empty_name_ok_set _ _ _ _ _ Hcfg E').
Qed.

Lemma empty_name_ok_remove_key (s : self) section key :
  empty_name_ok (config s) = true ->
  empty_name_ok (config (snd (remove_key s section key))) = true.
Proof.
  intros H. unfold remove_key, configparser.remove_option.
  destruct (configparser.has_option (config s) section key); [|exact H].
  destruct (String.eqb_spec section "") as [->|Hne]; simpl.
  - destruct (Dict.mem _ _); exact H.
  - destruct (String.eqb section configparser.default_section); simpl.
    + destruct (Dict.mem _ _); exact H.
    + destruct (Dict.get section _) as [sd|]; [|exact H]. simpl.
      destruct (Dict.mem _ sd); [|exact H].
      unfold empty_name_ok. simpl. apply forallb_set; [exact H|].
      simpl. destruct (String.eqb_spec section ""); [contradiction|reflexivity].
Qed.

Lemma empty_name_ok_remove_section (s : self) section :
  empty_name_ok (config s) = true ->
  empty_name_ok (config (snd (remove_section s section))) = true.
Proof.
  intros H. unfold remove_section, configparser.remove_section,
              configparser.has_section.
  destruct (Dict.mem section _); [|exact H]. simpl.
  unfold empty_name_ok. simpl. apply forallb_del, H.
Qed.

(** *** No file yields a section named [''] *)

Lemma SECTCRE_match_nonempty value name :
  configparser.SECTCRE_match value = Some name -> name <> "".
Proof.
  unfold configparser.SECTCRE_match.
  destruct value as [|c r]; [discriminate|].
  destruct c as [[] [] [] [] [] [] [] []]; try discriminate.
  destruct (rfind "]" r) as [[|i]|] eqn:E; try discriminate.
  destruct r as [|c r]; [discriminate E|]. intros [= <-]. discriminate.
Qed.

Lemma named_with_cursect_dict rs c d :
  named rs -> configparser.cursect rs = Some c ->
  named (configparser.with_cursect_dict rs c d).
Proof.
  intros [Hn Hc] E. destruct c as [|name]; split; simpl; try assumption.
  apply forallb_set; [exact Hn|]. simpl.
  destruct (String.eqb_spec name "") as [->|]; [|reflexivity].
  contradiction.
Qed.

Lemma named_cursect_append rs c o v :
  named rs -> configparser.cursect rs = Some c ->
  named (configparser.cursect_append rs c o v).
Proof.
  intros H E. unfold configparser.cursect_append.
  destruct (Dict.get o _); [apply named_with_cursect_dict|]; assumption.
Qed.

Lemma read_entry_named rs value indent rs' :
  named rs -> configparser.read_entry rs value indent = Ret rs' -> named rs'.
Proof.
  intros [Hn Hc]. unfold configparser.read_entry.
  destruct (configparser.SECTCRE_match value) as [name|] eqn:Es.
  - apply SECTCRE_match_nonempty in Es.
    assert (Hcur : Some (configparser.CurSection name)
                   <> Some (configparser.CurSection ""))
      by (intros [= ->]; contradiction).
    destruct (Dict.mem name _).
    + destruct (existsb _ _); [discriminate|].
      intros [= <-]. split; assumption.
    + destruct (String.eqb name configparser.default_section);
        intros [= <-]; split; simpl; try assumption; try discriminate.
      apply forallb_set; [exact Hn|]. simpl.
      destruct (String.eqb_spec name ""); [contradiction|reflexivity].
  - destruct (configparser.cursect rs) as [c|] eqn:E; [|discriminate].
    destruct (configparser.OPTCRE_match _) as [[[o vi] optval]|].
    + cbv zeta. destruct (existsb _ _); [discriminate|].
      intros [= <-]. apply named_with_cursect_dict; [|reflexivity].
      split; simpl; [exact Hn|exact Hc].
    + intros [= <-]. split; simpl; [exact Hn|exact Hc].
Qed.

Lemma read_line_named rs line rs' :
  named rs -> configparser.read_line rs line = Ret rs' -> named rs'.
Proof.
  intros H. unfold configparser.read_line.
  destruct (_ || _); [intros [= <-]; exact H|].
  destruct (String.eqb (strip line) "").
  { destruct (configparser.cursect rs) as [c|] eqn:E;
      [destruct (configparser.truthy _)|]; intros [= <-]; try exact H.
    apply named_cursect_append; assumption. }
  destruct (configparser.cursect rs) as [c|] eqn:E;
    [destruct (configparser.truthy _); [destruct (_ <? _)%nat|]|];
    try apply (read_entry_named _ _ _ _ H).
  intros [= <-]. apply named_cursect_append; assumption.
Qed.

Lemma read_lines_named fp :
  forall rs rs', named rs -> configparser.read_lines rs fp = Ret rs' -> named rs'.
Proof.
  induction fp as [|line fp IH]; intros rs rs' H; simpl.
  - intros [= <-]. exact H.
  - destruct (configparser.read_line rs line) as [rs1|x] eqn:E; [|discriminate].
    apply IH. apply (read_line_named _ _ _ H E).
Qed.

Lemma _read_no_empty_name fp cfg :
  configparser._read fp = Ret cfg -> empty_name_ok cfg = true.
Proof.
  unfold configparser._read.
  assert (H0 : named (configparser.mkReader [] [] [] None None None 0 false))
    by (split; [reflexivity|discriminate]).
  destruct (configparser.read_lines _ fp) as [rs|x] eqn:E; [|discriminate].
  destruct (configparser.e rs); [discriminate|]. intros [= <-].
  destruct (read_lines_named _ _ _ H0 E) as [Hn _].
  unfold empty_name_ok. cbn [configparser._sections].
  induction (configparser.r_sections rs) as [|[name d] secs IH];
    [reflexivity|].
  cbn [map forallb fst snd] in *. apply andb_true_iff in Hn as [Hname Hn].
  rewrite Hname, (IH Hn). reflexivity.
Qed.

(** The store of a new [ConfigManager] holds no key under a section
    named [''], whatever the file. *)
Lemma empty_name_ok_init fs path :
  empty_name_ok (config (__init__ fs path)) = true.
Proof.
  unfold __init__, _load_config, configparser.read. simpl.
  destruct (os.open_r fs path) as [fp|x]; [|reflexivity].
  destruct (configparser._read fp) as [cfg|x] eqn:E; [|reflexivity].
  apply (_read_no_empty_name _ _ E).
Qed.

(** [add_key('', key, value)]: the section [''] is created if need be
    and the value is stored among the defaults, where [get] finds it. *)
Lemma add_key_empty_name (s : self) (key : string) (value default : pyvalue) :
  empty_name_ok (config s) = true ->
  contains "%" (str value) = false ->
  fst (add_key s "" key value) = Ret tt
  /\ configparser.has_section (config (snd (add_key s "" key value))) "" = true
  /\ get_key (snd (add_key s "" key value)) "" key default = PStr (str value).
Proof.
  intros Hok Hv. unfold add_key, configparser.has_section.
  assert (Hset : forall cfg,
             configparser.set cfg "" key (str value)
             = Ret (configparser.mkConfigParser (configparser._sections cfg)
                      (Dict.set (lower key) (str value)
                                (configparser._defaults cfg)))).
  { intros cfg. unfold configparser.set.
    replace (if String.eqb (str value) "" then Ret (str value)
             else configparser.before_set (str value))
      with (Ret (A:=string) (str value))
      by (destruct (String.eqb (str value) ""); [reflexivity|];
          symmetry; apply before_set_plain; exact Hv).
    reflexivity. }
  assert (Hget : forall (secs : Dict.t (Dict.t string)) (sd : Dict.t string),
             Dict.get "" secs = Some sd -> sd = [] ->
             get_key (mkSelf (config_file_path s)
                        (configparser.mkConfigParser secs
                           (Dict.set (lower key) (str value)
                                     (configparser._defaults (config s)))))
                     "" key default = PStr (str value)).
  { intros secs sd Hsd ->.
    unfold get_key, configparser.get, configparser._unify_values.
    cbn [config configparser._sections configparser._defaults].
    rewrite Hsd. unfold configparser.ChainMap at 1.
    unfold configparser.optionxform. cbn [Dict.get].
    rewrite get_set_same, (before_get_plain _ _ Hv). reflexivity. }
  destruct (Dict.mem "" (configparser._sections (config s))) eqn:Hm; simpl.
  - rewrite Hset. simpl. split; [reflexivity|]. split; [exact Hm|].
    destruct (mem_true_get _ _ Hm) as [sd Hsd].
    apply (Hget _ sd Hsd).
    pose proof (forallb_get _ _ _ _ Hok Hsd) as Hp. simpl in Hp.
    destruct sd; [reflexivity|discriminate].
  - unfold configparser.add_section. simpl. rewrite Hm, Hset. simpl.
    split; [reflexivity|]. split; [apply mem_set_same|].
    apply (Hget _ [] (get_set_same _ _ _) eq_refl).
Qed.



(** ** C4: letter case in section names and keys *)

(** C4, as stated, fails: after [add_key('S', 'Key', 'v')] the lookup
    [get_key('S', 'key', None)] returns ['v'], not the default. *)
Lemma key_case_counterexample :
  get_key (snd (add_key (__init__ (os.mkFileSystem [] []) "config.ini")
                        "S" "Key" (PStr "v")))
          "S" "key" PNone = PStr "v"
  /\ PStr "v" <> PNone.
Proof. split; [reflexivity | discriminate]. Qed.

(** C4, amended.  Section names are case-sensitive, key names are not:
    every access lower-cases the key, so [get_key] sees a key only
    through its lower-case form.  After [add_key('S', 'Key', 'v')], on
    every store, [get_key('S', 'key', default)] returns ['v'], and
    [get_key('s', 'Key', default)] returns the default when the store has
    no section named ['s']. *)
Theorem keys_fold_case_sections_do_not (s : self) (default : pyvalue) :
  (forall section key key',
      lower key' = lower key ->
      get_key s section key' default = get_key s section key default)
  /\ get_key (snd (add_key s "S" "Key" (PStr "v"))) "S" "key" default = PStr "v"
  /\ (configparser.has_section (config s) "s" = false ->
      get_key (snd (add_key s "S" "Key" (PStr "v"))) "s" "Key" default
      = default).
Proof.
  split; [|split].
  - intros section key key' H.
    unfold get_key, configparser.get, configparser.optionxform.
    rewrite H. reflexivity.
  - apply (get_key_after_add_key s "S" "Key" (PStr "v") default);
      [discriminate | discriminate | reflexivity].
  - intros Hs.
    destruct (add_key_plain s "S" "Key" (PStr "v")) as (sd & secs & -> & _ & Hc);
      [discriminate | discriminate | reflexivity |].
    unfold get_key, configparser.get, configparser._unify_values. simpl.
    rewrite get_set_other by discriminate.
    assert (Hn : Dict.get "s" secs = None).
    { apply mem_false_get in Hs.
      destruct Hc as [[_ ->] | (_ & _ & ->)]; [exact Hs|].
      rewrite get_set_other by discriminate. exact Hs. }
    rewrite Hn. reflexivity.
Qed.

(** C4, amended: the section name in another case finds nothing. *)
Lemma keys_fold_case_sections_do_not_witness :
  get_key (snd (add_key (__init__ (os.mkFileSystem [] []) "config.ini")
                        "S" "Key" (PStr "v")))
          "s" "Key" (PStr "fallback")
  = PStr "fallback".
Proof.
  apply (keys_fold_case_sections_do_not
           (__init__ (os.mkFileSystem [] []) "config.ini") (PStr "fallback")).
  reflexivity.
Defined.

(** ** C9: [get_key] always returns *)

(** C9, as stated, fails: the stored string is [100%%], and [get_key]
    returns neither it nor the default. *)
Lemma get_key_interpolates_counterexample :
  let s := snd (add_key (__init__ (os.mkFileSystem [] []) "config.ini")
                        "S" "k" (PStr "100%%")) in
  configparser._sections (config s) = [("S", [("k", "100%%")])]
  /\ get_key s "S" "k" PNone = PStr "100%"
  /\ PStr "100%" <> PNone
  /\ PStr "100%" <> PStr "100%%".
Proof. repeat split; discriminate. Qed.

(** C9, amended.  [get_key] returns for every store and all arguments,
    and what it returns is the default or the value found under the
    lower-cased key (in the section, else among the defaults) with its
    [%] interpolation expanded, which is the stored string itself when
    that holds no [%].  Every exception of the lookup, whatever its
    class, ends in the default. *)
Theorem get_key_total (s : self) (section key : string) (default : pyvalue) :
  (exists x, configparser.get (config s) section key = Raise x
             /\ get_key s section key default = default)
  \/ (exists d raw v,
         configparser._unify_values (config s) section = Ret d
         /\ d (lower key) = Some raw
         /\ configparser.before_get raw d = Ret v
         /\ get_key s section key default = PStr v
         /\ (contains "%" raw = false -> v = raw)).
Proof.
  unfold get_key, configparser.get, configparser.optionxform.
  destruct (configparser._unify_values (config s) section) as [d|x] eqn:Hu.
  - destruct (d (lower key)) as [raw|] eqn:Hr.
    + destruct (configparser.before_get raw d) as [v|x] eqn:Hb.
      * right. exists d, raw, v. repeat split; try assumption.
        intros Hp. rewrite (before_get_plain _ _ Hp) in Hb. congruence.
      * left. exists x. split; [reflexivity|]. destruct x; reflexivity.
    + left. exists NoOptionError. split; reflexivity.
  - left. exists x. split; [reflexivity|]. destruct x; reflexivity.
Qed.

(** C9, amended: a value without [%] is returned as it is stored. *)
Lemma get_key_total_witness :
  get_key (snd (add_key (__init__ (os.mkFileSystem [] []) "config.ini")
                        "S" "k" (PStr "v")))
          "S" "k" PNone = PStr "v".
Proof.
  destruct (get_key_total
              (snd (add_key (__init__ (os.mkFileSystem [] []) "config.ini")
                            "S" "k" (PStr "v")))
              "S" "k" PNone)
    as [(x & Hx & _) | (d & raw & v & Hd & Hr & _ & Hg & Hplain)].
  - discriminate Hx.
  - injection Hd as <-. injection Hr as <-.
    rewrite Hg, (Hplain eq_refl). reflexivity.
Defined.

(** ** C3: removing what is not there *)

(** C3, as stated, fails: [add_key('', 'k', 'v')] on the empty store
    stores [k] among the defaults; the store then has no section
    [DEFAULT], yet [remove_key('DEFAULT', 'k')] returns [True] and the
    contents of section [''] change. *)
Lemma remove_key_default_counterexample :
  let s := snd (add_key (__init__ (os.mkFileSystem [] []) "config.ini")
                        "" "k" (PStr "v")) in
  configparser.has_section (config s) "DEFAULT" = false
  /\ fst (remove_key s "DEFAULT" "k") = Ret true
  /\ get_section s "" = Ret [("k", "v")]
  /\ get_section (snd (remove_key s "DEFAULT" "k")) "" = Ret [].
Proof. repeat split. Qed.

(** C3, amended.  For every store and every pair (section, key) such
    that the section is neither [DEFAULT] nor the empty name and does not
    exist, or the lower-cased key is neither in the section's own
    dictionary nor among the defaults: [remove_key] returns [False]
    without raising and leaves the store, hence every section, as it
    was. *)
Theorem remove_key_missing (s : self) (section key : string) :
  (section <> "DEFAULT" /\ section <> ""
   /\ configparser.has_section (config s) section = false)
  \/ (Dict.mem (lower key) (configparser._defaults (config s)) = false
      /\ forall sectdict,
          Dict.get section (configparser._sections (config s)) = Some sectdict ->
          Dict.mem (lower key) sectdict = false) ->
  remove_key s section key = (Ret false, s).
Proof.
  intros H. unfold remove_key.
  replace (configparser.has_option (config s) section key) with false;
    [reflexivity|].
  symmetry. unfold configparser.has_option, configparser.optionxform,
              configparser.default_section, configparser.has_section in *.
  destruct H as [(Hd & He & Hs) | (Hdef & Hsec)].
  - destruct (String.eqb_spec section ""); [contradiction|].
    destruct (String.eqb_spec section "DEFAULT"); [contradiction|].
    simpl. rewrite Hs. reflexivity.
  - destruct (String.eqb section "" || String.eqb section "DEFAULT");
      [exact Hdef|].
    destruct (Dict.mem section (configparser._sections (config s)));
      [|reflexivity].
    simpl.
    destruct (Dict.get section (configparser._sections (config s)))
      as [sd|] eqn:Hsd; [|reflexivity].
    rewrite (Hsec sd eq_refl), Hdef. reflexivity.
Qed.

(** C3, amended, for a key that is missing and for a section that is
    missing. *)
Lemma remove_key_missing_witness :
  let s := snd (add_key (__init__ (os.mkFileSystem [] []) "config.ini")
                        "S" "k" (PStr "v")) in
  remove_key s "S" "missing" = (Ret false, s)
  /\ remove_key s "T" "k" = (Ret false, s).
Proof.
  split.
  - apply remove_key_missing. right. split; [reflexivity|].
    intros sd [= <-]. reflexivity.
  - apply remove_key_missing. left.
    split; [discriminate|]. split; [discriminate|reflexivity].
Defined.

(** ** C2: a save that fails *)




(** ** C6: no file *)

Lemma get_key_new path section key default :
  get_key (mkSelf path configparser.new) section key default = default.
Proof.
  unfold get_key, configparser.get, configparser._unify_values. simpl.
  destruct (negb (String.eqb section configparser.default_section));
    reflexivity.
Qed.

(** C6.  Constructing a [ConfigManager] on a path at which there is no
    file yields the empty store: [get_section] returns the empty mapping
    for every section name and [get_key] returns the default for all
    arguments. *)
Theorem missing_file_empty_store (fs : os.FileSystem) (path : string) :
  Dict.get path (os.files fs) = None ->
  config (__init__ fs path) = configparser.new
  /\ (forall section, get_section (__init__ fs path) section = Ret [])
  /\ (forall section key default,
         get_key (__init__ fs path) section key default = default).
Proof.
  intros H.
  assert (E : __init__ fs path = mkSelf path configparser.new).
  { unfold __init__, _load_config, configparser.read, os.open_r.
    rewrite H. reflexivity. }
  rewrite E. split; [reflexivity|]. split.
  - reflexivity.
  - intros. apply get_key_new.
Qed.

(** C6 at a file system that holds another file only. *)
Lemma missing_file_empty_store_witness :
  get_section (__init__ (os.mkFileSystem [("other.ini", "[S]")] []) "config.ini")
              "Database" = Ret []
  /\ get_key (__init__ (os.mkFileSystem [("other.ini", "[S]")] []) "config.ini")
             "Database" "host" (PStr "localhost") = PStr "localhost".
Proof.
  destruct (missing_file_empty_store
              (os.mkFileSystem [("other.ini", "[S]")] []) "config.ini"
              eq_refl) as (_ & Hs & Hk).
  split; [apply Hs | apply Hk].
Defined.

(** ** C7: a file that does not parse *)

(** C7.  When the file exists and [_read] raises on its lines (whatever
    the exception), the constructor still returns: the store is the empty
    one, [get_section] returns the empty mapping and [get_key] the
    default. *)
Theorem malformed_file_empty_store (fs : os.FileSystem) (path : string)
    (fp : list string) (x : exn) :
  os.open_r fs path = Ret fp ->
  configparser._read fp = Raise x ->
  config (__init__ fs path) = configparser.new
  /\ (forall section, get_section (__init__ fs path) section = Ret [])
  /\ (forall section key default,
         get_key (__init__ fs path) section key default = default).
Proof.
  intros Ho Hr.
  assert (E : __init__ fs path = mkSelf path configparser.new).
  { unfold __init__, _load_config, configparser.read.
    rewrite Ho, Hr. reflexivity. }
  rewrite E. split; [reflexivity|]. split.
  - reflexivity.
  - intros. apply get_key_new.
Qed.

(** C7 on a file whose first line is an option without section
    header. *)
Lemma malformed_file_empty_store_witness :
  config (__init__ (os.mkFileSystem [("config.ini", "host = localhost")] [])
                   "config.ini")
  = configparser.new.
Proof.
  apply (malformed_file_empty_store
           (os.mkFileSystem [("config.ini", "host = localhost")] [])
           "config.ini" ["host = localhost"] MissingSectionHeaderError);
    reflexivity.
Defined.

(** ** C8: updating a key in place *)

Section Similar.
Context {V : Type} (R : V -> V -> Prop).

Lemma dsim_keys d1 d2 : dsim R d1 d2 -> Dict.keys d1 = Dict.keys d2.
Proof.
  induction 1 as [|a b d1 d2 [Hk _] _ IH]; simpl; [reflexivity|].
  rewrite Hk, IH. reflexivity.
Qed.

Lemma dsim_set k v1 v2 d1 d2 :
  R v1 v2 -> dsim R d1 d2 -> dsim R (Dict.set k v1 d1) (Dict.set k v2 d2).
Proof.
  intros Hv. induction 1 as [|[ka va] [kb vb] d1 d2 [Hk Hr] Hd IH]; simpl.
  - constructor; [split; [reflexivity|exact Hv] | constructor].
  - simpl in Hk, Hr. subst kb. destruct (String.eqb k ka).
    + constructor; [split; [reflexivity|exact Hv] | exact Hd].
    + constructor; [split; [reflexivity|exact Hr] | exact IH].
Qed.

Lemma dsim_update a b o1 o2 :
  dsim R a b -> dsim R o1 o2 -> dsim R (Dict.update a o1) (Dict.update b o2).
Proof.
  intros Hab Ho. revert a b Hab. unfold Dict.update.
  induction Ho as [|x y o1 o2 [Hk Hr] _ IH]; intros a b Hab; simpl.
  - exact Hab.
  - apply IH. rewrite Hk. apply dsim_set; assumption.
Qed.

Lemma dsim_get d1 d2 k :
  dsim R d1 d2 ->
  match Dict.get k d1, Dict.get k d2 with
  | Some a, Some b => R a b
  | None, None => True
  | _, _ => False
  end.
Proof.
  induction 1 as [|[ka va] [kb vb] d1 d2 [Hk Hr] _ IH]; simpl; [exact I|].
  simpl in Hk, Hr. subst kb. destruct (String.eqb k ka); [exact Hr|exact IH].
Qed.

Lemma dsim_refl d : (forall x, R x x) -> dsim R d d.
Proof.
  intros Hrefl. induction d as [|a d IH]; constructor;
    [split; [reflexivity|apply Hrefl] | exact IH].
Qed.

Lemma dsim_set_present k v v' d :
  (forall x, R x x) -> Dict.get k d = Some v -> R v v' ->
  dsim R d (Dict.set k v' d).
Proof.
  intros Hrefl. induction d as [|[k0 v0] d IH]; simpl; [discriminate|].
  destruct (String.eqb k k0).
  - intros [= ->] Hr. constructor; [split; [reflexivity|exact Hr]|].
    apply dsim_refl, Hrefl.
  - intros Hg Hr. constructor; [split; [reflexivity|apply Hrefl]|].
    apply IH; assumption.
Qed.

End Similar.

Section InterpolationOutcome.
Variables m1 m2 : string -> option string.
Hypothesis Hm : mrel m1 m2.

Lemma interpolate_loop_outcome recur1 recur2 :
  (forall a1 a2 v, same_outcome (recur1 a1 v) (recur2 a2 v)) ->
  forall fuel a1 a2 rest,
    same_outcome (configparser.interpolate_loop recur1 m1 fuel a1 rest)
                 (configparser.interpolate_loop recur2 m2 fuel a2 rest).
Proof.
  intros Hrec. induction fuel as [|fuel IH]; intros a1 a2 rest;
    (destruct rest as [|c r]; [exact I|]); [exact I|].
  cbn [configparser.interpolate_loop].
  generalize (String c r) as rest. clear c r. intros rest.
  destruct (find "%" rest) as [p|]; [|exact I]. cbv zeta.
  destruct (String.eqb _ "%"); [apply IH|].
  destruct (String.eqb _ "("); [|reflexivity].
  destruct (configparser.KEYCRE_match _) as [[name e]|]; [|reflexivity].
  pose proof (Hm (configparser.optionxform name)) as Hx.
  destruct (m1 _) as [va|], (m2 _) as [vb|]; try contradiction; [|reflexivity].
  destruct Hx as [<- | [Ha Hb]].
  - destruct (contains "%" va); [|apply IH].
    generalize (Hrec (a1 ++ take p rest) (a2 ++ take p rest) va).
    destruct (recur1 _ va), (recur2 _ va); simpl; intros H;
      try contradiction; [apply IH | exact H].
  - rewrite Ha, Hb. apply IH.
Qed.

Lemma _interpolate_some_outcome budget :
  forall a1 a2 rest,
    same_outcome (configparser._interpolate_some budget m1 a1 rest)
                 (configparser._interpolate_some budget m2 a2 rest).
Proof.
  induction budget as [|budget IH]; intros a1 a2 rest; simpl; [reflexivity|].
  apply interpolate_loop_outcome. exact IH.
Qed.

Lemma before_get_outcome raw1 raw2 :
  vrel raw1 raw2 ->
  same_outcome (configparser.before_get raw1 m1)
               (configparser.before_get raw2 m2).
Proof.
  intros [<- | [H1 H2]].
  - apply _interpolate_some_outcome.
  - rewrite (before_get_plain _ _ H1), (before_get_plain _ _ H2). exact I.
Qed.

End InterpolationOutcome.

Lemma dsim_mrel d1 d2 :
  dsim vrel d1 d2 -> mrel (fun k => Dict.get k d1) (fun k => Dict.get k d2).
Proof. intros H x. apply (dsim_get vrel d1 d2 x H). Qed.

(** [items] on two similar dictionaries ends the same way, with the same
    keys in the same order. *)
Lemma items_of_keys d1 d2 ks :
  dsim vrel d1 d2 ->
  result_map (map fst) (configparser.items_of d1 ks)
  = result_map (map fst) (configparser.items_of d2 ks).
Proof.
  intros H. induction ks as [|k ks IH]; simpl; [reflexivity|].
  pose proof (dsim_get vrel d1 d2 k H) as Hk.
  destruct (Dict.get k d1) as [raw1|], (Dict.get k d2) as [raw2|];
    try contradiction; [|reflexivity].
  pose proof (before_get_outcome _ _ (dsim_mrel _ _ H) raw1 raw2 Hk) as Hb.
  destruct (configparser.before_get raw1 _), (configparser.before_get raw2 _);
    simpl in Hb; try contradiction; [|subst; reflexivity].
  destruct (configparser.items_of d1 ks), (configparser.items_of d2 ks);
    simpl in *; congruence.
Qed.

Lemma items_of_fst d ks l :
  configparser.items_of d ks = Ret l -> map fst l = ks.
Proof.
  revert l. induction ks as [|k ks IH]; simpl; intros l.
  - intros [= <-]. reflexivity.
  - destruct (Dict.get k d); [|discriminate].
    destruct (configparser.before_get _ _); [|discriminate].
    destruct (configparser.items_of d ks); [|discriminate].
    intros [= <-]. simpl. rewrite (IH _ eq_refl). reflexivity.
Qed.

Lemma dsim_of_keys {V : Type} (l1 l2 : Dict.t V) :
  map fst l1 = map fst l2 -> dsim (fun _ _ => True) l1 l2.
Proof.
  revert l2. induction l1 as [|a l1 IH]; intros [|b l2]; simpl;
    try discriminate.
  - constructor.
  - intros [= Hk Hl]. constructor; [split; [exact Hk|exact I] | apply IH, Hl].
Qed.

(** The keys of [dict(pairs)] depend on the keys of the pairs only. *)
Lemma dict_keys l1 l2 :
  map fst l1 = map fst l2 -> Dict.keys (dict l1) = Dict.keys (dict l2).
Proof.
  intros H. apply (dsim_keys (fun _ _ => True)). unfold dict.
  apply dsim_update; [constructor | apply dsim_of_keys, H].
Qed.

Section KeysAfterSet.
Context {V : Type}.
Implicit Types (d o : Dict.t V).

Lemma in_keys_set_same k v d : In k (Dict.keys (Dict.set k v d)).
Proof.
  induction d as [|[k0 v0] d IH]; simpl; [left; reflexivity|].
  destruct (String.eqb_spec k k0) as [->|]; simpl; [left; reflexivity|].
  right. exact IH.
Qed.

Lemma in_keys_set k k' v d :
  In k (Dict.keys d) -> In k (Dict.keys (Dict.set k' v d)).
Proof.
  induction d as [|[k0 v0] d IH]; simpl; [contradiction|].
  intros [<- | H]; destruct (String.eqb k' k0); simpl; auto.
Qed.

Lemma in_keys_update k d o :
  In k (Dict.keys o) \/ In k (Dict.keys d) -> In k (Dict.keys (Dict.update d o)).
Proof.
  unfold Dict.update. revert d.
  induction o as [|[k0 v0] o IH]; simpl; intros d.
  - intros [[] | H]; exact H.
  - intros [[<- | H] | H]; apply IH.
    + right. apply in_keys_set_same.
    + left. exact H.
    + right. apply in_keys_set, H.
Qed.

End KeysAfterSet.



(** ** C1: saving and loading again *)

(** *** Characters *)

Lemma lower_char_idem c : lower_char (lower_char c) = lower_char c.
Proof. destruct c as [[] [] [] [] [] [] [] []]; reflexivity. Qed.

Lemma lower_char_key_char c : key_char (lower_char c) = key_char c.
Proof. destruct c as [[] [] [] [] [] [] [] []]; reflexivity. Qed.

Lemma lower_char_first c :
  Ascii.eqb (lower_char c) "#" = Ascii.eqb c "#"
  /\ Ascii.eqb (lower_char c) ";" = Ascii.eqb c ";"
  /\ Ascii.eqb (lower_char c) "[" = Ascii.eqb c "[".
Proof. destruct c as [[] [] [] [] [] [] [] []]; repeat split. Qed.

Lemma lower_idem s : lower (lower s) = lower s.
Proof.
  induction s as [|c r IH]; simpl; [reflexivity|].
  rewrite lower_char_idem, IH. reflexivity.
Qed.

Lemma all_key_char_lower s : all key_char (lower s) = all key_char s.
Proof.
  induction s as [|c r IH]; simpl; [reflexivity|].
  rewrite lower_char_key_char, IH. reflexivity.
Qed.

Lemma safe_key_lower k : safe_key k = true -> safe_key (lower k) = true.
Proof.
  destruct k as [|c r]; [discriminate|].
  unfold safe_key. cbn [lower].
  destruct (lower_char_first c) as (-> & -> & ->).
  change (String (lower_char c) (lower r)) with (lower (String c r)).
  rewrite all_key_char_lower. trivial.
Qed.

Lemma key_char_nonspace c : key_char c = true -> isspace c = false.
Proof.
  unfold key_char. destruct (isspace c); [discriminate|reflexivity].
Qed.

(** *** Concatenation *)

Lemma append_assoc (a b c : string) : (a ++ b) ++ c = a ++ (b ++ c).
Proof. induction a as [|x a IH]; simpl; [|rewrite IH]; reflexivity. Qed.

Lemma append_nil_r (a : string) : a ++ "" = a.
Proof. induction a as [|x a IH]; simpl; [|rewrite IH]; reflexivity. Qed.

(** *** Stripping *)

Lemma lstrip_nonspace c r : isspace c = false -> lstrip (String c r) = String c r.
Proof. intros H. simpl. rewrite H. reflexivity. Qed.

Lemma rstrip_cons_nonspace c r :
  isspace c = false -> rstrip (String c r) = String c (rstrip r).
Proof.
  intros H. simpl. rewrite H. destruct (rstrip r); reflexivity.
Qed.

Lemma rstrip_app_nonspace a c b :
  isspace c = false -> rstrip (a ++ String c b) = a ++ String c (rstrip b).
Proof.
  intros H. induction a as [|x a IH].
  - apply rstrip_cons_nonspace, H.
  - cbn [append rstrip]. rewrite IH.
    destruct a; reflexivity.
Qed.

Lemma rstrip_app_space s c :
  isspace c = true -> rstrip (s ++ String c "") = rstrip s.
Proof.
  intros H. induction s as [|x s IH]; simpl.
  - rewrite H. reflexivity.
  - rewrite IH. reflexivity.
Qed.

Lemma rstrip_key k : all key_char k = true -> rstrip k = k.
Proof.
  induction k as [|c r IH]; [reflexivity|].
  cbn [all]. intros H. apply andb_true_iff in H as [Hc Hr].
  rewrite (rstrip_cons_nonspace _ _ (key_char_nonspace _ Hc)), (IH Hr).
  reflexivity.
Qed.

(** *** The three kinds of line that [write] produces *)

Lemma strip_header name : strip (header_line name) = "[" ++ name ++ "]".
Proof.
  unfold strip, header_line. cbn [append]. rewrite lstrip_nonspace by reflexivity.
  change (String "[" (name ++ String "]" configparser.nl))
    with (String "[" name ++ String "]" configparser.nl).
  rewrite rstrip_app_nonspace by reflexivity. reflexivity.
Qed.

Lemma rfind_app_last c s : rfind c (s ++ String c "") = Some (String.length s).
Proof.
  induction s as [|x s IH]; simpl.
  - rewrite Ascii.eqb_refl. reflexivity.
  - rewrite IH. reflexivity.
Qed.

Lemma take_app_length s t : take (String.length s) (s ++ t) = s.
Proof. induction s as [|x s IH]; simpl; [destruct t|rewrite IH]; reflexivity. Qed.

Lemma SECTCRE_header name :
  name <> "" -> configparser.SECTCRE_match ("[" ++ name ++ "]") = Some name.
Proof.
  intros Hn. cbn [append configparser.SECTCRE_match].
  rewrite rfind_app_last. destruct name as [|c r]; [contradiction|].
  cbn [String.length].
  change (S (String.length r)) with (String.length (String c r)).
  rewrite take_app_length. reflexivity.
Qed.

Lemma SECTCRE_other c r :
  Ascii.eqb c "[" = false -> configparser.SECTCRE_match (String c r) = None.
Proof.
  destruct c as [[] [] [] [] [] [] [] []]; intros H;
    try reflexivity; discriminate H.
Qed.

Lemma strip_option k v :
  safe_key k = true -> rstrip v = v ->
  strip (option_line k v) = k ++ " =" ++ sep_value v.
Proof.
  intros Hk Hv. unfold strip, option_line.
  destruct k as [|c r]; [discriminate|].
  unfold safe_key in Hk. cbn [all] in Hk.
  apply andb_true_iff in Hk as [_ Hk]. apply andb_true_iff in Hk as [Hk _].
  cbn [append]. rewrite lstrip_nonspace by (apply key_char_nonspace, Hk).
  replace (String c (r ++ String " " (String "=" (String " " (v ++ configparser.nl)))))
    with ((String c r ++ " ") ++ String "=" (String " " (v ++ configparser.nl)))
    by (rewrite append_assoc; reflexivity).
  rewrite rstrip_app_nonspace by reflexivity.
  replace (rstrip (String " " (v ++ configparser.nl))) with (sep_value v).
  - rewrite append_assoc. reflexivity.
  - cbn [rstrip]. unfold configparser.nl.
    rewrite rstrip_app_space by reflexivity. rewrite Hv.
    destruct v; reflexivity.
Qed.

Lemma OPTCRE_match_step c r :
  configparser.OPTCRE_match (String c r)
  = match configparser.OPTCRE_tail (String c r) with
    | Some (vi, v) => Some ("", vi, v)
    | None =>
        match configparser.OPTCRE_match r with
        | Some (o, vi, v) => Some (String c o, vi, v)
        | None => None
        end
    end.
Proof. reflexivity. Qed.

Lemma OPTCRE_tail_key_char c r :
  key_char c = true -> configparser.OPTCRE_tail (String c r) = None.
Proof.
  unfold key_char, configparser.OPTCRE_tail. intros H.
  repeat (apply andb_true_iff in H as [H ?]).
  cbn [lstrip]. destruct (isspace c); [discriminate|].
  destruct (Ascii.eqb c "="); [discriminate|].
  destruct (Ascii.eqb c ":"); [discriminate|]. reflexivity.
Qed.

Lemma OPTCRE_key k t :
  all key_char k = true ->
  configparser.OPTCRE_match (k ++ String " " (String "=" t))
  = Some (k, "="%char, lstrip t).
Proof.
  induction k as [|c r IH]; [reflexivity|].
  cbn [all]. intros H. apply andb_true_iff in H as [Hc Hr].
  cbn [append]. rewrite OPTCRE_match_step, (OPTCRE_tail_key_char _ _ Hc), (IH Hr).
  reflexivity.
Qed.

Lemma lstrip_sep_value v : lstrip v = v -> lstrip (sep_value v) = v.
Proof. destruct v; [reflexivity|]. intros H. exact H. Qed.

(** *** [read_line] on each kind of line *)

Lemma read_line_header rs name :
  safe_section name = true ->
  Dict.mem name (configparser.r_sections rs) = false ->
  configparser.read_line rs (header_line name)
  = Ret (configparser.mkReader
           (Dict.set name [] (configparser.r_sections rs))
           (configparser.r_defaults rs)
           (configparser.ElemSection name :: configparser.elements_added rs)
           (Some (configparser.CurSection name)) (Some name) None 0
           (configparser.e rs)).
Proof.
  intros Hs Hm. unfold safe_section in Hs.
  repeat (apply andb_true_iff in Hs as [Hs ?]).
  assert (Hne : name <> "")
    by (intros ->; discriminate Hs).
  assert (Hnd : String.eqb name configparser.default_section = false)
    by (unfold configparser.default_section;
        destruct (String.eqb name "DEFAULT"); [discriminate|reflexivity]).
  assert (Hentry : configparser.read_entry rs ("[" ++ name ++ "]") 0
                   = Ret (configparser.mkReader
                            (Dict.set name [] (configparser.r_sections rs))
                            (configparser.r_defaults rs)
                            (configparser.ElemSection name
                               :: configparser.elements_added rs)
                            (Some (configparser.CurSection name)) (Some name)
                            None 0 (configparser.e rs))).
  { unfold configparser.read_entry.
    rewrite (SECTCRE_header _ Hne), Hm, Hnd. reflexivity. }
  unfold configparser.read_line. rewrite strip_header.
  cbn [append startswith String.prefix orb String.eqb].
  replace (configparser.NONSPACECRE_search (header_line name)) with (Some 0)
    by reflexivity.
  change (String "[" (name ++ "]")) with ("[" ++ name ++ "]").
  rewrite Hentry.
  destruct (configparser.cursect rs) as [c|];
    [destruct (configparser.truthy (configparser.optname rs)) as [o|]|];
    reflexivity.
Qed.

Lemma read_line_option rs c k v :
  safe_key k = true -> lower k = k -> lstrip v = v -> rstrip v = v ->
  configparser.cursect rs = Some c ->
  existsb (configparser.element_eqb
             (configparser.ElemOption (configparser.sectname rs) k))
          (configparser.elements_added rs) = false ->
  configparser.read_line rs (option_line k v)
  = Ret (configparser.with_cursect_dict
           (configparser.mkReader
              (configparser.r_sections rs) (configparser.r_defaults rs)
              (configparser.ElemOption (configparser.sectname rs) k
                 :: configparser.elements_added rs)
              (configparser.cursect rs) (configparser.sectname rs) (Some k) 0
              (configparser.e rs))
           c (Dict.set k [v] (configparser.cursect_dict rs c))).
Proof.
  intros Hk Hlow Hl Hr Hc Hdup.
  unfold configparser.read_line. rewrite (strip_option _ _ Hk Hr).
  pose proof Hk as Hk'. destruct k as [|c0 r]; [discriminate|].
  unfold safe_key in Hk'.
  apply andb_true_iff in Hk' as [Hk' Hall].
  apply andb_true_iff in Hk' as [Hk' Hbr].
  apply andb_true_iff in Hk' as [Hhash Hsemi].
  apply negb_true_iff in Hhash, Hsemi, Hbr.
  assert (Hsp : isspace c0 = false).
  { cbn [all] in Hall. apply andb_true_iff in Hall as [Hall _].
    apply key_char_nonspace, Hall. }
  unfold startswith.
  replace (String.prefix "#" (String c0 r ++ " =" ++ sep_value v)) with false
    by (symmetry; apply prefix_head_neq, Hhash).
  replace (String.prefix ";" (String c0 r ++ " =" ++ sep_value v)) with false
    by (symmetry; apply prefix_head_neq, Hsemi).
  cbn [orb].
  replace (String.eqb (String c0 r ++ " =" ++ sep_value v) "") with false
    by reflexivity.
  replace (configparser.NONSPACECRE_search (option_line (String c0 r) v))
    with (Some 0)
    by (unfold option_line; cbn [append configparser.NONSPACECRE_search];
        rewrite Hsp; reflexivity).
  unfold configparser.read_entry.
  replace (configparser.SECTCRE_match (String c0 r ++ " =" ++ sep_value v))
    with (@None string)
    by (symmetry; apply SECTCRE_other, Hbr).
  change (String c0 r ++ " =" ++ sep_value v)
    with (String c0 r ++ String " " (String "=" (sep_value v))).
  rewrite (OPTCRE_key _ _ Hall), Hc, (lstrip_sep_value _ Hl).
  cbn [String.eqb]. unfold configparser.optionxform.
  rewrite (rstrip_key _ Hall), Hlow, Hdup.
  unfold strip. rewrite Hl, Hr.
  destruct (configparser.truthy (configparser.optname rs)) as [o|];
    reflexivity.
Qed.

Lemma read_line_blank rs :
  configparser.read_line rs configparser.nl
  = Ret (match configparser.cursect rs,
               configparser.truthy (configparser.optname rs) with
         | Some c, Some o => configparser.cursect_append rs c o ""
         | _, _ => rs
         end).
Proof.
  unfold configparser.read_line.
  replace (strip configparser.nl) with "" by reflexivity.
  cbn [startswith String.prefix orb String.eqb].
  destruct (configparser.cursect rs) as [c|];
    [destruct (configparser.truthy (configparser.optname rs)) as [o|]|];
    reflexivity.
Qed.

(** *** Dictionaries that grow at the end *)

Section DictAppend.
Context {V : Type}.
Implicit Types (d : Dict.t V) (k : string) (v : V).

Lemma mem_false_not_in k d : Dict.mem k d = false <-> ~ In k (Dict.keys d).
Proof.
  unfold Dict.mem. induction d as [|[k0 v0] d IH]; simpl.
  - split; [intros _ []|reflexivity].
  - destruct (String.eqb_spec k k0) as [->|Hne].
    + split; [discriminate|]. intros H. exfalso. apply H. left. reflexivity.
    + rewrite IH. split.
      * intros H [E|E]; [apply Hne; symmetry; exact E | exact (H E)].
      * intros H E. apply H. right. exact E.
Qed.

Lemma set_absent k v d : Dict.mem k d = false -> Dict.set k v d = (d ++ [(k, v)])%list.
Proof.
  unfold Dict.mem. induction d as [|[k0 v0] d IH]; simpl; [reflexivity|].
  destruct (String.eqb k k0); [discriminate|].
  intros H. rewrite (IH H). reflexivity.
Qed.

Lemma get_app_absent k d d' :
  Dict.mem k d = false -> Dict.get k (d ++ d')%list = Dict.get k d'.
Proof.
  unfold Dict.mem. induction d as [|[k0 v0] d IH]; simpl; [reflexivity|].
  destruct (String.eqb k k0); [discriminate|exact IH].
Qed.

Lemma set_app_absent k v d d' :
  Dict.mem k d = false ->
  Dict.set k v (d ++ d')%list = (d ++ Dict.set k v d')%list.
Proof.
  unfold Dict.mem. induction d as [|[k0 v0] d IH]; simpl; [reflexivity|].
  destruct (String.eqb k k0); [discriminate|].
  intros H. rewrite (IH H). reflexivity.
Qed.

End DictAppend.

Lemma mem_same_keys {V W : Type} (d1 : Dict.t V) (d2 : Dict.t W) k :
  Dict.keys d1 = Dict.keys d2 -> Dict.mem k d1 = Dict.mem k d2.
Proof.
  unfold Dict.mem. revert d2.
  induction d1 as [|[k1 v1] d1 IH]; intros [|[k2 v2] d2]; simpl;
    try discriminate; [reflexivity|].
  intros [= <- H]. destruct (String.eqb k k1); [reflexivity|apply IH, H].
Qed.

Lemma existsb_false_forall {A : Type} (f : A -> bool) (l : list A) :
  (forall x, In x l -> f x = false) -> existsb f l = false.
Proof.
  induction l as [|a l IH]; simpl; [reflexivity|].
  intros H. rewrite (H a (or_introl eq_refl)). apply IH.
  intros x Hx. apply H. right. exact Hx.
Qed.

(** *** The reader between two lines of a written file *)

Lemma lastopt_snoc {A : Type} (l : list A) (x : A) :
  lastopt (l ++ [x])%list = Some x.
Proof.
  induction l as [|a l IH]; [reflexivity|].
  simpl. rewrite IH. destruct (l ++ [x])%list eqn:E; [|reflexivity].
  destruct l; discriminate E.
Qed.

Lemma mark_last_snoc d k l :
  mark_last (d ++ [(k, l)])%list = (d ++ [(k, (l ++ [""])%list)])%list.
Proof.
  induction d as [|[k0 l0] d IH]; [reflexivity|].
  simpl. rewrite IH. destruct (d ++ [(k, l)])%list eqn:E; [|reflexivity].
  destruct d; discriminate E.
Qed.

Lemma enc_keys items : Dict.keys (enc items) = Dict.keys items.
Proof. unfold enc, Dict.keys. rewrite map_map. reflexivity. Qed.

Lemma enc_done_keys done : Dict.keys (map enc_done done) = Dict.keys done.
Proof. unfold Dict.keys. rewrite map_map. reflexivity. Qed.

Lemma enc_snoc pre k v :
  enc (pre ++ [(k, v)])%list = (enc pre ++ [(k, [v])])%list.
Proof. unfold enc. rewrite map_app. reflexivity. Qed.

Lemma chron1_snoc name pre k v :
  chron1 (name, (pre ++ [(k, v)])%list)
  = (chron1 (name, pre) ++ [configparser.ElemOption (Some name) k])%list.
Proof. unfold chron1. simpl. rewrite map_app. reflexivity. Qed.

Lemma chron_snoc done sec :
  chron (done ++ [sec])%list = (chron done ++ chron1 sec)%list.
Proof. unfold chron. rewrite flat_map_app. simpl. rewrite app_nil_r. reflexivity. Qed.

(** No option of section [name] with key [k] has been added yet. *)
Lemma option_not_added done name pre k :
  ~ In name (Dict.keys done) -> ~ In k (Dict.keys pre) ->
  existsb (configparser.element_eqb (configparser.ElemOption (Some name) k))
          (rev (chron done ++ chron1 (name, pre))%list) = false.
Proof.
  intros Hn Hk. apply existsb_false_forall. intros x Hx.
  apply in_rev, in_app_or in Hx. destruct Hx as [Hx | [<- | Hx]].
  - apply in_flat_map in Hx as ([n items] & Hsec & [<- | Hx]); [reflexivity|].
    apply in_map_iff in Hx as ([k' v'] & <- & _). simpl.
    destruct (String.eqb_spec name n) as [->|]; [|reflexivity].
    exfalso. apply Hn. apply (in_map fst) in Hsec. exact Hsec.
  - reflexivity.
  - apply in_map_iff in Hx as ([k' v'] & <- & Hin). simpl.
    destruct (String.eqb_spec k k') as [->|]; [|apply andb_false_r].
    exfalso. apply Hk. apply (in_map fst) in Hin. exact Hin.
Qed.

(** *** Stores whose file reads back *)

Lemma safe_value_strips v :
  safe_value v = true ->
  lstrip v = v /\ rstrip v = v
  /\ contains LF v = false /\ contains CR v = false.
Proof.
  unfold safe_value. intros H.
  apply andb_true_iff in H as [H Hr]. apply andb_true_iff in H as [H Hl].
  apply andb_true_iff in H as [Hlf Hcr].
  apply String.eqb_eq in Hl, Hr. apply negb_true_iff in Hlf, Hcr.
  repeat split; assumption.
Qed.

Lemma step_header done name :
  safe_section name = true -> ~ In name (Dict.keys done) ->
  configparser.read_line (state_after done) (header_line name)
  = Ret (state_in done name []).
Proof.
  intros Hs Hn. rewrite (read_line_header _ _ Hs).
  - unfold state_in, state_after. simpl.
    rewrite set_absent.
    + rewrite rev_app_distr. reflexivity.
    + rewrite (mem_same_keys _ done) by apply enc_done_keys.
      apply mem_false_not_in, Hn.
  - simpl. rewrite (mem_same_keys _ done) by apply enc_done_keys.
    apply mem_false_not_in, Hn.
Qed.

Lemma step_option done name pre k v :
  wf_item (k, v) -> ~ In name (Dict.keys done) -> ~ In k (Dict.keys pre) ->
  configparser.read_line (state_in done name pre) (option_line k v)
  = Ret (state_in done name (pre ++ [(k, v)])%list).
Proof.
  intros (Hk & Hlow & Hv) Hn Hnk. simpl in Hk, Hlow, Hv.
  destruct (safe_value_strips _ Hv) as (Hl & Hr & _).
  assert (Hmn : Dict.mem name (map enc_done done) = false)
    by (rewrite (mem_same_keys _ done) by apply enc_done_keys;
        apply mem_false_not_in, Hn).
  assert (Hmk : Dict.mem k (enc pre) = false)
    by (rewrite (mem_same_keys _ pre) by apply enc_keys;
        apply mem_false_not_in, Hnk).
  rewrite (read_line_option (state_in done name pre)
             (configparser.CurSection name) _ _ Hk Hlow Hl Hr
             eq_refl (option_not_added _ _ _ _ Hn Hnk)).
  unfold state_in, configparser.with_cursect_dict, configparser.cursect_dict.
  cbn [configparser.r_sections configparser.r_defaults
       configparser.elements_added configparser.cursect configparser.sectname
       configparser.optname configparser.indent_level configparser.e].
  rewrite (get_app_absent _ _ _ Hmn). cbn [Dict.get]. rewrite String.eqb_refl.
  rewrite (set_absent _ _ _ Hmk), (set_app_absent _ _ _ _ Hmn).
  cbn [Dict.set]. rewrite String.eqb_refl.
  rewrite chron1_snoc, enc_snoc, app_assoc, rev_unit.
  unfold last_key. rewrite lastopt_snoc. reflexivity.
Qed.

Lemma last_key_nonempty items k :
  Forall wf_item items -> last_key items = Some k ->
  configparser.truthy (Some k) = Some k.
Proof.
  intros Hall Hlast. unfold last_key in Hlast.
  destruct (lastopt items) as [[k' v']|] eqn:E; [|discriminate].
  injection Hlast as <-.
  assert (Hin : In (k', v') items).
  { clear Hall. induction items as [|a items IH]; [discriminate|].
    simpl in E. destruct items as [|b items'].
    - injection E as <-. left. reflexivity.
    - right. apply IH, E. }
  rewrite Forall_forall in Hall. destruct (Hall _ Hin) as (Hk & _).
  simpl in Hk. destruct k'; [discriminate|reflexivity].
Qed.

Lemma step_blank done name items :
  wf_items items -> ~ In name (Dict.keys done) ->
  configparser.read_line (state_in done name items) configparser.nl
  = Ret (state_after (done ++ [(name, items)])%list).
Proof.
  intros [Hnd Hall] Hn. rewrite read_line_blank.
  assert (Hmn : Dict.mem name (map enc_done done) = false)
    by (rewrite (mem_same_keys _ done) by apply enc_done_keys;
        apply mem_false_not_in, Hn).
  unfold state_after. rewrite lastopt_snoc, map_app, chron_snoc.
  cbn [option_map fst snd map].
  destruct items as [|a items'] eqn:Eitems.
  - reflexivity.
  - rewrite <- Eitems in *.
    destruct (@exists_last _ items) as (pre & [k v] & Hsplit);
      [rewrite Eitems; discriminate|].
    clear Eitems.
    assert (Hlast : last_key items = Some k)
      by (rewrite Hsplit; unfold last_key; rewrite lastopt_snoc; reflexivity).
    change (configparser.optname (state_in done name items))
      with (last_key items).
    rewrite Hlast, (last_key_nonempty _ _ Hall Hlast).
    unfold configparser.cursect_append, configparser.cursect_dict,
      configparser.with_cursect_dict, state_in.
    cbn [configparser.r_sections configparser.r_defaults
         configparser.elements_added configparser.cursect configparser.sectname
         configparser.optname configparser.indent_level configparser.e].
    rewrite (get_app_absent _ _ _ Hmn). cbn [Dict.get]. rewrite String.eqb_refl.
    assert (Hmk : Dict.mem k (enc pre) = false).
    { rewrite (mem_same_keys _ pre) by apply enc_keys.
      apply mem_false_not_in. rewrite Hsplit in Hnd.
      unfold Dict.keys in Hnd. rewrite map_app in Hnd. simpl in Hnd.
      apply NoDup_remove_2 in Hnd. rewrite app_nil_r in Hnd. exact Hnd. }
    replace (enc_done (name, items))
      with (name, (enc pre ++ [(k, [v; ""])])%list)
      by (unfold enc_done; cbn [fst snd];
          rewrite Hsplit, enc_snoc, mark_last_snoc; reflexivity).
    rewrite Hlast. clear Hlast Hall Hnd. subst items. rewrite enc_snoc.
    rewrite (get_app_absent _ _ _ Hmk). cbn [Dict.get]. rewrite String.eqb_refl.
    rewrite (set_app_absent _ _ _ _ Hmk). cbn [Dict.set]. rewrite String.eqb_refl.
    rewrite (set_app_absent _ _ _ _ Hmn). cbn [Dict.set]. rewrite String.eqb_refl.
    reflexivity.
Qed.

(** *** Reading the lines of a written store *)

Lemma read_options done name post :
  forall pre rest,
    wf_items (pre ++ post)%list -> ~ In name (Dict.keys done) ->
    configparser.read_lines (state_in done name pre)
      (map (fun kv => option_line (fst kv) (snd kv)) post
       ++ configparser.nl :: rest)%list
    = configparser.read_lines
        (state_after (done ++ [(name, (pre ++ post)%list)])%list) rest.
Proof.
  induction post as [|[k v] post IH]; intros pre rest Hwf Hn.
  - rewrite app_nil_r in *. cbn [map app configparser.read_lines].
    rewrite (step_blank _ _ _ Hwf Hn). reflexivity.
  - destruct Hwf as [Hnd Hall].
    assert (Hkv : wf_item (k, v))
      by (apply Forall_app in Hall as [_ Hall]; inversion Hall; assumption).
    assert (Hnk : ~ In k (Dict.keys pre)).
    { unfold Dict.keys in Hnd. rewrite map_app in Hnd. simpl in Hnd.
      apply NoDup_remove_2 in Hnd. intros Hin. apply Hnd.
      apply in_or_app. left. exact Hin. }
    cbn [map app configparser.read_lines fst snd].
    rewrite (step_option _ _ _ _ _ Hkv Hn Hnk).
    replace (pre ++ (k, v) :: post)%list with ((pre ++ [(k, v)]) ++ post)%list
      by (rewrite <- app_assoc; reflexivity).
    apply IH; [|exact Hn].
    rewrite <- app_assoc. split; assumption.
Qed.

Lemma read_sections rest :
  forall done,
    wf_sections (done ++ rest)%list ->
    configparser.read_lines (state_after done) (flat_map block rest)
    = Ret (state_after (done ++ rest)%list).
Proof.
  induction rest as [|[name items] rest IH]; intros done Hwf.
  - rewrite app_nil_r. reflexivity.
  - destruct Hwf as [Hnd Hall].
    assert (Hsec : wf_section (name, items))
      by (apply Forall_app in Hall as [_ Hall]; inversion Hall; assumption).
    destruct Hsec as [Hname Hitems]. simpl in Hname, Hitems.
    assert (Hn : ~ In name (Dict.keys done)).
    { unfold Dict.keys in Hnd. rewrite map_app in Hnd. simpl in Hnd.
      apply NoDup_remove_2 in Hnd. intros Hin. apply Hnd.
      apply in_or_app. left. exact Hin. }
    cbn [flat_map block app configparser.read_lines fst snd].
    rewrite (step_header _ _ Hname Hn).
    rewrite <- app_assoc. cbn [app].
    rewrite (read_options done name items [] _ Hitems Hn). cbn [app].
    replace (done ++ (name, items) :: rest)%list
      with ((done ++ [(name, items)]) ++ rest)%list
      by (rewrite <- app_assoc; reflexivity).
    apply IH. rewrite <- app_assoc. split; assumption.
Qed.

Lemma join_mark_last items :
  Forall wf_item items ->
  configparser.join_values (mark_last (enc items)) = items.
Proof.
  induction 1 as [|[k v] items (_ & _ & Hv) Hall IH]; [reflexivity|].
  simpl in Hv. destruct (safe_value_strips _ Hv) as (_ & Hr & _).
  destruct items as [|b items'].
  - cbn. unfold configparser.nl. rewrite rstrip_app_space by reflexivity.
    rewrite Hr. reflexivity.
  - change (mark_last (enc ((k, v) :: b :: items')))
      with ((k, [v]) :: mark_last (enc (b :: items'))).
    unfold configparser.join_values in *. cbn [map fst snd join].
    rewrite Hr, IH. reflexivity.
Qed.

Lemma join_enc_done secs :
  Forall wf_section secs ->
  map (fun so => (fst so, configparser.join_values (snd so)))
      (map enc_done secs) = secs.
Proof.
  induction 1 as [|[name items] secs Hsec _ IH]; [reflexivity|].
  destruct Hsec as [_ [_ Hitems]]. simpl in Hitems.
  cbn [map enc_done fst snd]. rewrite IH, (join_mark_last _ Hitems).
  reflexivity.
Qed.

(** [_read] on the lines of a written store gives the store back. *)
Lemma _read_written secs :
  wf_sections secs ->
  configparser._read (flat_map block secs)
  = Ret (configparser.mkConfigParser secs []).
Proof.
  intros Hwf. unfold configparser._read.
  change (configparser.mkReader [] [] [] None None None 0 false)
    with (state_after []).
  rewrite (read_sections secs [] Hwf). cbn [app].
  unfold state_after.
  cbn [configparser.e configparser.r_sections configparser.r_defaults].
  rewrite (join_enc_done _ (proj2 Hwf)). reflexivity.
Qed.

(** *** The text of a written store and its lines *)

Lemma concat_cons x l : String.concat "" (x :: l) = x ++ String.concat "" l.
Proof. destruct l; simpl; [rewrite append_nil_r|]; reflexivity. Qed.

Lemma concat_app l1 l2 :
  String.concat "" (l1 ++ l2)%list
  = String.concat "" l1 ++ String.concat "" l2.
Proof.
  induction l1 as [|x l1 IH]; [reflexivity|].
  rewrite <- app_comm_cons, !concat_cons, IH, append_assoc. reflexivity.
Qed.

Lemma concat_flat_map {A : Type} (f : A -> list string) (l : list A) :
  String.concat "" (flat_map f l)
  = String.concat "" (map (fun x => String.concat "" (f x)) l).
Proof.
  induction l as [|a l IH]; [reflexivity|].
  cbn [flat_map map]. rewrite concat_app, concat_cons, IH. reflexivity.
Qed.

Lemma _write_section_block name items :
  Forall wf_item items ->
  configparser._write_section name items " = "
  = String.concat "" (block (name, items)).
Proof.
  intros Hall. unfold configparser._write_section, block, header_line.
  assert (Hmap :
    map (fun kv : string * string =>
           fst kv ++ " = "
           ++ replace configparser.nl (String LF (String TAB "")) (snd kv)
           ++ configparser.nl) items
    = map (fun kv => option_line (fst kv) (snd kv)) items).
  { apply map_ext_in. intros [k v] Hin.
    rewrite Forall_forall in Hall. destruct (Hall _ Hin) as (_ & _ & Hv).
    simpl in Hv. destruct (safe_value_strips _ Hv) as (_ & _ & Hlf & _).
    unfold option_line, configparser.nl. cbn [fst snd].
    rewrite (replace_absent _ _ _ _ Hlf). reflexivity. }
  rewrite Hmap. cbn [fst snd]. rewrite concat_cons, concat_app.
  cbn [String.concat]. rewrite !append_assoc. reflexivity.
Qed.

Lemma write_blocks cfg :
  wf_store cfg ->
  configparser.write cfg
  = String.concat "" (flat_map block (configparser._sections cfg)).
Proof.
  intros [Hdef [_ Hall]]. unfold configparser.write. rewrite Hdef.
  cbn [append]. rewrite concat_flat_map. f_equal.
  apply map_ext_in. intros [name items] Hin.
  rewrite Forall_forall in Hall. destruct (Hall _ Hin) as [_ [_ Hitems]].
  apply _write_section_block, Hitems.
Qed.

Lemma contains_app c a b : contains c (a ++ b) = contains c a || contains c b.
Proof.
  induction a as [|x a IH]; [reflexivity|].
  simpl. rewrite IH, orb_assoc. reflexivity.
Qed.

Lemma universal_newlines_id t :
  contains CR t = false -> os.universal_newlines t = t.
Proof.
  induction t as [|c r IH]; [reflexivity|].
  simpl. intros H. apply orb_false_iff in H as [Hc Hr].
  rewrite Hc, (IH Hr). reflexivity.
Qed.

Lemma readlines_line body :
  forall cur t,
    contains LF body = false ->
    os.readlines_from cur (body ++ configparser.nl ++ t)
    = (cur ++ body ++ configparser.nl) :: os.readlines_from "" t.
Proof.
  induction body as [|c r IH]; intros cur t H.
  - cbn. reflexivity.
  - simpl in H. apply orb_false_iff in H as [Hc Hr].
    cbn [append os.readlines_from]. rewrite Hc, (IH _ _ Hr).
    rewrite append_assoc. reflexivity.
Qed.

Lemma plain_lines_no_CR L :
  Forall plain_line L -> contains CR (String.concat "" L) = false.
Proof.
  induction 1 as [|l L (body & -> & _ & Hcr) _ IH]; [reflexivity|].
  rewrite concat_cons, !contains_app, Hcr, IH. reflexivity.
Qed.

Lemma readlines_concat L :
  Forall plain_line L ->
  os.readlines_from "" (os.universal_newlines (String.concat "" L)) = L.
Proof.
  intros H. rewrite (universal_newlines_id _ (plain_lines_no_CR _ H)).
  induction H as [|l L (body & -> & Hlf & _) _ IH]; [reflexivity|].
  rewrite concat_cons, append_assoc, (readlines_line _ _ _ Hlf), IH.
  reflexivity.
Qed.

Lemma key_char_not c x :
  isspace x = true -> key_char c = true -> Ascii.eqb c x = false.
Proof.
  intros Hx Hc. destruct (Ascii.eqb_spec c x) as [->|]; [|reflexivity].
  apply key_char_nonspace in Hc. congruence.
Qed.

Lemma key_no_space_char k x :
  isspace x = true -> all key_char k = true -> contains x k = false.
Proof.
  intros Hx. induction k as [|c r IH]; [reflexivity|].
  cbn [all contains]. intros H. apply andb_true_iff in H as [Hc Hr].
  rewrite (key_char_not _ _ Hx Hc), (IH Hr). reflexivity.
Qed.

Lemma safe_key_all k : safe_key k = true -> all key_char k = true.
Proof.
  destruct k as [|c r]; [discriminate|]. unfold safe_key.
  intros H. apply andb_true_iff in H as [_ H]. exact H.
Qed.

Lemma block_plain sec : wf_section sec -> Forall plain_line (block sec).
Proof.
  destruct sec as [name items]. intros [Hname [_ Hitems]].
  simpl in Hname, Hitems. unfold block. cbn [fst snd].
  constructor; [|apply Forall_app; split].
  - exists ("[" ++ name ++ "]"). unfold header_line.
    unfold safe_section in Hname.
    apply andb_true_iff in Hname as [Hname Hcr].
    apply andb_true_iff in Hname as [_ Hlf].
    apply negb_true_iff in Hcr, Hlf.
    split; [rewrite !append_assoc; reflexivity|].
    cbn [append contains]. rewrite !contains_app, Hlf, Hcr. split; reflexivity.
  - induction Hitems as [|[k v] items (Hk & _ & Hv) _ IH]; constructor;
      [|exact IH].
    simpl in Hk, Hv. exists (k ++ " = " ++ v). unfold option_line.
    destruct (safe_value_strips _ Hv) as (_ & _ & Hlf & Hcr).
    pose proof (safe_key_all _ Hk) as Hall.
    split; [rewrite !append_assoc; reflexivity|].
    rewrite !contains_app, Hlf, Hcr.
    rewrite (key_no_space_char k LF eq_refl Hall),
            (key_no_space_char k CR eq_refl Hall).
    split; reflexivity.
  - constructor; [|constructor]. exists "". repeat split.
Qed.

Lemma blocks_plain secs :
  Forall wf_section secs -> Forall plain_line (flat_map block secs).
Proof.
  induction 1 as [|sec secs Hsec _ IH]; [constructor|].
  cbn [flat_map]. apply Forall_app. split; [apply block_plain, Hsec|exact IH].
Qed.

(** Writing a well-formed store to a file and reading the file gives the
    store back. *)
Lemma read_after_write (fs : os.FileSystem) path cfg :
  wf_store cfg ->
  configparser.read
    (os.mkFileSystem (Dict.set path (configparser.write cfg) (os.files fs))
                     (os.denied fs))
    path
  = Ret cfg.
Proof.
  intros Hwf. unfold configparser.read, os.open_r. cbn [os.files].
  rewrite get_set_same, (write_blocks _ Hwf).
  destruct Hwf as [Hdef Hsecs].
  rewrite (readlines_concat _ (blocks_plain _ (proj2 Hsecs))).
  rewrite (_read_written _ Hsecs). destruct cfg as [secs defs].
  simpl in Hdef. subst defs. reflexivity.
Qed.

(** *** [add_key] keeps the store well formed *)

Section SetPreserves.
Context {V : Type}.
Implicit Types (d : Dict.t V) (k : string) (v : V).

Lemma keys_set k v d :
  Dict.keys (Dict.set k v d)
  = if Dict.mem k d then Dict.keys d else (Dict.keys d ++ [k])%list.
Proof.
  unfold Dict.mem. induction d as [|[k0 v0] d IH]; simpl; [reflexivity|].
  destruct (String.eqb k k0); simpl; [reflexivity|].
  rewrite IH. destruct (Dict.get k d); reflexivity.
Qed.

Lemma NoDup_keys_set k v d :
  NoDup (Dict.keys d) -> NoDup (Dict.keys (Dict.set k v d)).
Proof.
  intros H. rewrite keys_set. destruct (Dict.mem k d) eqn:E; [exact H|].
  apply mem_false_not_in in E.
  apply NoDup_rev in H. rewrite <- (rev_involutive (_ ++ _)%list).
  apply NoDup_rev. rewrite rev_unit. constructor; [|exact H].
  intros Hin. apply E, in_rev, Hin.
Qed.

Lemma Forall_set (P : string * V -> Prop) k v d :
  Forall P d -> P (k, v) -> Forall P (Dict.set k v d).
Proof.
  intros Hd Hkv. induction Hd as [|[k0 v0] d H0 Hd IH]; simpl.
  - constructor; [exact Hkv|constructor].
  - destruct (String.eqb_spec k k0) as [->|].
    + constructor; assumption.
    + constructor; assumption.
Qed.

Lemma Forall_get (P : string * V -> Prop) k v d :
  Forall P d -> Dict.get k d = Some v -> P (k, v).
Proof.
  induction 1 as [|[k0 v0] d H0 _ IH]; simpl; [discriminate|].
  destruct (String.eqb_spec k k0) as [->|]; [|exact IH].
  intros [= <-]. exact H0.
Qed.

End SetPreserves.

Lemma safe_section_names section :
  safe_section section = true -> section <> "DEFAULT" /\ section <> "".
Proof.
  unfold safe_section. intros H.
  apply andb_true_iff in H as [H _]. apply andb_true_iff in H as [H _].
  apply andb_true_iff in H as [He Hd]. apply negb_true_iff in He, Hd.
  split; intros ->; discriminate.
Qed.

Lemma wf_add_key (s : self) section key value :
  wf_store (config s) -> safe_op (section, key, value) = true ->
  wf_store (config (snd (add_key s section key value))).
Proof.
  intros [Hdef [Hnd Hall]] Hop. unfold safe_op in Hop. cbn [fst snd] in Hop.
  apply andb_true_iff in Hop as [Hop Hv]. apply andb_true_iff in Hop as [Hs Hk].
  destruct (safe_section_names _ Hs) as [Hd He].
  destruct (add_key_cases s section key value Hd He)
    as (sd & secs & -> & Hsd & Hc).
  assert (Hitem : wf_item (lower key, str value)).
  { split; [apply safe_key_lower, Hk|]. split; [apply lower_idem|exact Hv]. }
  assert (Hsecs : wf_sections secs /\ wf_items sd).
  { destruct Hc as [[Hget ->] | (_ & -> & ->)].
    - split; [split; assumption|].
      apply (Forall_get wf_section _ _ _ Hall Hget).
    - split; [|split; constructor].
      split; [apply NoDup_keys_set, Hnd|].
      apply Forall_set; [exact Hall|].
      split; [exact Hs | split; constructor]. }
  destruct Hsecs as [[Hnd' Hall'] [Hnd_sd Hall_sd]].
  destruct (accepted (str value)); cbn [snd config];
    (split; [exact Hdef|]); cbn [configparser._sections];
    [|split; assumption].
  split; [apply NoDup_keys_set, Hnd'|].
  apply Forall_set; [exact Hall'|].
  split; [exact Hs|]. cbn [snd]. split.
  - apply NoDup_keys_set, Hnd_sd.
  - apply Forall_set; assumption.
Qed.

Lemma wf_add_keys ops :
  forall s, wf_store (config s) -> forallb safe_op ops = true ->
            wf_store (config (add_keys s ops)).
Proof.
  unfold add_keys.
  induction ops as [|[[section key] value] ops IH]; intros s Hwf Hops;
    [exact Hwf|].
  cbn [forallb] in Hops. apply andb_true_iff in Hops as [Hop Hops].
  cbn [fold_left fst snd]. apply IH; [|exact Hops].
  apply wf_add_key; assumption.
Qed.

Lemma add_key_path (s : self) section key value :
  config_file_path (snd (add_key s section key value)) = config_file_path s.
Proof.
  unfold add_key.
  destruct (if negb (configparser.has_section (config s) section)
            then configparser.add_section (config s) section
            else Ret (config s)) as [cfg|x]; [|reflexivity].
  destruct (configparser.set cfg section key (str value)); reflexivity.
Qed.

Lemma add_keys_path ops :
  forall s, config_file_path (add_keys s ops) = config_file_path s.
Proof.
  unfold add_keys.
  induction ops as [|op ops IH]; intros s; [reflexivity|].
  cbn [fold_left]. rewrite IH. apply add_key_path.
Qed.

(** *** The round trip *)

(** C1, as stated, fails: a value with a leading blank is written as it
    is and read back without the blank, so [get_key] returns [' v']
    before saving and ['v'] from the store loaded again. *)
Lemma roundtrip_leading_space_counterexample :
  let fs := os.mkFileSystem [] [] in
  let s := add_keys (__init__ fs "config.ini") [("S", "k", PStr " v")] in
  let fs' := snd (save_config fs s) in
  os.files fs' = [("config.ini", "[S]" ++ configparser.nl
                                  ++ "k =  v" ++ configparser.nl
                                  ++ configparser.nl)]
  /\ get_key s "S" "k" PNone = PStr " v"
  /\ get_key (__init__ fs' "config.ini") "S" "k" PNone = PStr "v"
  /\ PStr "v" <> PStr " v".
Proof. repeat split. discriminate. Qed.

(** C1, amended.  Take a path at which there is no file, so that the
    store starts empty, and at which saving succeeds.  For every store
    built by a sequence of [add_key] calls whose section names are not
    empty, not [DEFAULT] and hold no line break, whose keys are not
    empty, hold no white space, [=] or [:] and do not start with [#],
    [;] or the opening bracket, and whose values, as strings, hold no
    line break and have no white space at either end: [save_config]
    followed by constructing a new [ConfigManager] from the same path
    yields the same configuration, so every [get_key] call returns the
    value it returned before saving.  (A call that [set] rejects for
    its use of [%] raises and stores nothing; it does not harm the round
    trip.) *)
Theorem roundtrip_safe (fs : os.FileSystem) (path : string)
    (ops : list (string * string * pyvalue)) :
  Dict.get path (os.files fs) = None ->
  existsb (String.eqb path) (os.denied fs) = false ->
  forallb safe_op ops = true ->
  let s := add_keys (__init__ fs path) ops in
  let fs' := snd (save_config fs s) in
  config (__init__ fs' path) = config s
  /\ forall section key default,
       get_key (__init__ fs' path) section key default
       = get_key s section key default.
Proof.
  intros Hnone Hallowed Hops s fs'.
  assert (Hwf : wf_store (config s)).
  { apply wf_add_keys; [|exact Hops].
    unfold __init__, _load_config, configparser.read, os.open_r.
    rewrite Hnone. split; [reflexivity|]. split; constructor. }
  assert (Hpath : config_file_path s = path) by apply add_keys_path.
  assert (Hcfg : config (__init__ fs' path) = config s).
  { unfold fs', save_config, os.open_w_write. rewrite Hpath, Hallowed.
    cbn [snd]. unfold __init__, _load_config. cbn [config].
    rewrite (read_after_write fs path _ Hwf). reflexivity. }
  split; [exact Hcfg|].
  intros section key default. unfold get_key. rewrite Hcfg. reflexivity.
Qed.

(** C1, amended, on a store of two sections: keys in mixed case, a
    value with an escaped percent sign and a call that [set] rejects. *)
Lemma roundtrip_safe_witness :
  let fs := os.mkFileSystem [] [] in
  let s := add_keys (__init__ fs "config.ini")
             [("Database", "host", PStr "localhost");
              ("Database", "port", PInt 5432);
              ("Features", "enable_logging", PBool true);
              ("Features", "ratio", PStr "100%%");
              ("Features", "broken", PStr "50%");
              ("Database", "Port", PStr "5433")] in
  get_key (__init__ (snd (save_config fs s)) "config.ini")
          "Database" "port" PNone
  = get_key s "Database" "port" PNone.
Proof.
  apply (roundtrip_safe (os.mkFileSystem [] []) "config.ini"
           [("Database", "host", PStr "localhost");
            ("Database", "port", PInt 5432);
            ("Features", "enable_logging", PBool true);
            ("Features", "ratio", PStr "100%%");
            ("Features", "broken", PStr "50%");
            ("Database", "Port", PStr "5433")]);
    reflexivity.
Defined.

(** ** The interpolation loop does not run out of fuel *)

Lemma length_drop n s : String.length (drop n s) = String.length s - n.
Proof.
  revert s. induction n as [|n IH]; intros [|c r]; simpl; try reflexivity.
  apply IH.
Qed.

Lemma KEYCRE_match_end s name e :
  configparser.KEYCRE_match s = Some (name, e) -> 1 <= e.
Proof.
  unfold configparser.KEYCRE_match.
  destruct s as [|c0 [|c1 r]]; try discriminate;
    try (destruct c0 as [[] [] [] [] [] [] [] []]; discriminate).
  destruct (configparser.span_not ")" r) as [[|c n] [|c2 [|c3 t]]];
    destruct c0 as [[] [] [] [] [] [] [] []]; try discriminate;
    destruct c1 as [[] [] [] [] [] [] [] []]; try discriminate;
    destruct c2 as [[] [] [] [] [] [] [] []]; try discriminate;
    destruct c3 as [[] [] [] [] [] [] [] []]; try discriminate.
  intros [= _ <-]. lia.
Qed.

(** With the length of [rest] as fuel, or more, the loop ends because
    [rest] is used up or an exception is raised, never because the fuel
    is: more fuel changes nothing. *)
Lemma interpolate_loop_enough_fuel recur m :
  forall fuel accum rest,
    String.length rest <= fuel ->
    configparser.interpolate_loop recur m fuel accum rest
    = configparser.interpolate_loop recur m (String.length rest) accum rest.
Proof.
  assert (H : forall n fuel1 fuel2 accum rest,
             String.length rest <= n ->
             String.length rest <= fuel1 -> String.length rest <= fuel2 ->
             configparser.interpolate_loop recur m fuel1 accum rest
             = configparser.interpolate_loop recur m fuel2 accum rest).
  { induction n as [|n IH]; intros fuel1 fuel2 accum rest Hn H1 H2;
      destruct rest as [|c r]; try (destruct fuel1, fuel2; reflexivity);
      [simpl in Hn; lia|].
    destruct fuel1 as [|f1]; [simpl in H1; lia|].
    destruct fuel2 as [|f2]; [simpl in H2; lia|].
    cbn [configparser.interpolate_loop].
    assert (Hlen : String.length (String c r) = S (String.length r))
      by reflexivity.
    generalize dependent (String c r). clear c. intros rest Hn H1 H2 Hlen.
    destruct (find "%" rest) as [p|]; [|reflexivity]. cbv zeta.
    destruct (String.eqb _ "%").
    { apply IH; rewrite !length_drop; lia. }
    destruct (String.eqb _ "("); [|reflexivity].
    destruct (configparser.KEYCRE_match _) as [[name e]|] eqn:Hk;
      [|reflexivity].
    apply KEYCRE_match_end in Hk.
    destruct (m _) as [v|]; [|reflexivity].
    destruct (contains "%" v).
    - destruct (recur _ v); [|reflexivity].
      apply IH; rewrite !length_drop; lia.
    - apply IH; rewrite !length_drop; lia. }
  intros fuel accum rest Hle.
  apply (H (String.length rest)); [reflexivity | exact Hle | reflexivity].
Qed.

(** ** The scenario of the example usage *)

(** Starting empty: two keys are added to [Database], the store is saved
    and loaded again; then a key is removed, then the section. *)
Example concrete_scenario :
  let fs := os.mkFileSystem [] [] in
  let s := add_keys (__init__ fs "my_project_settings.ini")
             [("Database", "host", PStr "localhost");
              ("Database", "port", PStr "5432")] in
  let s1 := __init__ (snd (save_config fs s)) "my_project_settings.ini" in
  let s2 := snd (remove_key s1 "Database" "host") in
  let s3 := snd (remove_section s2 "Database") in
  get_section s1 "Database" = Ret [("host", "localhost"); ("port", "5432")]
  /\ remove_key s1 "Database" "host" = (Ret true, s2)
  /\ get_section s2 "Database" = Ret [("port", "5432")]
  /\ fst (remove_section s2 "Database") = true
  /\ get_section s3 "Database" = Ret [].
Proof. repeat split. Qed.

(** * Further properties *)

(** ** Every store is made of proper dictionaries *)

Section DictOk.
Context {V : Type}.
Implicit Types (d : Dict.t V) (k : string) (v : V).

Lemma keys_set_present k v v' d :
  Dict.get k d = Some v' -> Dict.keys (Dict.set k v d) = Dict.keys d.
Proof.
  intros H. rewrite keys_set. unfold Dict.mem. rewrite H. reflexivity.
Qed.

Lemma dict_ok_nil : dict_ok (@nil (string * V)).
Proof. split; constructor. Qed.

Lemma dict_ok_same_keys {W : Type} d (d' : Dict.t W) :
  Dict.keys d' = Dict.keys d -> dict_ok d -> dict_ok d'.
Proof. unfold dict_ok. intros ->. trivial. Qed.

Lemma dict_ok_set k v d : lower k = k -> dict_ok d -> dict_ok (Dict.set k v d).
Proof.
  intros Hk [Hnd Hlow]. split; [apply NoDup_keys_set, Hnd|].
  rewrite keys_set. destruct (Dict.mem k d); [exact Hlow|].
  apply Forall_app. split; [exact Hlow|]. constructor; [exact Hk|constructor].
Qed.

Lemma dict_ok_set_present k v v' d :
  Dict.get k d = Some v' -> dict_ok d -> dict_ok (Dict.set k v d).
Proof.
  intros H. apply dict_ok_same_keys. apply (keys_set_present _ _ _ _ H).
Qed.

Lemma keys_del_incl k d x : In x (Dict.keys (Dict.del k d)) -> In x (Dict.keys d).
Proof.
  induction d as [|[k0 v0] d IH]; simpl; [trivial|].
  destruct (String.eqb k k0); simpl; [intros H; right; exact H|].
  intros [H|H]; [left; exact H|right; apply IH, H].
Qed.

Lemma NoDup_keys_del k d : NoDup (Dict.keys d) -> NoDup (Dict.keys (Dict.del k d)).
Proof.
  induction d as [|[k0 v0] d IH]; simpl; [trivial|].
  intros H. inversion H as [|? ? Hn Hd]; subst.
  destruct (String.eqb k k0); simpl; [exact Hd|].
  constructor; [|apply IH, Hd].
  intros Hin. apply Hn. apply (keys_del_incl _ _ _ Hin).
Qed.

Lemma Forall_del (P : string * V -> Prop) k d :
  Forall P d -> Forall P (Dict.del k d).
Proof.
  induction 1 as [|[k0 v0] d H0 Hd IH]; simpl; [constructor|].
  destruct (String.eqb k k0); [exact Hd|]. constructor; assumption.
Qed.

Lemma Forall_keys_del (P : string -> Prop) k d :
  Forall P (Dict.keys d) -> Forall P (Dict.keys (Dict.del k d)).
Proof.
  intros H. rewrite Forall_forall in *. intros x Hx.
  apply H, (keys_del_incl _ _ _ Hx).
Qed.

Lemma dict_ok_del k d : dict_ok d -> dict_ok (Dict.del k d).
Proof.
  intros [Hnd Hlow]. split; [apply NoDup_keys_del, Hnd|].
  apply Forall_keys_del, Hlow.
Qed.

(** Once the key is deleted from a dictionary in which it occurs once,
    it is not found. *)
Lemma get_del_same k d : NoDup (Dict.keys d) -> Dict.get k (Dict.del k d) = None.
Proof.
  induction d as [|[k0 v0] d IH]; simpl; [reflexivity|].
  intros H. inversion H as [|? ? Hn Hd]; subst.
  destruct (String.eqb_spec k k0) as [->|Hne].
  - apply mem_false_get, mem_false_not_in, Hn.
  - simpl. destruct (String.eqb_spec k k0); [contradiction|]. apply IH, Hd.
Qed.

Lemma get_del_other k k' d : k' <> k -> Dict.get k' (Dict.del k d) = Dict.get k' d.
Proof.
  intros Hne. induction d as [|[k0 v0] d IH]; simpl; [reflexivity|].
  destruct (String.eqb_spec k k0) as [->|]; simpl.
  - destruct (String.eqb_spec k' k0); [contradiction|reflexivity].
  - rewrite IH. reflexivity.
Qed.

End DictOk.

Section SecsOk.
Context {V : Type}.
Implicit Types (secs : Dict.t (Dict.t V)) (d : Dict.t V).

Lemma secs_ok_nil : secs_ok (@nil (string * Dict.t V)).
Proof. split; [constructor|]. split; [intros []|constructor]. Qed.

Lemma secs_ok_set name d secs :
  name <> "DEFAULT" -> dict_ok d -> secs_ok secs ->
  secs_ok (Dict.set name d secs).
Proof.
  intros Hn Hd (Hnd & Hdef & Hall). split; [apply NoDup_keys_set, Hnd|]. split.
  - rewrite keys_set. destruct (Dict.mem name secs); [exact Hdef|].
    intros Hin. apply in_app_or in Hin as [Hin | [Hin | []]];
      [exact (Hdef Hin) | exact (Hn Hin)].
  - apply Forall_set; assumption.
Qed.

Lemma secs_ok_del name secs : secs_ok secs -> secs_ok (Dict.del name secs).
Proof.
  intros (Hnd & Hdef & Hall). split; [apply NoDup_keys_del, Hnd|]. split.
  - intros Hin. apply Hdef, (keys_del_incl _ _ _ Hin).
  - apply Forall_del, Hall.
Qed.

Lemma secs_ok_get name d secs :
  secs_ok secs -> Dict.get name secs = Some d -> dict_ok d /\ name <> "DEFAULT".
Proof.
  intros (_ & Hdef & Hall) Hget. split.
  - apply (Forall_get (fun sec => dict_ok (snd sec)) _ _ _ Hall Hget).
  - intros ->. apply Hdef.
    destruct (Dict.mem "DEFAULT" secs) eqn:Hm.
    + destruct (in_dec string_dec "DEFAULT" (Dict.keys secs)) as [Hin|Hin];
        [exact Hin|].
      apply mem_false_not_in in Hin. congruence.
    + apply mem_false_get in Hm. congruence.
Qed.

End SecsOk.

(** *** While a file is read *)

Lemma cursect_dict_ok rs c : reader_ok rs -> dict_ok (configparser.cursect_dict rs c).
Proof.
  intros (Hs & Hd & _). destruct c as [|name]; simpl; [exact Hd|].
  destruct (Dict.get name (configparser.r_sections rs)) as [d|] eqn:E.
  - apply (secs_ok_get _ _ _ Hs E).
  - apply dict_ok_nil.
Qed.

Lemma reader_ok_with_cursect_dict rs c d :
  reader_ok rs -> configparser.cursect rs = Some c -> dict_ok d ->
  reader_ok (configparser.with_cursect_dict rs c d).
Proof.
  intros (Hs & Hd & Hc) E Hok. destruct c as [|name]; simpl.
  - split; [exact Hs|]. split; [exact Hok|exact Hc].
  - split; [|split; [exact Hd|exact Hc]].
    apply secs_ok_set; [|exact Hok|exact Hs].
    intros ->. apply Hc, E.
Qed.

Lemma reader_ok_cursect_append rs c o v :
  reader_ok rs -> configparser.cursect rs = Some c ->
  reader_ok (configparser.cursect_append rs c o v).
Proof.
  intros H E. unfold configparser.cursect_append.
  destruct (Dict.get o (configparser.cursect_dict rs c)) as [l|] eqn:El;
    [|exact H].
  apply reader_ok_with_cursect_dict; [exact H|exact E|].
  apply (dict_ok_set_present _ _ _ _ El), cursect_dict_ok, H.
Qed.

Lemma read_entry_ok rs value indent rs' :
  reader_ok rs -> configparser.read_entry rs value indent = Ret rs' ->
  reader_ok rs'.
Proof.
  intros H. pose proof H as (Hs & Hd & Hc). unfold configparser.read_entry.
  destruct (configparser.SECTCRE_match value) as [name|].
  - destruct (Dict.mem name (configparser.r_sections rs)) eqn:Hm.
    + destruct (existsb _ _); [discriminate|]. intros [= <-].
      split; [exact Hs|]. split; [exact Hd|]. simpl. intros [= ->].
      destruct (mem_true_get _ _ Hm) as [d Hget].
      apply (secs_ok_get _ _ _ Hs Hget). reflexivity.
    + destruct (String.eqb_spec name configparser.default_section) as [->|Hne];
        intros [= <-].
      * split; [exact Hs|]. split; [exact Hd|]. simpl. discriminate.
      * split; [|split; [exact Hd|]]; simpl.
        -- apply secs_ok_set; [exact Hne|apply dict_ok_nil|exact Hs].
        -- intros [= ->]. apply Hne. reflexivity.
  - destruct (configparser.cursect rs) as [c|] eqn:E; [|discriminate].
    destruct (configparser.OPTCRE_match value) as [[[o vi] optval]|].
    + cbv zeta. destruct (existsb _ _); [discriminate|]. intros [= <-].
      apply reader_ok_with_cursect_dict; [|reflexivity|].
      * split; [exact Hs|]. split; [exact Hd|exact Hc].
      * apply dict_ok_set; [apply lower_idem|].
        apply (cursect_dict_ok rs c H).
    + intros [= <-]. split; [exact Hs|]. split; [exact Hd|exact Hc].
Qed.

Lemma read_line_ok rs line rs' :
  reader_ok rs -> configparser.read_line rs line = Ret rs' -> reader_ok rs'.
Proof.
  intros H. unfold configparser.read_line.
  destruct (_ || _); [intros [= <-]; exact H|].
  destruct (String.eqb (strip line) "").
  { destruct (configparser.cursect rs) as [c|] eqn:E;
      [destruct (configparser.truthy _)|]; intros [= <-]; try exact H.
    apply reader_ok_cursect_append; assumption. }
  destruct (configparser.cursect rs) as [c|] eqn:E;
    [destruct (configparser.truthy _); [destruct (_ <? _)%nat|]|];
    try apply (read_entry_ok _ _ _ _ H).
  intros [= <-]. apply reader_ok_cursect_append; assumption.
Qed.

Lemma read_lines_ok fp :
  forall rs rs',
    reader_ok rs -> configparser.read_lines rs fp = Ret rs' -> reader_ok rs'.
Proof.
  induction fp as [|line fp IH]; intros rs rs' H; simpl.
  - intros [= <-]. exact H.
  - destruct (configparser.read_line rs line) as [rs1|x] eqn:E; [|discriminate].
    apply IH. apply (read_line_ok _ _ _ H E).
Qed.

Lemma join_values_keys d : Dict.keys (configparser.join_values d) = Dict.keys d.
Proof.
  unfold configparser.join_values, Dict.keys. rewrite map_map. reflexivity.
Qed.

Lemma secs_ok_joined (secs : Dict.t (Dict.t (list string))) :
  secs_ok secs ->
  secs_ok (map (fun so => (fst so, configparser.join_values (snd so))) secs).
Proof.
  intros (Hnd & Hdef & Hall).
  assert (Hk : Dict.keys (map (fun so : string * Dict.t (list string) =>
                                 (fst so, configparser.join_values (snd so)))
                              secs) = Dict.keys secs)
    by (unfold Dict.keys; rewrite map_map; reflexivity).
  split; [rewrite Hk; exact Hnd|]. split; [rewrite Hk; exact Hdef|].
  clear Hk Hnd Hdef. induction Hall as [|[name d] secs H0 _ IH]; simpl;
    constructor; [|exact IH].
  simpl in *. apply (dict_ok_same_keys d); [apply join_values_keys|exact H0].
Qed.

Lemma _read_ok fp cfg : configparser._read fp = Ret cfg -> store_ok cfg.
Proof.
  unfold configparser._read.
  assert (H0 : reader_ok (configparser.mkReader [] [] [] None None None 0 false))
    by (split; [apply secs_ok_nil|split; [apply dict_ok_nil|discriminate]]).
  destruct (configparser.read_lines _ fp) as [rs|x] eqn:E; [|discriminate].
  destruct (configparser.e rs); [discriminate|]. intros [= <-].
  destruct (read_lines_ok _ _ _ H0 E) as (Hs & Hd & _).
  split; simpl.
  - apply secs_ok_joined, Hs.
  - apply (dict_ok_same_keys (configparser.r_defaults rs));
      [apply join_values_keys|exact Hd].
Qed.

(** *** After each method *)

Lemma store_ok_new : store_ok configparser.new.
Proof. split; [apply secs_ok_nil|apply dict_ok_nil]. Qed.

Lemma store_ok_init fs path : store_ok (config (__init__ fs path)).
Proof.
  unfold __init__, _load_config, configparser.read. simpl.
  destruct (os.open_r fs path) as [fp|x]; [|apply store_ok_new].
  destruct (configparser._read fp) as [cfg|x] eqn:E; [|apply store_ok_new].
  apply (_read_ok _ _ E).
Qed.

Lemma store_ok_add_section cfg section cfg' :
  store_ok cfg -> configparser.add_section cfg section = Ret cfg' ->
  store_ok cfg'.
Proof.
  unfold configparser.add_section. intros [Hs Hd].
  destruct (String.eqb_spec section configparser.default_section);
    [discriminate|].
  destruct (Dict.mem section (configparser._sections cfg)); [discriminate|].
  intros [= <-]. split; [|exact Hd]. simpl.
  apply secs_ok_set; [assumption|apply dict_ok_nil|exact Hs].
Qed.

Lemma store_ok_set cfg section option value cfg' :
  store_ok cfg -> configparser.set cfg section option value = Ret cfg' ->
  store_ok cfg'.
Proof.
  unfold configparser.set, configparser.optionxform. intros [Hs Hd].
  destruct (if String.eqb value "" then Ret value
            else configparser.before_set value) as [v|]; [|discriminate].
  destruct (String.eqb section "" || String.eqb section configparser.default_section).
  - intros [= <-]. split; [exact Hs|]. simpl.
    apply dict_ok_set; [apply lower_idem|exact Hd].
  - destruct (Dict.get section (configparser._sections cfg)) as [sd|] eqn:E;
      [|discriminate].
    intros [= <-]. split; [|exact Hd]. simpl.
    destruct (secs_ok_get _ _ _ Hs E) as [Hsd Hne].
    apply secs_ok_set; [exact Hne| |exact Hs].
    apply dict_ok_set; [apply lower_idem|exact Hsd].
Qed.

Lemma store_ok_add_key (s : self) section key value :
  store_ok (config s) -> store_ok (config (snd (add_key s section key value))).
Proof.
  intros H. unfold add_key.
  destruct (if negb (configparser.has_section (config s) section)
            then configparser.add_section (config s) section
            else Ret (config s)) as [cfg|x] eqn:E; [|exact H].
  assert (Hcfg : store_ok cfg).
  { destruct (negb (configparser.has_section (config s) section)).
    - apply (store_ok_add_section _ _ _ H E).
    - injection E as <-. exact H. }
  destruct (configparser.set cfg section key (str value)) as [cfg'|x] eqn:E';
    [|exact Hcfg].
  apply (store_ok_set _ _ _ _ _ Hcfg E').
Qed.

Lemma store_ok_remove_key (s : self) section key :
  store_ok (config s) -> store_ok (config (snd (remove_key s section key))).
Proof.
  intros H. pose proof H as [Hs Hd].
  unfold remove_key, configparser.remove_option.
  destruct (configparser.has_option (config s) section key); [|exact H].
  destruct (String.eqb section "" || String.eqb section configparser.default_section).
  - simpl. destruct (Dict.mem _ _); [|exact H].
    split; [exact Hs|]. simpl. apply dict_ok_del, Hd.
  - destruct (Dict.get section _) as [sd|] eqn:E; [|exact H]. simpl.
    destruct (Dict.mem _ sd); [|exact H].
    destruct (secs_ok_get _ _ _ Hs E) as [Hsd Hne].
    split; [|exact Hd]. simpl.
    apply secs_ok_set; [exact Hne|apply dict_ok_del, Hsd|exact Hs].
Qed.

Lemma store_ok_remove_section (s : self) section :
  store_ok (config s) -> store_ok (config (snd (remove_section s section))).
Proof.
  intros H. pose proof H as [Hs Hd].
  unfold remove_section, configparser.remove_section, configparser.has_section.
  destruct (Dict.mem section _); [|exact H]. simpl.
  split; [|exact Hd]. simpl. apply secs_ok_del, Hs.
Qed.

Lemma store_ok_run (s : self) (c : call) :
  store_ok (config s) -> store_ok (config (run s c)).
Proof.
  destruct c; simpl;
    [apply store_ok_add_key|apply store_ok_remove_key
     |apply store_ok_remove_section].
Qed.

(** Every store that the class can produce is made of proper
    dictionaries. *)
Lemma reachable_ok (s : self) : reachable s -> store_ok (config s).
Proof.
  induction 1 as [fs path|s c _ IH]; [apply store_ok_init|].
  apply store_ok_run, IH.
Qed.

(** ** The section [DEFAULT] is never created *)

(** For every store that the class can produce, [has_section('DEFAULT')]
    is false, so that [add_key('DEFAULT', key, value)] raises
    [ValueError] for every key and value and changes nothing. *)
Theorem default_section_never_exists (s : self) :
  reachable s ->
  configparser.has_section (config s) "DEFAULT" = false
  /\ forall key value, add_key s "DEFAULT" key value = (Raise ValueError, s).
Proof.
  intros Hr. destruct (reachable_ok s Hr) as [(_ & Hdef & _) _].
  assert (Hm : configparser.has_section (config s) "DEFAULT" = false)
    by (apply mem_false_not_in, Hdef).
  split; [exact Hm|]. intros key value. unfold add_key. rewrite Hm.
  reflexivity.
Qed.

(** After a file with a [DEFAULT] block has been loaded and a key has
    been added. *)
Lemma default_section_never_exists_witness :
  let fs := os.mkFileSystem
              [("config.ini", "[DEFAULT]" ++ configparser.nl
                              ++ "a = 1" ++ configparser.nl)] [] in
  let s := run (__init__ fs "config.ini") (AddKey "S" "k" (PStr "v")) in
  configparser._defaults (config s) = [("a", "1")]
  /\ add_key s "DEFAULT" "k" (PStr "v") = (Raise ValueError, s).
Proof.
  split; [reflexivity|].
  apply (default_section_never_exists
           (run (__init__ (os.mkFileSystem
                             [("config.ini", "[DEFAULT]" ++ configparser.nl
                                             ++ "a = 1" ++ configparser.nl)] [])
                          "config.ini")
                (AddKey "S" "k" (PStr "v")))).
  apply reach_call, reach_init.
Defined.

(** ** [add_key] raises [ValueError] or nothing *)

Lemma has_section_get cfg section :
  configparser.has_section cfg section = true ->
  exists sd, Dict.get section (configparser._sections cfg) = Some sd.
Proof. apply mem_true_get. Qed.

Lemma set_outcome cfg section option value :
  (String.eqb section "" || String.eqb section configparser.default_section = true
   \/ configparser.has_section cfg section = true) ->
  (exists cfg', configparser.set cfg section option value = Ret cfg')
  \/ configparser.set cfg section option value = Raise ValueError.
Proof.
  intros H. unfold configparser.set.
  destruct (if String.eqb value "" then Ret value
            else configparser.before_set value) as [v|x] eqn:E.
  - left.
    destruct (String.eqb section "" || String.eqb section configparser.default_section);
      [eauto|].
    destruct H as [H|H]; [discriminate|].
    destruct (has_section_get _ _ H) as [sd ->]. eauto.
  - right. destruct (String.eqb value ""); [discriminate|].
    unfold configparser.before_set in E.
    destruct (contains "%" _); [|discriminate]. injection E as <-. reflexivity.
Qed.

(** For every store and all arguments, [add_key] returns or raises
    [ValueError]: the [DuplicateSectionError] of [add_section] and the
    [NoSectionError] of [set] cannot occur, since the section is added
    exactly when it is missing. *)
Theorem add_key_raises_only_ValueError (s : self) (section key : string)
    (value : pyvalue) :
  fst (add_key s section key value) = Ret tt
  \/ fst (add_key s section key value) = Raise ValueError.
Proof.
  unfold add_key.
  destruct (configparser.has_section (config s) section) eqn:Hm; simpl.
  - destruct (set_outcome (config s) section key (str value)
                (or_intror Hm)) as [[cfg' ->] | ->]; [left|right]; reflexivity.
  - unfold configparser.add_section.
    destruct (String.eqb section configparser.default_section) eqn:Hd;
      [right; reflexivity|].
    unfold configparser.has_section in Hm. rewrite Hm.
    destruct (set_outcome
                (configparser.mkConfigParser
                   (Dict.set section [] (configparser._sections (config s)))
                   (configparser._defaults (config s)))
                section key (str value)) as [[cfg' ->] | ->];
      [|left; reflexivity|right; reflexivity].
    right. unfold configparser.has_section. simpl. apply mem_set_same.
Qed.

(** ** [add_key] twice *)

Section SetTwice.
Context {V : Type}.
Implicit Types (d : Dict.t V) (k : string) (v : V).

Lemma set_set_same k v v' d : Dict.set k v (Dict.set k v' d) = Dict.set k v d.
Proof.
  induction d as [|[k0 v0] d IH]; simpl.
  - rewrite String.eqb_refl. reflexivity.
  - destruct (String.eqb k k0) eqn:E; simpl; rewrite E; [reflexivity|].
    rewrite IH. reflexivity.
Qed.

Lemma mem_set_present k k' v v' d :
  Dict.get k d = Some v' -> Dict.mem k' (Dict.set k v d) = Dict.mem k' d.
Proof.
  intros H. unfold Dict.mem.
  destruct (String.eqb_spec k' k) as [->|Hne].
  - rewrite get_set_same, H. reflexivity.
  - rewrite get_set_other by exact Hne. reflexivity.
Qed.

End SetTwice.

Lemma set_twice cfg section option value cfg' :
  configparser.set cfg section option value = Ret cfg' ->
  configparser.set cfg' section option value = Ret cfg'
  /\ forall name, configparser.has_section cfg' name
                  = configparser.has_section cfg name.
Proof.
  unfold configparser.set, configparser.has_section.
  destruct (if String.eqb value "" then Ret value
            else configparser.before_set value) as [v|x]; [|discriminate].
  destruct (String.eqb section "" || String.eqb section configparser.default_section).
  - intros [= <-]. simpl. rewrite set_set_same. split; reflexivity.
  - destruct (Dict.get section (configparser._sections cfg)) as [sd|] eqn:E;
      [|discriminate].
    intros [= <-]. simpl. rewrite get_set_same, !set_set_same.
    split; [reflexivity|]. intros name. apply (mem_set_present _ _ _ _ _ E).
Qed.

Lemma set_raise_again cfg section option value x :
  configparser.has_section cfg section = true ->
  configparser.set cfg section option value = Raise x ->
  forall cfg', configparser.has_section cfg' section = true ->
               configparser.set cfg' section option value = Raise x.
Proof.
  unfold configparser.set. intros Hm.
  destruct (if String.eqb value "" then Ret value
            else configparser.before_set value) as [v|y]; [|trivial].
  destruct (String.eqb section "" || String.eqb section configparser.default_section);
    [discriminate|].
  destruct (has_section_get _ _ Hm) as [sd ->]. discriminate.
Qed.

(** For every store and all arguments, a second [add_key] call with the
    same arguments ends as the first and leaves the store as the first
    left it. *)
Theorem add_key_idempotent (s : self) (section key : string) (value : pyvalue) :
  add_key (snd (add_key s section key value)) section key value
  = add_key s section key value.
Proof.
  destruct s as [path cfg].
  assert (Hagain : forall cfg1 r,
             configparser.has_section cfg1 section = true ->
             (match configparser.set cfg1 section key (str value) with
              | Ret cfg' => (Ret tt, mkSelf path cfg')
              | Raise x => (Raise x, mkSelf path cfg1)
              end) = r ->
             add_key (snd r) section key value = r).
  { intros cfg1 r Hm1 <-.
    destruct (configparser.set cfg1 section key (str value)) as [cfg'|x] eqn:E;
      cbn [snd]; unfold add_key; cbn [config config_file_path].
    - destruct (set_twice _ _ _ _ _ E) as [E' Hs].
      rewrite Hs, Hm1. cbn [negb]. rewrite E'. reflexivity.
    - rewrite Hm1. cbn [negb]. rewrite E. reflexivity. }
  unfold add_key at 2 3. cbn [config config_file_path].
  destruct (configparser.has_section cfg section) eqn:Hm; cbn [negb].
  - apply (Hagain cfg _ Hm eq_refl).
  - destruct (configparser.add_section cfg section) as [cfg1|x] eqn:Ea.
    + apply (Hagain cfg1 _); [|reflexivity].
      destruct (has_section_add_section _ _ _ Ea) as [Hsec _].
      unfold configparser.has_section. rewrite Hsec. apply mem_set_same.
    + cbn [snd]. unfold add_key. cbn [config config_file_path].
      rewrite Hm. cbn [negb]. rewrite Ea. reflexivity.
Qed.

(** ** [remove_key] does not raise *)

(** For every store and all arguments, [remove_key] returns a boolean:
    [remove_option] is called only after [has_option] has found the
    section, so its [NoSectionError] cannot occur. *)
Theorem remove_key_never_raises (s : self) (section key : string) :
  exists b, fst (remove_key s section key) = Ret b.
Proof.
  unfold remove_key, configparser.has_option, configparser.remove_option.
  destruct (String.eqb section "" || String.eqb section configparser.default_section).
  - destruct (Dict.mem _ _); eexists; reflexivity.
  - destruct (Dict.mem section (configparser._sections (config s))) eqn:Hm;
      cbn [negb]; [|eexists; reflexivity].
    destruct (Dict.get section (configparser._sections (config s)));
      [|eexists; reflexivity].
    destruct (_ || _); eexists; reflexivity.
Qed.

(** ** What a call leaves alone *)

(** The lookups in a section depend on the dictionary of that section
    and on the defaults only. *)
Lemma lookup_frame (s s' : self) (name : string) :
  configparser._defaults (config s') = configparser._defaults (config s) ->
  Dict.get name (configparser._sections (config s'))
  = Dict.get name (configparser._sections (config s)) ->
  (forall key default, get_key s' name key default = get_key s name key default)
  /\ get_section s' name = get_section s name.
Proof.
  intros Hd Hg. split.
  - intros key default.
    unfold get_key, configparser.get, configparser._unify_values.
    rewrite Hd, Hg. reflexivity.
  - unfold get_section, configparser.has_section, configparser.items, Dict.mem.
    rewrite Hd, Hg. reflexivity.
Qed.

(** For every store, [add_key] on a section other than [DEFAULT] and
    the empty name, whether it returns or raises, changes no lookup in
    another section: [get_key] and [get_section] of every other name
    give what they gave before. *)
Theorem add_key_other_sections (s : self) (section key : string)
    (value : pyvalue) (name : string) :
  section <> "DEFAULT" -> section <> "" -> name <> section ->
  (forall key' default,
      get_key (snd (add_key s section key value)) name key' default
      = get_key s name key' default)
  /\ get_section (snd (add_key s section key value)) name = get_section s name.
Proof.
  intros Hd He Hn.
  destruct (add_key_cases s section key value Hd He)
    as (sd & secs & -> & _ & Hc).
  assert (Hsecs : Dict.get name secs
                  = Dict.get name (configparser._sections (config s))).
  { destruct Hc as [[_ ->] | (_ & _ & ->)]; [reflexivity|].
    apply get_set_other, Hn. }
  apply lookup_frame; destruct (accepted (str value)); cbn [snd config];
    try reflexivity; cbn [configparser._sections]; [|exact Hsecs].
  rewrite get_set_other by exact Hn. exact Hsecs.
Qed.

Lemma add_key_other_sections_witness :
  let s := run (__init__ (os.mkFileSystem [] []) "config.ini")
               (AddKey "Database" "port" (PInt 5432)) in
  get_section (snd (add_key s "API" "port" (PInt 80))) "Database"
  = get_section s "Database".
Proof.
  apply (add_key_other_sections
           (run (__init__ (os.mkFileSystem [] []) "config.ini")
                (AddKey "Database" "port" (PInt 5432)))
           "API" "port" (PInt 80) "Database"); discriminate.
Defined.

(** ** A value that [set] rejects *)

(** For every store and every section name other than [DEFAULT] and
    the empty name: when the value does not pass the test of [set],
    [add_key] raises [ValueError]; the section exists afterwards, since
    it is created before the value is looked at; and when the section
    existed already the store is unchanged, so that an earlier value of
    the key stays. *)
Theorem add_key_rejected (s : self) (section key : string) (value : pyvalue) :
  section <> "DEFAULT" -> section <> "" ->
  accepted (str value) = false ->
  fst (add_key s section key value) = Raise ValueError
  /\ configparser.has_section
       (config (snd (add_key s section key value))) section = true
  /\ (configparser.has_section (config s) section = true ->
      snd (add_key s section key value) = s).
Proof.
  intros Hd He Ha.
  destruct (add_key_cases s section key value Hd He)
    as (sd & secs & -> & Hsd & Hc).
  rewrite Ha. cbn [fst snd config]. split; [reflexivity|]. split.
  - unfold configparser.has_section, Dict.mem. cbn [configparser._sections].
    rewrite Hsd. reflexivity.
  - intros Hm. destruct Hc as [[_ ->] | (Hm' & _)]; [|congruence].
    destruct s as [path [secs0 defs]]. reflexivity.
Qed.

Lemma add_key_rejected_witness :
  let s := run (__init__ (os.mkFileSystem [] []) "config.ini")
               (AddKey "S" "rate" (PStr "5")) in
  fst (add_key s "S" "rate" (PStr "50%")) = Raise ValueError
  /\ get_key (snd (add_key s "S" "rate" (PStr "50%"))) "S" "rate" PNone
     = PStr "5"
  /\ configparser.has_section
       (config (snd (add_key s "New" "rate" (PStr "50%")))) "New" = true.
Proof.
  pose proof (add_key_rejected
                (run (__init__ (os.mkFileSystem [] []) "config.ini")
                     (AddKey "S" "rate" (PStr "5")))
                "S" "rate" (PStr "50%")) as H1.
  pose proof (add_key_rejected
                (run (__init__ (os.mkFileSystem [] []) "config.ini")
                     (AddKey "S" "rate" (PStr "5")))
                "New" "rate" (PStr "50%")) as H2.
  destruct H1 as (Hr & _ & Hs); [discriminate|discriminate|reflexivity|].
  destruct H2 as (_ & Hn & _); [discriminate|discriminate|reflexivity|].
  split; [exact Hr|]. split; [|exact Hn].
  cbv zeta. rewrite (Hs eq_refl). reflexivity.
Defined.

(** ** Removing a key *)

(** For every store that the class can produce, every section name
    other than [DEFAULT] and the empty name, and every key that the
    section holds itself (under its lower-case form): [remove_key]
    returns [True], the section still exists (also when it has become
    empty), its dictionary has lost the key and nothing else, and
    [get_key] returns the default for the key unless the defaults hold
    it. *)
Theorem remove_key_removes (s : self) (section key : string) (sd : Dict.t string) :
  reachable s ->
  section <> "DEFAULT" -> section <> "" ->
  Dict.get section (configparser._sections (config s)) = Some sd ->
  Dict.mem (lower key) sd = true ->
  fst (remove_key s section key) = Ret true
  /\ configparser.has_section (config (snd (remove_key s section key))) section
     = true
  /\ Dict.get section (configparser._sections (config (snd (remove_key s section key))))
     = Some (Dict.del (lower key) sd)
  /\ (Dict.mem (lower key) (configparser._defaults (config s)) = false ->
      forall default,
        get_key (snd (remove_key s section key)) section key default = default).
Proof.
  intros Hr Hd He Hsd Hk.
  destruct (reachable_ok s Hr) as [Hs _].
  destruct (secs_ok_get _ _ _ Hs Hsd) as [[Hnd _] _].
  unfold remove_key, configparser.has_option, configparser.remove_option,
    configparser.optionxform, configparser.default_section.
  destruct (String.eqb_spec section ""); [contradiction|].
  destruct (String.eqb_spec section "DEFAULT"); [contradiction|].
  assert (Hm : Dict.mem section (configparser._sections (config s)) = true)
    by (unfold Dict.mem; rewrite Hsd; reflexivity).
  cbn [orb]. rewrite Hm, Hsd. cbn [negb]. rewrite Hk.
  cbn [orb fst snd config configparser._sections configparser._defaults].
  split; [reflexivity|]. split; [apply mem_set_same|].
  split; [apply get_set_same|].
  intros Hdef default.
  unfold get_key, configparser.get, configparser._unify_values,
    configparser.ChainMap, configparser.optionxform.
  cbn [config configparser._sections configparser._defaults].
  rewrite get_set_same, (get_del_same _ _ Hnd), (mem_false_get _ _ Hdef).
  reflexivity.
Qed.

Lemma remove_key_removes_witness :
  let s := run (__init__ (os.mkFileSystem [] []) "config.ini")
               (AddKey "Database" "host" (PStr "localhost")) in
  fst (remove_key s "Database" "HOST") = Ret true
  /\ get_section (snd (remove_key s "Database" "HOST")) "Database" = Ret [].
Proof.
  split; [|reflexivity].
  apply (remove_key_removes
           (run (__init__ (os.mkFileSystem [] []) "config.ini")
                (AddKey "Database" "host" (PStr "localhost")))
           "Database" "HOST" [("host", "localhost")]);
    [apply reach_call, reach_init | discriminate | discriminate
     | reflexivity | reflexivity].
Defined.

(** For every store, every existing section other than [DEFAULT] and
    the empty name, and every key that the section does not hold itself
    but the defaults do: [remove_key] returns [True] although it removes
    nothing; the store is unchanged. *)
Theorem remove_key_of_default (s : self) (section key : string)
    (sd : Dict.t string) :
  section <> "DEFAULT" -> section <> "" ->
  Dict.get section (configparser._sections (config s)) = Some sd ->
  Dict.mem (lower key) sd = false ->
  Dict.mem (lower key) (configparser._defaults (config s)) = true ->
  remove_key s section key = (Ret true, s).
Proof.
  intros Hd He Hsd Hk Hdef.
  unfold remove_key, configparser.has_option, configparser.remove_option,
    configparser.optionxform, configparser.default_section.
  destruct (String.eqb_spec section ""); [contradiction|].
  destruct (String.eqb_spec section "DEFAULT"); [contradiction|].
  assert (Hm : Dict.mem section (configparser._sections (config s)) = true)
    by (unfold Dict.mem; rewrite Hsd; reflexivity).
  cbn [orb]. rewrite Hm, Hsd. cbn [negb]. rewrite Hk, Hdef.
  cbn [orb]. destruct s as [path cfg]. reflexivity.
Qed.

Lemma remove_key_of_default_witness :
  let fs := os.mkFileSystem
              [("config.ini", "[DEFAULT]" ++ configparser.nl
                              ++ "a = 1" ++ configparser.nl
                              ++ "[S]" ++ configparser.nl)] [] in
  remove_key (__init__ fs "config.ini") "S" "a"
  = (Ret true, __init__ fs "config.ini")
  /\ get_key (__init__ fs "config.ini") "S" "a" PNone = PStr "1".
Proof.
  split; [|reflexivity].
  apply (remove_key_of_default
           (__init__ (os.mkFileSystem
                        [("config.ini", "[DEFAULT]" ++ configparser.nl
                                        ++ "a = 1" ++ configparser.nl
                                        ++ "[S]" ++ configparser.nl)] [])
                     "config.ini")
           "S" "a" []);
    [discriminate | discriminate | reflexivity | reflexivity | reflexivity].
Defined.

(** ** Removing a section *)

(** For every store that the class can produce and every name:
    [remove_section] returns what [has_section] said; afterwards the
    section does not exist and [get_section] gives the empty mapping for
    it; the lookups in every other section are unchanged. *)
Theorem remove_section_removes (s : self) (section : string) :
  reachable s ->
  fst (remove_section s section) = configparser.has_section (config s) section
  /\ configparser.has_section (config (snd (remove_section s section))) section
     = false
  /\ get_section (snd (remove_section s section)) section = Ret []
  /\ forall name,
       name <> section ->
       (forall key default,
           get_key (snd (remove_section s section)) name key default
           = get_key s name key default)
       /\ get_section (snd (remove_section s section)) name = get_section s name.
Proof.
  intros Hr. destruct (reachable_ok s Hr) as [(Hnd & _) _].
  assert (Hgone : configparser.has_section
                    (config (snd (remove_section s section))) section = false).
  { unfold remove_section, configparser.remove_section,
      configparser.has_section.
    destruct (Dict.mem section (configparser._sections (config s))) eqn:Hm;
      cbn [snd config configparser._sections]; [|exact Hm].
    unfold Dict.mem. rewrite (get_del_same _ _ Hnd). reflexivity. }
  split; [|split; [exact Hgone|split]].
  - unfold remove_section.
    destruct (configparser.has_section (config s) section); reflexivity.
  - unfold get_section. rewrite Hgone. reflexivity.
  - intros name Hn. apply lookup_frame;
      unfold remove_section, configparser.remove_section,
        configparser.has_section;
      destruct (Dict.mem section (configparser._sections (config s)));
      cbn [snd config configparser._sections configparser._defaults];
      try reflexivity.
    apply get_del_other, Hn.
Qed.

Lemma remove_section_removes_witness :
  let s := run_all (__init__ (os.mkFileSystem [] []) "config.ini")
             [AddKey "Features" "max_retries" (PInt 5);
              AddKey "Database" "port" (PInt 5432)] in
  get_section (snd (remove_section s "Features")) "Features" = Ret []
  /\ get_section (snd (remove_section s "Features")) "Database"
     = Ret [("port", "5432")].
Proof.
  destruct (remove_section_removes
              (run_all (__init__ (os.mkFileSystem [] []) "config.ini")
                 [AddKey "Features" "max_retries" (PInt 5);
                  AddKey "Database" "port" (PInt 5432)])
              "Features") as (_ & _ & Hs & Hf);
    [apply reach_call, reach_call, reach_init|].
  split; [exact Hs|].
  destruct (Hf "Database") as [_ ->]; [discriminate|reflexivity].
Defined.

(** ** The defaults show in every section *)



(** ** [get_section] and [get_key] *)

Section UpdateFacts.
Context {V : Type}.
Implicit Types (d o : Dict.t V) (k : string).

Lemma get_not_in k d : ~ In k (Dict.keys d) -> Dict.get k d = None.
Proof. intros H. apply mem_false_get, mem_false_not_in, H. Qed.

Lemma get_in_keys k d v : Dict.get k d = Some v -> In k (Dict.keys d).
Proof.
  intros H. destruct (in_dec string_dec k (Dict.keys d)) as [Hin|Hn];
    [exact Hin|].
  rewrite (get_not_in _ _ Hn) in H. discriminate.
Qed.

Lemma mem_set k k' (v : V) d :
  Dict.mem k (Dict.set k' v d) = (String.eqb k k' || Dict.mem k d)%bool.
Proof.
  unfold Dict.mem. destruct (String.eqb_spec k k') as [->|Hne].
  - rewrite get_set_same. reflexivity.
  - rewrite (get_set_other _ _ _ _ Hne). reflexivity.
Qed.

(** A lookup after [update]: the other dictionary first. *)
Lemma get_update k d o :
  NoDup (Dict.keys o) ->
  Dict.get k (Dict.update d o)
  = match Dict.get k o with Some v => Some v | None => Dict.get k d end.
Proof.
  unfold Dict.update. revert d.
  induction o as [|[k0 v0] o IH]; intros d Hnd; [reflexivity|].
  inversion Hnd as [|? ? Hk0 Hnd']; subst. cbn [fold_left fst snd].
  rewrite (IH _ Hnd'). cbn [Dict.get].
  destruct (String.eqb_spec k k0) as [->|Hne].
  - rewrite (get_not_in _ _ Hk0). apply get_set_same.
  - rewrite (get_set_other _ _ _ _ Hne). reflexivity.
Qed.

(** The order of the keys after [update]: those of the updated
    dictionary keep their places, the new ones follow in their order. *)
Lemma keys_update d o :
  NoDup (Dict.keys o) ->
  Dict.keys (Dict.update d o)
  = (Dict.keys d ++ filter (fun k => negb (Dict.mem k d)) (Dict.keys o))%list.
Proof.
  unfold Dict.update. revert d.
  induction o as [|[k0 v0] o IH]; intros d Hnd.
  - simpl. rewrite app_nil_r. reflexivity.
  - inversion Hnd as [|? ? Hk0 Hnd']; subst. cbn [fold_left fst snd].
    rewrite (IH _ Hnd'), keys_set. cbn [Dict.keys map fst filter].
    assert (Hf : filter (fun k => negb (Dict.mem k (Dict.set k0 v0 d)))
                        (map fst o)
                 = filter (fun k => negb (Dict.mem k d)) (map fst o)).
    { apply filter_ext_in. intros k Hin. rewrite mem_set.
      destruct (String.eqb_spec k k0) as [->|]; [contradiction|reflexivity]. }
    fold (Dict.keys o) in *. unfold Dict.keys in Hf |- *. rewrite Hf.
    destruct (Dict.mem k0 d); cbn [negb]; [reflexivity|].
    rewrite <- app_assoc. reflexivity.
Qed.

Lemma NoDup_keys_update d o :
  NoDup (Dict.keys d) -> NoDup (Dict.keys (Dict.update d o)).
Proof.
  unfold Dict.update. revert d.
  induction o as [|[k0 v0] o IH]; intros d H; [exact H|].
  apply IH, NoDup_keys_set, H.
Qed.

End UpdateFacts.

(** [dict] of pairs with distinct keys is these pairs. *)
Lemma dict_NoDup (l : list (string * string)) :
  NoDup (Dict.keys l) ->
  Dict.keys (dict l) = Dict.keys l
  /\ forall k, Dict.get k (dict l) = Dict.get k l.
Proof.
  intros Hnd. unfold dict. split.
  - rewrite (keys_update _ _ Hnd). cbn [Dict.keys map app].
    clear Hnd. unfold Dict.keys.
    induction (map fst l) as [|k ks IH]; [reflexivity|].
    simpl in IH |- *. rewrite IH. reflexivity.
  - intros k. rewrite (get_update _ _ _ Hnd).
    destruct (Dict.get k l); reflexivity.
Qed.

(** Interpolation looks at the values of the mapping only. *)
Lemma interpolate_loop_ext recur1 recur2 m1 m2 :
  (forall a v, recur1 a v = recur2 a v) -> (forall k, m1 k = m2 k) ->
  forall fuel accum rest,
    configparser.interpolate_loop recur1 m1 fuel accum rest
    = configparser.interpolate_loop recur2 m2 fuel accum rest.
Proof.
  intros Hr Hm. induction fuel as [|fuel IH]; intros accum rest;
    destruct rest as [|c r]; try reflexivity.
  cbn [configparser.interpolate_loop].
  generalize (String c r) as rest. clear c r. intros rest.
  destruct (find "%" rest) as [p|]; [|reflexivity]. cbv zeta.
  destruct (String.eqb _ "%"); [apply IH|].
  destruct (String.eqb _ "("); [|reflexivity].
  destruct (configparser.KEYCRE_match _) as [[name e]|]; [|reflexivity].
  rewrite Hm. destruct (m2 (configparser.optionxform name)) as [v|];
    [|reflexivity].
  destruct (contains "%" v); [|apply IH].
  rewrite Hr. destruct (recur2 _ v); [apply IH|reflexivity].
Qed.

Lemma _interpolate_some_ext m1 m2 :
  (forall k, m1 k = m2 k) ->
  forall budget accum rest,
    configparser._interpolate_some budget m1 accum rest
    = configparser._interpolate_some budget m2 accum rest.
Proof.
  intros Hm. induction budget as [|budget IH]; intros accum rest;
    [reflexivity|].
  cbn [configparser._interpolate_some].
  apply interpolate_loop_ext; [exact IH|exact Hm].
Qed.

Lemma before_get_ext raw m1 m2 :
  (forall k, m1 k = m2 k) ->
  configparser.before_get raw m1 = configparser.before_get raw m2.
Proof. intros Hm. apply _interpolate_some_ext, Hm. Qed.

(** What the comprehension of [items] yields, key by key. *)
Lemma items_of_get d ks l k :
  configparser.items_of d ks = Ret l ->
  In k ks ->
  exists raw v,
    Dict.get k d = Some raw
    /\ configparser.before_get raw (fun k => Dict.get k d) = Ret v
    /\ Dict.get k l = Some v.
Proof.
  revert l. induction ks as [|k0 ks IH]; intros l; [intros _ []|].
  cbn [configparser.items_of].
  destruct (Dict.get k0 d) as [raw0|] eqn:Hraw; [|discriminate].
  destruct (configparser.before_get raw0 _) as [v0|] eqn:Hv; [|discriminate].
  destruct (configparser.items_of d ks) as [l'|]; [|discriminate].
  intros [= <-] Hin. cbn [Dict.get].
  destruct (String.eqb_spec k k0) as [->|Hne].
  - exists raw0, v0. split; [exact Hraw|]. split; [exact Hv|reflexivity].
  - destruct Hin as [->|Hin]; [contradiction|]. apply (IH _ eq_refl Hin).
Qed.

Lemma items_of_raise d ks x :
  configparser.items_of d ks = Raise x ->
  (forall k, In k ks -> In k (Dict.keys d)) ->
  exists k raw,
    In k ks /\ Dict.get k d = Some raw
    /\ configparser.before_get raw (fun k => Dict.get k d) = Raise x.
Proof.
  induction ks as [|k0 ks IH]; [discriminate|].
  cbn [configparser.items_of]. intros H Hks.
  destruct (Dict.get k0 d) as [raw0|] eqn:Hraw.
  - destruct (configparser.before_get raw0 _) as [v0|] eqn:Hv.
    + destruct (configparser.items_of d ks) as [l'|] eqn:Hl; [discriminate|].
      destruct (IH H) as (k & raw & Hin & Hk);
        [intros k Hin; apply Hks; right; exact Hin|].
      exists k, raw. split; [right; exact Hin|exact Hk].
    + injection H as <-. exists k0, raw0.
      split; [left; reflexivity|]. split; [exact Hraw|exact Hv].
  - exfalso. assert (Hin : In k0 (Dict.keys d)) by (apply Hks; left; reflexivity).
    apply mem_false_not_in in Hin; [exact Hin|].
    unfold Dict.mem. rewrite Hraw. reflexivity.
Qed.

Lemma items_of_returns d ks :
  (forall k raw, In k ks -> Dict.get k d = Some raw ->
                 exists v, configparser.before_get raw (fun k => Dict.get k d)
                           = Ret v) ->
  (forall k, In k ks -> In k (Dict.keys d)) ->
  exists l, configparser.items_of d ks = Ret l.
Proof.
  induction ks as [|k0 ks IH]; intros Hv Hks; [exists []; reflexivity|].
  cbn [configparser.items_of].
  destruct (Dict.get k0 d) as [raw0|] eqn:Hraw.
  - destruct (Hv k0 raw0 (or_introl eq_refl) Hraw) as [v0 ->].
    destruct IH as [l ->].
    + intros k raw Hin. apply Hv. right. exact Hin.
    + intros k Hin. apply Hks. right. exact Hin.
    + eexists. reflexivity.
  - exfalso. assert (Hin : In k0 (Dict.keys d)) by (apply Hks; left; reflexivity).
    apply mem_false_not_in in Hin; [exact Hin|].
    unfold Dict.mem. rewrite Hraw. reflexivity.
Qed.

(** The dictionary that [items] builds for an existing section of a
    store in which keys are distinct. *)
Lemma unified_lookup (defaults sd : Dict.t string) :
  NoDup (Dict.keys sd) ->
  forall k, Dict.get k (Dict.update defaults sd)
            = configparser.ChainMap sd defaults k.
Proof. intros Hnd k. apply get_update, Hnd. Qed.

Lemma interpolate_loop_errors recur m :
  (forall a v x, recur a v = Raise x ->
     x = InterpolationSyntaxError \/ x = InterpolationMissingOptionError
     \/ x = InterpolationDepthError) ->
  forall fuel accum rest x,
    configparser.interpolate_loop recur m fuel accum rest = Raise x ->
    x = InterpolationSyntaxError \/ x = InterpolationMissingOptionError
    \/ x = InterpolationDepthError.
Proof.
  intros Hr. induction fuel as [|fuel IH]; intros accum rest x;
    (destruct rest as [|c r]; [discriminate|]); [discriminate|].
  cbn [configparser.interpolate_loop].
  generalize (String c r) as rest. clear c r. intros rest.
  destruct (find "%" rest) as [p|]; [|discriminate]. cbv zeta.
  destruct (String.eqb _ "%"); [apply IH|].
  destruct (String.eqb _ "("); [|intros [= <-]; auto].
  destruct (configparser.KEYCRE_match _) as [[name e]|]; [|intros [= <-]; auto].
  destruct (m _) as [v|]; [|intros [= <-]; auto].
  destruct (contains "%" v); [|apply IH].
  destruct (recur _ v) eqn:E; [apply IH|].
  intros [= <-]. apply (Hr _ _ _ E).
Qed.

Lemma before_get_errors raw m x :
  configparser.before_get raw m = Raise x ->
  x = InterpolationSyntaxError \/ x = InterpolationMissingOptionError
  \/ x = InterpolationDepthError.
Proof.
  unfold configparser.before_get.
  generalize configparser.MAX_INTERPOLATION_DEPTH as budget, "" as accum.
  intros budget. revert raw x.
  induction budget as [|budget IH]; intros raw x accum;
    cbn [configparser._interpolate_some]; [intros [= <-]; auto|].
  apply interpolate_loop_errors. intros a v y. apply IH.
Qed.

(** [get_section] and [get] on an existing section of a store that the
    class can produce, in terms of the dictionary that [items] builds. *)
Lemma section_view (s : self) (section : string) (sd : Dict.t string) :
  reachable s ->
  Dict.get section (configparser._sections (config s)) = Some sd ->
  let D := Dict.update (configparser._defaults (config s)) sd in
  NoDup (Dict.keys D)
  /\ Forall (fun k => lower k = k) (Dict.keys D)
  /\ Dict.keys D
     = (Dict.keys (configparser._defaults (config s))
        ++ filter (fun k => negb (Dict.mem k (configparser._defaults (config s))))
                  (Dict.keys sd))%list
  /\ get_section s section
     = match configparser.items_of D (Dict.keys D) with
       | Ret l => Ret (dict l)
       | Raise x => Raise x
       end
  /\ forall key,
       configparser.get (config s) section key
       = match Dict.get (lower key) D with
         | None => Raise NoOptionError
         | Some raw => configparser.before_get raw (fun k => Dict.get k D)
         end.
Proof.
  intros Hr Hsd D.
  destruct (reachable_ok s Hr) as [Hs [Hdn Hdl]].
  destruct (secs_ok_get _ _ _ Hs Hsd) as [[Hnd Hlow] _].
  assert (Hkeys := keys_update (configparser._defaults (config s)) sd Hnd).
  fold D in Hkeys.
  split; [apply NoDup_keys_update, Hdn|]. split.
  { rewrite Hkeys. apply Forall_app. split; [exact Hdl|].
    apply Forall_forall. intros k Hin. apply filter_In in Hin as [Hin _].
    revert k Hin. apply Forall_forall, Hlow. }
  split; [exact Hkeys|]. split.
  - unfold get_section, configparser.has_section, Dict.mem, configparser.items.
    rewrite Hsd. reflexivity.
  - intros key. unfold configparser.get, configparser._unify_values,
      configparser.optionxform.
    rewrite Hsd. unfold D. rewrite (unified_lookup _ _ Hnd).
    destruct (configparser.ChainMap sd _ (lower key)) as [raw|]; [|reflexivity].
    apply before_get_ext. intros k. symmetry. apply unified_lookup, Hnd.
Qed.

(** For every store that the class can produce and every existing
    section: when [get_section] returns, the keys of the mapping are the
    keys of the defaults, in their order, followed by the keys of the
    section itself that the defaults do not hold, in their order; they
    are distinct and in lower case. *)
Theorem get_section_keys (s : self) (section : string) (sd d : Dict.t string) :
  reachable s ->
  Dict.get section (configparser._sections (config s)) = Some sd ->
  get_section s section = Ret d ->
  Dict.keys d
  = (Dict.keys (configparser._defaults (config s))
     ++ filter (fun k => negb (Dict.mem k (configparser._defaults (config s))))
               (Dict.keys sd))%list
  /\ dict_ok d.
Proof.
  intros Hr Hsd Hd.
  destruct (section_view s section sd Hr Hsd) as (Hnd & Hlow & Hkeys & Hg & _).
  rewrite Hg in Hd.
  destruct (configparser.items_of _ _) as [l|] eqn:Hl; [|discriminate].
  injection Hd as <-. apply items_of_fst in Hl.
  assert (Hl' : Dict.keys l
                = Dict.keys (Dict.update (configparser._defaults (config s)) sd))
    by exact Hl.
  rewrite <- Hl' in Hnd, Hlow, Hkeys.
  destruct (dict_NoDup l Hnd) as [Hk _].
  split; [rewrite Hk; exact Hkeys|].
  split; rewrite Hk; assumption.
Qed.

Lemma get_section_keys_witness :
  let fs := os.mkFileSystem
              [("config.ini", "[S]" ++ configparser.nl
                              ++ "b = 2" ++ configparser.nl
                              ++ "a = 3" ++ configparser.nl
                              ++ "[DEFAULT]" ++ configparser.nl
                              ++ "a = 1" ++ configparser.nl)] [] in
  result_map Dict.keys (get_section (__init__ fs "config.ini") "S")
  = Ret ["a"; "b"]
  /\ dict_ok [("a", "3"); ("b", "2")].
Proof.
  split; [reflexivity|].
  apply (get_section_keys
           (__init__ (os.mkFileSystem
                        [("config.ini", "[S]" ++ configparser.nl
                                        ++ "b = 2" ++ configparser.nl
                                        ++ "a = 3" ++ configparser.nl
                                        ++ "[DEFAULT]" ++ configparser.nl
                                        ++ "a = 1" ++ configparser.nl)] [])
                     "config.ini")
           "S" [("b", "2"); ("a", "3")] [("a", "3"); ("b", "2")]);
    [apply reach_init | reflexivity | reflexivity].
Defined.

(** For every store that the class can produce and every existing
    section: when [get_section] returns a mapping, [get_key] on this
    section returns what the mapping holds under the lower-case form of
    the key, and the default for the keys that the mapping does not
    hold. *)
Theorem get_section_agrees_with_get_key (s : self) (section : string)
    (d : Dict.t string) :
  reachable s ->
  configparser.has_section (config s) section = true ->
  get_section s section = Ret d ->
  forall key default,
    get_key s section key default
    = match Dict.get (lower key) d with
      | Some v => PStr v
      | None => default
      end.
Proof.
  intros Hr Hhas Hd key default.
  destruct (mem_true_get _ _ Hhas) as [sd Hsd].
  destruct (section_view s section sd Hr Hsd) as (Hnd & _ & _ & Hg & Hget).
  rewrite Hg in Hd.
  destruct (configparser.items_of _ _) as [l|] eqn:Hl; [|discriminate].
  injection Hd as <-.
  assert (Hkl : Dict.keys l
                = Dict.keys (Dict.update (configparser._defaults (config s)) sd))
    by exact (items_of_fst _ _ _ Hl).
  rewrite <- Hkl in Hnd. destruct (dict_NoDup l Hnd) as [_ Hdl].
  unfold get_key. rewrite Hget, Hdl.
  destruct (in_dec string_dec (lower key) (Dict.keys l)) as [Hin|Hn].
  - rewrite Hkl in Hin.
    destruct (items_of_get _ _ _ _ Hl Hin) as (raw & v & -> & -> & ->).
    reflexivity.
  - rewrite (get_not_in _ _ Hn). rewrite Hkl in Hn.
    rewrite (get_not_in _ _ Hn). reflexivity.
Qed.

Lemma get_section_agrees_with_get_key_witness :
  let s := run_all (__init__ (os.mkFileSystem [] []) "config.ini")
             [AddKey "Paths" "home" (PStr "/srv");
              AddKey "Paths" "Logs" (PStr "%(home)s/logs")] in
  get_section s "Paths" = Ret [("home", "/srv"); ("logs", "/srv/logs")]
  /\ get_key s "Paths" "LOGS" PNone = PStr "/srv/logs"
  /\ get_key s "Paths" "other" (PInt 0) = PInt 0.
Proof.
  pose proof (get_section_agrees_with_get_key
                (run_all (__init__ (os.mkFileSystem [] []) "config.ini")
                   [AddKey "Paths" "home" (PStr "/srv");
                    AddKey "Paths" "Logs" (PStr "%(home)s/logs")])
                "Paths" [("home", "/srv"); ("logs", "/srv/logs")]
                (reach_call _ _ (reach_call _ _ (reach_init _ _)))
                eq_refl eq_refl) as H.
  split; [reflexivity|]. split; [apply (H "LOGS") | apply (H "other")].
Defined.

(** For every store that the class can produce and every existing
    section: [get_section] raises exactly when [get] on the section
    raises for some key an exception other than [NoOptionError], that
    is, when the interpolation of a value that the section shows fails.
    [get_key] returns the default for such a key. *)
Theorem get_section_raises (s : self) (section : string) :
  reachable s ->
  configparser.has_section (config s) section = true ->
  (exists x, get_section s section = Raise x)
  <-> (exists key x,
          configparser.get (config s) section key = Raise x
          /\ x <> NoOptionError).
Proof.
  intros Hr Hhas.
  destruct (mem_true_get _ _ Hhas) as [sd Hsd].
  destruct (section_view s section sd Hr Hsd) as (_ & Hlow & _ & Hg & Hget).
  rewrite Hg. split.
  - intros [x Hx].
    destruct (configparser.items_of _ _) as [l|] eqn:Hl; [discriminate|].
    injection Hx as ->.
    destruct (items_of_raise _ _ _ Hl (fun k H => H))
      as (k & raw & Hin & Hraw & Hb).
    exists k, x. rewrite Hget.
    rewrite (proj1 (Forall_forall _ _) Hlow k Hin), Hraw.
    split; [exact Hb|].
    destruct (before_get_errors _ _ _ Hb) as [->|[->| ->]]; discriminate.
  - intros (key & x & Hx & Hne). rewrite Hget in Hx.
    destruct (Dict.get (lower key) _) as [raw|] eqn:Hraw;
      [|injection Hx as <-; contradiction].
    destruct (configparser.items_of _ _) as [l|] eqn:Hl;
      [|eexists; reflexivity].
    destruct (items_of_get _ _ _ _ Hl (get_in_keys _ _ _ Hraw))
      as (raw' & v & Hraw' & Hv & _).
    congruence.
Qed.

Lemma get_section_raises_witness :
  let s := run (__init__ (os.mkFileSystem [] []) "config.ini")
               (AddKey "S" "a" (PStr "%(b)s")) in
  (exists x, get_section s "S" = Raise x)
  /\ get_key s "S" "a" PNone = PNone.
Proof.
  split; [|reflexivity].
  apply (get_section_raises
           (run (__init__ (os.mkFileSystem [] []) "config.ini")
                (AddKey "S" "a" (PStr "%(b)s")))
           "S" (reach_call _ _ (reach_init _ _)) eq_refl).
  exists "a", InterpolationMissingOptionError.
  split; [reflexivity|discriminate].
Defined.

(** ** Sessions: what is saved is what is loaded *)

Lemma read_written_file (fs : os.FileSystem) path cfg :
  wf_store cfg ->
  Dict.get path (os.files fs) = Some (configparser.write cfg) ->
  configparser.read fs path = Ret cfg.
Proof.
  intros Hwf Hget. unfold configparser.read, os.open_r.
  rewrite Hget, (write_blocks _ Hwf).
  destruct Hwf as [Hdef Hsecs].
  rewrite (readlines_concat _ (blocks_plain _ (proj2 Hsecs))).
  rewrite (_read_written _ Hsecs). destruct cfg as [secs defs].
  simpl in Hdef. subst defs. reflexivity.
Qed.

Lemma wf_remove_key (s : self) section key :
  wf_store (config s) -> wf_store (config (snd (remove_key s section key))).
Proof.
  intros H. pose proof H as [Hdef [Hnd Hall]].
  unfold remove_key, configparser.remove_option.
  destruct (configparser.has_option (config s) section key); [|exact H].
  destruct (String.eqb section "" || String.eqb section configparser.default_section).
  - simpl. rewrite Hdef. exact H.
  - destruct (Dict.get section _) as [sd|] eqn:E; [|exact H]. simpl.
    destruct (Dict.mem _ sd); [|exact H].
    split; [exact Hdef|]. simpl. split; [apply NoDup_keys_set, Hnd|].
    apply Forall_set; [exact Hall|].
    pose proof (Forall_get wf_section _ _ _ Hall E) as [Hn [Hnd' Hall']].
    split; [exact Hn|].
    split; [apply NoDup_keys_del, Hnd' | apply Forall_del, Hall'].
Qed.

Lemma wf_remove_section (s : self) section :
  wf_store (config s) -> wf_store (config (snd (remove_section s section))).
Proof.
  intros H. pose proof H as [Hdef [Hnd Hall]].
  unfold remove_section, configparser.remove_section, configparser.has_section.
  destruct (Dict.mem section _); [|exact H].
  split; [exact Hdef|]. simpl.
  split; [apply NoDup_keys_del, Hnd | apply Forall_del, Hall].
Qed.

Lemma wf_run (s : self) (c : call) :
  wf_store (config s) -> safe_call c = true -> wf_store (config (run s c)).
Proof.
  destruct c; simpl; intros H Hc;
    [apply wf_add_key; assumption | apply wf_remove_key, H
     | apply wf_remove_section, H].
Qed.

Lemma wf_run_all cs :
  forall s, wf_store (config s) -> forallb safe_call cs = true ->
            wf_store (config (run_all s cs)).
Proof.
  unfold run_all. induction cs as [|c cs IH]; intros s H Hcs; [exact H|].
  cbn [forallb] in Hcs. apply andb_true_iff in Hcs as [Hc Hcs].
  cbn [fold_left]. apply IH; [|exact Hcs]. apply wf_run; assumption.
Qed.

Lemma run_path (s : self) (c : call) :
  config_file_path (run s c) = config_file_path s.
Proof.
  destruct c; simpl.
  - apply add_key_path.
  - unfold remove_key.
    destruct (configparser.has_option _ _ _); [|reflexivity].
    destruct (configparser.remove_option _ _ _) as [[b cfg]|]; reflexivity.
  - unfold remove_section.
    destruct (configparser.has_section _ _); reflexivity.
Qed.

Lemma run_all_path cs :
  forall s, config_file_path (run_all s cs) = config_file_path s.
Proof.
  unfold run_all. induction cs as [|c cs IH]; intros s; [reflexivity|].
  cbn [fold_left]. rewrite IH. apply run_path.
Qed.

Lemma init_wf (fs : os.FileSystem) path :
  file_ok path fs -> wf_store (config (__init__ fs path)).
Proof.
  intros [_ [Hnone | (cfg & Hwf & Hget)]]; unfold __init__, _load_config;
    cbn [config].
  - unfold configparser.read, os.open_r. rewrite Hnone.
    split; [reflexivity|]. split; constructor.
  - rewrite (read_written_file _ _ _ Hwf Hget). exact Hwf.
Qed.

Lemma session_ok path (fs : os.FileSystem) cs :
  file_ok path fs -> forallb safe_call cs = true ->
  file_ok path (session path fs cs)
  /\ config (__init__ (session path fs cs) path)
     = config (run_all (__init__ fs path) cs).
Proof.
  intros Hok Hcs.
  assert (Hwf : wf_store (config (run_all (__init__ fs path) cs)))
    by (apply wf_run_all; [apply init_wf, Hok | exact Hcs]).
  destruct Hok as [Hden _].
  unfold session, save_config, os.open_w_write.
  rewrite run_all_path. cbn [config_file_path __init__]. rewrite Hden.
  cbn [snd]. split.
  - split; [exact Hden|]. right. eexists. split; [exact Hwf|].
    cbn [os.files]. apply get_set_same.
  - unfold __init__ at 1. cbn [config]. unfold _load_config at 1.
    rewrite (read_written_file _ _ _ Hwf); [reflexivity|].
    cbn [os.files]. apply get_set_same.
Qed.

Lemma sessions_ok path css :
  forall fs : os.FileSystem,
    file_ok path fs -> forallb (forallb safe_call) css = true ->
    file_ok path (sessions path fs css).
Proof.
  unfold sessions. induction css as [|cs css IH]; intros fs H Hcss; [exact H|].
  cbn [forallb] in Hcss. apply andb_true_iff in Hcss as [Hcs Hcss].
  cbn [fold_left]. apply IH; [|exact Hcss].
  apply (session_ok path fs cs H Hcs).
Qed.

(** Take a path at which there is no file and at which saving succeeds,
    and any number of sessions, each of which constructs the object
    from the path, makes calls of [add_key] with arguments that the
    file carries over, of [remove_key] and of [remove_section] in any
    order, and saves.  After one more such session, the object
    constructed from the path holds the configuration that the session
    saved: [get_key] and [get_section] give what they gave before
    saving. *)
Theorem sessions_persist (fs : os.FileSystem) (path : string)
    (css : list (list call)) (cs : list call) :
  Dict.get path (os.files fs) = None ->
  existsb (String.eqb path) (os.denied fs) = false ->
  forallb (forallb safe_call) css = true ->
  forallb safe_call cs = true ->
  let fs1 := sessions path fs css in
  let s := run_all (__init__ fs1 path) cs in
  let s' := __init__ (session path fs1 cs) path in
  config s' = config s
  /\ (forall section key default,
         get_key s' section key default = get_key s section key default)
  /\ (forall section, get_section s' section = get_section s section).
Proof.
  intros Hnone Hden Hcss Hcs fs1 s s'.
  assert (Hok : file_ok path fs1)
    by (apply sessions_ok; [split; [exact Hden|left; exact Hnone] | exact Hcss]).
  assert (Hcfg : config s' = config s)
    by apply (session_ok path fs1 cs Hok Hcs).
  split; [exact Hcfg|]. split.
  - intros section key default. unfold get_key. rewrite Hcfg. reflexivity.
  - intros section. unfold get_section. rewrite Hcfg. reflexivity.
Qed.

Lemma sessions_persist_witness :
  let fs := os.mkFileSystem [] [] in
  let first := [AddKey "Database" "host" (PStr "localhost");
                AddKey "Database" "port" (PStr "5432");
                AddKey "Database" "password" (PStr "secure_password_123");
                AddKey "Features" "enable_logging" (PBool true);
                AddKey "Features" "max_retries" (PInt 5)] in
  let second := [AddKey "Database" "port" (PStr "5433");
                 RemoveKey "Database" "password";
                 RemoveSection "Features"] in
  let s' := __init__ (sessions "my_project_settings.ini" fs [first; second])
                     "my_project_settings.ini" in
  get_section s' "Database" = Ret [("host", "localhost"); ("port", "5433")]
  /\ get_section s' "Features" = Ret []
  /\ get_key s' "Database" "password" (PStr "NOT_FOUND") = PStr "NOT_FOUND".
Proof.
  destruct (sessions_persist
              (os.mkFileSystem [] []) "my_project_settings.ini"
              [[AddKey "Database" "host" (PStr "localhost");
                AddKey "Database" "port" (PStr "5432");
                AddKey "Database" "password" (PStr "secure_password_123");
                AddKey "Features" "enable_logging" (PBool true);
                AddKey "Features" "max_retries" (PInt 5)]]
              [AddKey "Database" "port" (PStr "5433");
               RemoveKey "Database" "password";
               RemoveSection "Features"]
              eq_refl eq_refl eq_refl eq_refl) as (_ & Hk & Hs).
  split; [exact (Hs "Database")|]. split; [exact (Hs "Features")|].
  exact (Hk "Database" "password" (PStr "NOT_FOUND")).
Defined.

(** ** The lines of a file *)

Lemma universal_newlines_cons c r :
  os.universal_newlines (String c r)
  = if Ascii.eqb c CR then
      String LF (match r with
                 | String c' r' =>
                     if Ascii.eqb c' LF then os.universal_newlines r'
                     else os.universal_newlines r
                 | "" => ""
                 end)
    else String c (os.universal_newlines r).
Proof. reflexivity. Qed.

(** A line feed is a place at which the translation of line ends can be
    cut. *)
Lemma universal_newlines_LF b :
  exists b', forall rest,
    os.universal_newlines (b ++ String LF rest)
    = b' ++ String LF (os.universal_newlines rest).
Proof.
  assert (H : forall n b, (String.length b <= n)%nat ->
              exists b', forall rest,
                os.universal_newlines (b ++ String LF rest)
                = b' ++ String LF (os.universal_newlines rest)).
  { clear b. induction n as [|n IH]; intros b Hlen.
    - destruct b; [|simpl in Hlen; lia]. exists "". reflexivity.
    - destruct b as [|c r]; [exists ""; reflexivity|]. simpl in Hlen.
      destruct (Ascii.eqb c CR) eqn:Ec.
      + destruct r as [|c' r'].
        * exists "". intros rest. cbn [append].
          rewrite universal_newlines_cons, Ec. reflexivity.
        * simpl in Hlen. destruct (Ascii.eqb c' LF) eqn:Ec'.
          -- destruct (IH r') as [b' Hb']; [lia|].
             exists (String LF b'). intros rest. cbn [append].
             rewrite universal_newlines_cons, Ec. cbv match.
             rewrite Ec', Hb'. reflexivity.
          -- destruct (IH (String c' r')) as [b' Hb']; [simpl; lia|].
             exists (String LF b'). intros rest. cbn [append].
             rewrite universal_newlines_cons, Ec. cbv match. rewrite Ec'.
             change (String c' (r' ++ String LF rest))
               with (String c' r' ++ String LF rest).
             rewrite Hb'. reflexivity.
      + destruct (IH r) as [b' Hb']; [lia|].
        exists (String c b'). intros rest. cbn [append].
        rewrite universal_newlines_cons, Ec, Hb'. reflexivity. }
  apply (H (String.length b)). apply Nat.le_refl.
Qed.

Lemma universal_newlines_app c t :
  contains CR c = false ->
  os.universal_newlines (c ++ t) = c ++ os.universal_newlines t.
Proof.
  induction c as [|x c IH]; [reflexivity|].
  intros H. simpl in H. apply orb_false_iff in H as [Hx Hc].
  cbn [append]. rewrite universal_newlines_cons, Hx, (IH Hc). reflexivity.
Qed.

Lemma readlines_from_app x :
  forall cur y,
    os.readlines_from cur (x ++ String LF y)
    = (os.readlines_from cur (x ++ String LF "") ++ os.readlines_from "" y)%list.
Proof.
  induction x as [|c r IH]; intros cur y; [reflexivity|].
  cbn [append os.readlines_from].
  destruct (Ascii.eqb c LF); rewrite IH; reflexivity.
Qed.

Lemma lines_of_split before rest :
  ends_line before ->
  lines_of (before ++ rest) = (lines_of before ++ lines_of rest)%list.
Proof.
  intros [->|[b ->]]; [reflexivity|].
  unfold lines_of, configparser.nl. rewrite append_assoc. cbn [append].
  destruct (universal_newlines_LF b) as [b' Hb']. rewrite !Hb'.
  apply readlines_from_app.
Qed.

Lemma lines_of_line body rest :
  contains LF body = false -> contains CR body = false ->
  lines_of (body ++ configparser.nl ++ rest)
  = (body ++ configparser.nl) :: lines_of rest.
Proof.
  intros Hlf Hcr. unfold lines_of. rewrite (universal_newlines_app _ _ Hcr).
  exact (readlines_line body "" (os.universal_newlines rest) Hlf).
Qed.

Lemma read_lines_app l1 l2 :
  forall rs,
    configparser.read_lines rs (l1 ++ l2)
    = match configparser.read_lines rs l1 with
      | Ret rs' => configparser.read_lines rs' l2
      | Raise x => Raise x
      end.
Proof.
  induction l1 as [|l l1 IH]; intros rs; [reflexivity|].
  cbn [app configparser.read_lines].
  destruct (configparser.read_line rs l); [apply IH|reflexivity].
Qed.

(** ** Comment lines *)

(** For every file and every line of it without carriage return that,
    after stripping, starts with [#] or [;]: the object constructed
    from the file is the one constructed from the file without this
    line.  (The line before it, if any, ends in a line feed.) *)
Theorem comment_line_ignored (fs1 fs2 : os.FileSystem) (path : string)
    (before c after : string) :
  ends_line before ->
  contains LF c = false -> contains CR c = false ->
  is_comment (c ++ configparser.nl) = true ->
  Dict.get path (os.files fs1) = Some (before ++ c ++ configparser.nl ++ after) ->
  Dict.get path (os.files fs2) = Some (before ++ after) ->
  __init__ fs1 path = __init__ fs2 path.
Proof.
  intros Hb Hlf Hcr Hc H1 H2.
  unfold __init__, _load_config, configparser.read, os.open_r.
  rewrite H1, H2. fold (lines_of (before ++ c ++ configparser.nl ++ after)).
  fold (lines_of (before ++ after)).
  rewrite !(lines_of_split before) by exact Hb.
  rewrite (lines_of_line _ _ Hlf Hcr).
  unfold configparser._read. rewrite !read_lines_app.
  destruct (configparser.read_lines _ (lines_of before)) as [rs|];
    [|reflexivity].
  cbn [configparser.read_lines]. unfold configparser.read_line at 1.
  unfold is_comment in Hc. rewrite Hc. reflexivity.
Qed.

Lemma comment_line_ignored_witness :
  let text := "[Database]" ++ configparser.nl
              ++ "host = localhost" ++ configparser.nl in
  let noted := "[Database]" ++ configparser.nl
               ++ "  ; the server" ++ configparser.nl
               ++ "host = localhost" ++ configparser.nl in
  __init__ (os.mkFileSystem [("config.ini", noted)] []) "config.ini"
  = __init__ (os.mkFileSystem [("config.ini", text)] []) "config.ini".
Proof.
  apply (comment_line_ignored
           (os.mkFileSystem
              [("config.ini", "[Database]" ++ configparser.nl
                              ++ "  ; the server" ++ configparser.nl
                              ++ "host = localhost" ++ configparser.nl)] [])
           (os.mkFileSystem
              [("config.ini", "[Database]" ++ configparser.nl
                              ++ "host = localhost" ++ configparser.nl)] [])
           "config.ini"
           ("[Database]" ++ configparser.nl) "  ; the server"
           ("host = localhost" ++ configparser.nl));
    [right; exists "[Database]"; reflexivity
    | reflexivity | reflexivity | reflexivity | reflexivity | reflexivity].
Defined.

(** ** A section header that occurs twice *)

Lemma section_seen_with_cursect_dict name rs c d :
  section_seen name rs ->
  section_seen name (configparser.with_cursect_dict rs c d).
Proof.
  intros [Hm He]. destruct c as [|name']; split; simpl;
    try assumption.
  rewrite mem_set, Hm. apply orb_true_r.
Qed.

Lemma section_seen_cursect_append name rs c o value :
  section_seen name rs ->
  section_seen name (configparser.cursect_append rs c o value).
Proof.
  intros H. unfold configparser.cursect_append.
  destruct (Dict.get o _); [|exact H].
  apply section_seen_with_cursect_dict, H.
Qed.

Lemma read_entry_seen name rs value indent rs' :
  section_seen name rs ->
  configparser.read_entry rs value indent = Ret rs' ->
  section_seen name rs'.
Proof.
  intros H. pose proof H as [Hm He]. unfold configparser.read_entry.
  destruct (configparser.SECTCRE_match value) as [name'|].
  - destruct (Dict.mem name' (configparser.r_sections rs)).
    + destruct (existsb (configparser.element_eqb
                           (configparser.ElemSection name')) _);
        [discriminate|]. intros [= <-].
      split; [exact Hm|]. cbn [configparser.elements_added existsb].
      rewrite He. apply orb_true_r.
    + destruct (String.eqb name' configparser.default_section);
        intros [= <-]; [split; assumption|].
      split; cbn [configparser.r_sections configparser.elements_added existsb].
      * rewrite mem_set, Hm. apply orb_true_r.
      * rewrite He. apply orb_true_r.
  - destruct (configparser.cursect rs) as [c|]; [|discriminate].
    destruct (configparser.OPTCRE_match value) as [[[o vi] optval]|].
    + cbv zeta.
      destruct (existsb (configparser.element_eqb
                           (configparser.ElemOption _ _)) _);
        [discriminate|]. intros [= <-].
      apply section_seen_with_cursect_dict.
      split; [exact Hm|]. cbn [configparser.elements_added existsb].
      rewrite He. apply orb_true_r.
    + intros [= <-]. split; assumption.
Qed.

Lemma read_line_seen name rs line rs' :
  section_seen name rs -> configparser.read_line rs line = Ret rs' ->
  section_seen name rs'.
Proof.
  intros H. unfold configparser.read_line.
  destruct (_ || _); [intros [= <-]; exact H|].
  destruct (String.eqb (strip line) "").
  { destruct (configparser.cursect rs) as [c|];
      [destruct (configparser.truthy _)|]; intros [= <-]; try exact H.
    apply section_seen_cursect_append, H. }
  destruct (configparser.cursect rs) as [c|];
    [destruct (configparser.truthy _); [destruct (_ <? _)%nat|]|];
    try apply (read_entry_seen _ _ _ _ _ H).
  intros [= <-]. apply section_seen_cursect_append, H.
Qed.

Lemma read_lines_seen name fp :
  forall rs rs',
    section_seen name rs -> configparser.read_lines rs fp = Ret rs' ->
    section_seen name rs'.
Proof.
  induction fp as [|line fp IH]; intros rs rs' H; simpl.
  - intros [= <-]. exact H.
  - destruct (configparser.read_line rs line) as [rs1|x] eqn:E; [|discriminate].
    apply IH. apply (read_line_seen _ _ _ _ H E).
Qed.

(** The line of a header is read as a header, whatever was read
    before. *)
Lemma read_line_header_entry rs name :
  configparser.read_line rs (header_line name)
  = configparser.read_entry rs ("[" ++ name ++ "]") 0.
Proof.
  unfold configparser.read_line. rewrite strip_header.
  cbn [append startswith String.prefix orb String.eqb].
  replace (configparser.NONSPACECRE_search (header_line name)) with (Some 0)
    by reflexivity.
  change (String "[" (name ++ "]")) with ("[" ++ name ++ "]").
  destruct (configparser.cursect rs) as [c|];
    [destruct (configparser.truthy (configparser.optname rs)) as [o|]|];
    reflexivity.
Qed.

Lemma read_header_twice name l1 l2 l3 rs :
  safe_section name = true ->
  exists x,
    configparser.read_lines rs
      (l1 ++ header_line name :: l2 ++ header_line name :: l3)%list
    = Raise x.
Proof.
  intros Hs. destruct (safe_section_names _ Hs) as [Hd He].
  assert (Hnd : String.eqb name configparser.default_section = false)
    by (apply String.eqb_neq; exact Hd).
  rewrite read_lines_app.
  destruct (configparser.read_lines rs l1) as [rs1|x]; [|exists x; reflexivity].
  cbn [configparser.read_lines]. rewrite read_line_header_entry.
  destruct (configparser.read_entry rs1 _ 0) as [rs2|x] eqn:E2;
    [|exists x; reflexivity].
  assert (Hseen : section_seen name rs2).
  { revert E2. unfold configparser.read_entry.
    rewrite (SECTCRE_header _ He), Hnd.
    destruct (Dict.mem name (configparser.r_sections rs1)) eqn:Hm.
    - destruct (existsb _ _); [discriminate|]. intros [= <-].
      split; [exact Hm|]. cbn [configparser.elements_added existsb].
      cbn [configparser.element_eqb]. rewrite String.eqb_refl. reflexivity.
    - intros [= <-]. split.
      + apply mem_set_same.
      + cbn [configparser.elements_added existsb configparser.element_eqb].
        rewrite String.eqb_refl. reflexivity. }
  rewrite read_lines_app.
  destruct (configparser.read_lines rs2 l2) as [rs3|x] eqn:E3;
    [|exists x; reflexivity].
  destruct (read_lines_seen _ _ _ _ Hseen E3) as [Hm3 He3].
  cbn [configparser.read_lines]. rewrite read_line_header_entry.
  unfold configparser.read_entry.
  rewrite (SECTCRE_header _ He), Hm3, He3.
  exists DuplicateSectionError. reflexivity.
Qed.

(** For every file in which the header line of a section occurs twice
    (the name is not [DEFAULT] and holds no line break; each of the two
    lines starts a line): the object constructed from the file has the
    empty store, whatever else the file holds. *)
Theorem duplicate_section_empties_store (fs : os.FileSystem)
    (path name before mid after : string) :
  safe_section name = true ->
  ends_line before -> ends_line mid ->
  Dict.get path (os.files fs)
  = Some (before ++ header_line name ++ mid ++ header_line name ++ after) ->
  config (__init__ fs path) = configparser.new
  /\ (forall section, get_section (__init__ fs path) section = Ret [])
  /\ (forall section key default,
         get_key (__init__ fs path) section key default = default).
Proof.
  intros Hs Hb Hm Hget.
  assert (Hcfg : config (__init__ fs path) = configparser.new).
  { unfold __init__, _load_config, configparser.read, os.open_r.
    cbn [config]. rewrite Hget.
    fold (lines_of (before ++ header_line name ++ mid
                    ++ header_line name ++ after)).
    assert (Hbody : contains LF ("[" ++ name ++ "]") = false
                    /\ contains CR ("[" ++ name ++ "]") = false).
    { unfold safe_section in Hs.
      apply andb_true_iff in Hs as [Hs Hcr].
      apply andb_true_iff in Hs as [_ Hlf].
      apply negb_true_iff in Hcr, Hlf.
      cbn [append contains]. rewrite !contains_app, Hlf, Hcr. split; reflexivity. }
    destruct Hbody as [Hlf Hcr].
    assert (Hline : forall rest,
               lines_of (header_line name ++ rest)
               = header_line name :: lines_of rest).
    { intros rest. unfold header_line.
      replace (("[" ++ name ++ "]" ++ configparser.nl) ++ rest)
        with (("[" ++ name ++ "]") ++ configparser.nl ++ rest)
        by (rewrite !append_assoc; reflexivity).
      replace ("[" ++ name ++ "]" ++ configparser.nl)
        with (("[" ++ name ++ "]") ++ configparser.nl)
        by (rewrite !append_assoc; reflexivity).
      apply lines_of_line; assumption. }
    rewrite (lines_of_split _ _ Hb), Hline, (lines_of_split _ _ Hm), Hline.
    unfold configparser._read.
    destruct (read_header_twice name (lines_of before) (lines_of mid)
                (lines_of after)
                (configparser.mkReader [] [] [] None None None 0 false) Hs)
      as [x ->].
    reflexivity. }
  split; [exact Hcfg|]. split.
  - intros section. unfold get_section. rewrite Hcfg. reflexivity.
  - intros section key default. unfold get_key. rewrite Hcfg.
    unfold configparser.get, configparser._unify_values. cbn.
    destruct (String.eqb section configparser.default_section); reflexivity.
Qed.

Lemma duplicate_section_empties_store_witness :
  let text := "[A]" ++ configparser.nl ++ "x = 1" ++ configparser.nl
              ++ "[B]" ++ configparser.nl ++ "y = 2" ++ configparser.nl
              ++ "[A]" ++ configparser.nl ++ "z = 3" ++ configparser.nl in
  let s := __init__ (os.mkFileSystem [("config.ini", text)] []) "config.ini" in
  config s = configparser.new
  /\ get_section s "B" = Ret []
  /\ get_key s "B" "y" PNone = PNone.
Proof.
  destruct (duplicate_section_empties_store
              (os.mkFileSystem
                 [("config.ini",
                   "[A]" ++ configparser.nl ++ "x = 1" ++ configparser.nl
                   ++ "[B]" ++ configparser.nl ++ "y = 2" ++ configparser.nl
                   ++ "[A]" ++ configparser.nl ++ "z = 3" ++ configparser.nl)] [])
              "config.ini" "A" ""
              ("x = 1" ++ configparser.nl ++ "[B]" ++ configparser.nl
               ++ "y = 2" ++ configparser.nl)
              ("z = 3" ++ configparser.nl))
    as (Hc & Hs & Hk);
    [reflexivity | left; reflexivity
    | right; exists ("x = 1" ++ configparser.nl ++ "[B]" ++ configparser.nl
                     ++ "y = 2"); reflexivity
    | reflexivity |].
  split; [exact Hc|]. split; [exact (Hs "B") | exact (Hk "B" "y" PNone)].
Defined.

(** ** Saving *)


